(** * The EELS chain backend of eth-tester: a shallow embedding

    The development follows [eth_tester/backends/eels/main.py] and
    [eth_tester/backends/eels/eels_normalizers.py].  The backend object is a
    record of its attributes ([Engine]); every method is a function in a
    state-and-exception monad over that record, so that what a method has
    already written when it raises stays written, as in Python.  The objects
    of the execution-specs library that the backend shares between attributes
    ([State] instances) live in an explicit store and are referred to by
    location, so that aliasing is visible.  The execution-specs library itself
    is outside of the repository: its entry points are the fields of the
    record [ForkLoad], the counterpart of [self.fork] and of the fork modules
    the backend loads. *)

From Stdlib Require Import ZArith Lia.
From Stdlib Require Strings.Byte Strings.HexString.
From stdpp Require Import base option list gmap strings numbers.

Local Open Scope string_scope.
Local Open Scope list_scope.
Local Open Scope Z_scope.

(** ** Bytes, Python values, exceptions *)

Abbreviation byte := Corelib.Init.Byte.byte.

#[global] Instance byte_eq_dec : EqDecision byte := Byte.byte_eq_dec.
#[global] Instance byte_countable : Countable byte :=
  inj_countable Byte.to_N Byte.of_N Byte.of_to_N.

Definition Bytes := list byte.
Definition Address := Bytes.
Definition Hash32 := Bytes.

Definition x00 : byte := Corelib.Init.Byte.x00.

(** [n] zero bytes *)
Definition zero_bytes (n : nat) : Bytes := replicate n x00.

Definition ZERO_ADDRESS : Address := zero_bytes 20.
Definition ZERO_HASH32 : Hash32 := zero_bytes 32.

(** The values the backend finds in the dictionaries it is handed. *)
Inductive PyVal :=
| PyNone
| PyBool (b : bool)
| PyInt (z : Z)
| PyStr (s : string)
| PyBytes (b : Bytes).

#[global] Instance PyVal_eq_dec : EqDecision PyVal.
Proof. solve_decision. Defined.

(** Python truthiness. *)
Definition truthy (v : PyVal) : bool :=
  match v with
  | PyNone => false
  | PyBool b => b
  | PyInt z => negb (z =? 0)
  | PyStr s => negb (bool_decide (s = EmptyString))
  | PyBytes b => negb (bool_decide (b = []))
  end.

(** A dictionary with string keys, in insertion order. *)
Definition Dict := list (string * PyVal).

Fixpoint dict_get (d : Dict) (k : string) : option PyVal :=
  match d with
  | [] => None
  | (k', v) :: rest => if bool_decide (k' = k) then Some v else dict_get rest k
  end.

(** [d[k] = v]: the value of an existing key is replaced where it is, a new
    key is added at the end. *)
Fixpoint dict_set (d : Dict) (k : string) (v : PyVal) : Dict :=
  match d with
  | [] => [(k, v)]
  | (k', v') :: rest =>
      if bool_decide (k' = k) then (k, v) :: rest
      else (k', v') :: dict_set rest k v
  end.

(** [d.pop(k, None)], the dictionary that is left *)
Fixpoint dict_pop (d : Dict) (k : string) : Dict :=
  match d with
  | [] => []
  | (k', v') :: rest =>
      if bool_decide (k' = k) then rest else (k', v') :: dict_pop rest k
  end.

(** The error field of an [Evm] object. *)
Inductive EvmError :=
| Revert
| OtherEvmError (name : string).

(** The argument of [TransactionFailed]: a string, or the error object
    itself ([msg = evm.error]). *)
Inductive FailedMsg :=
| MsgStr (s : string)
| MsgError (e : EvmError).

Inductive Exn :=
| ValidationError (msg : string)
| TransactionFailed (msg : FailedMsg)
| BlockNotFound (msg : string)
| TransactionNotFound (msg : string)
| NotImplementedError (msg : string)
| EthereumException (msg : string)
| KeyError (key : string)
| IndexError
| ValueError (msg : string)
| AttributeError (msg : string)
| TypeError (msg : string)
| OverflowError
| AssertionError.

Definition Result (A : Type) : Type := Exn + A.

(** [except (EthereumException, ValidationError)] *)
Definition recoverable (e : Exn) : bool :=
  match e with
  | EthereumException _ | ValidationError _ => true
  | _ => false
  end.

(** ** Fixed-width and unbounded unsigned integers of [ethereum.base_types]

    [Uint] rejects negative values, [U64] and [U256] reject values outside
    of their width; arithmetic on them raises instead of wrapping. *)

Definition U256_MAX : Z := 2 ^ 256 - 1.
Definition U64_MAX : Z := 2 ^ 64 - 1.

Definition Uint (z : Z) : Result Z :=
  if z <? 0 then inl OverflowError else inr z.

Definition U256 (z : Z) : Result Z :=
  if (z <? 0) || (U256_MAX <? z) then inl OverflowError else inr z.

Definition U64 (z : Z) : Result Z :=
  if (z <? 0) || (U64_MAX <? z) then inl OverflowError else inr z.

(** [a - b] on [Uint] *)
Definition Uint_sub (a b : Z) : Result Z := Uint (a - b).

(** ** Data of the execution-specs library, as the backend reads and builds it *)

Record Account := mkAccount {
  nonce : Z;
  balance : Z;
  code : Bytes;
}.

Definition EMPTY_ACCOUNT : Account :=
  {| nonce := 0; balance := 0; code := [] |}.

(** A [State]: the main trie and the storage tries (their [_data]
    dictionaries), and the stack of transaction snapshots (the attribute
    [_snapshots] of the library's class). *)
Record State := mkState {
  _main_trie : gmap Address Account;
  _storage_tries : gmap Address (gmap Bytes Bytes);
  _tx_snapshots : list (gmap Address Account * gmap Address (gmap Bytes Bytes));
}.

(** [State()] *)
Definition empty_State : State :=
  {| _main_trie := ∅; _storage_tries := ∅; _tx_snapshots := [] |}.

(** [get_account]: the account at an address, the empty account when there
    is none. *)
Definition get_account (s : State) (a : Address) : Account :=
  default EMPTY_ACCOUNT (_main_trie s !! a).

(** [set_account]; setting no account deletes the entry. *)
Definition set_account (s : State) (a : Address) (acc : Account) : State :=
  {| _main_trie := <[a := acc]> (_main_trie s);
     _storage_tries := _storage_tries s;
     _tx_snapshots := _tx_snapshots s |}.

(** [state.get_storage]: the value of a slot, the empty bytes when unset. *)
Definition state_get_storage (s : State) (a : Address) (slot : Bytes) : Bytes :=
  match _storage_tries s !! a with
  | Some t => default [] (t !! slot)
  | None => []
  end.

Record Header := mkHeader {
  parent_hash : Hash32;
  ommers_hash : Hash32;
  coinbase : Address;
  state_root : Hash32;
  transactions_root : Hash32;
  receipt_root : Hash32;
  bloom : Bytes;
  difficulty : Z;
  number : Z;
  gas_limit : Z;
  gas_used : Z;
  timestamp : Z;
  extra_data : Bytes;
  prev_randao : Bytes;
  header_nonce : Bytes;
  base_fee_per_gas : Z;
  withdrawals_root : Hash32;
  blob_gas_used : Z;
  excess_blob_gas : Z;
  parent_beacon_block_root : Hash32;
}.

Inductive TxClass :=
| LegacyTransaction
| AccessListTransaction
| FeeMarketTransaction
| BlobTransaction
| UnknownTransaction.

#[global] Instance TxClass_eq_dec : EqDecision TxClass.
Proof. solve_decision. Defined.

(** A decoded transaction object; [tx_access_list] is [None] for a class
    without the attribute. *)
Record Tx := mkTx {
  tx_class : TxClass;
  tx_nonce : Z;
  tx_gas_price : Z;
  tx_gas : Z;
  tx_to : Bytes;
  tx_value : Z;
  tx_data : Bytes;
  tx_access_list : option (list (Address * Bytes));
  tx_blob_versioned_hashes : list Hash32;
  tx_v : Z;
  tx_r : Z;
  tx_s : Z;
}.

(** What the backend holds as a transaction: an object of one of the
    classes, or the bytes of an encoded typed transaction. *)
Inductive Transaction :=
| Decoded (t : Tx)
| Encoded (b : Bytes).

(** [isinstance(tx, cls)] *)
Definition isinstance (tx : Transaction) (cls : TxClass) : bool :=
  match tx with
  | Decoded t => bool_decide (tx_class t = cls)
  | Encoded _ => false
  end.

Record Withdrawal := mkWithdrawal {
  wd_index : Z;
  wd_validator_index : Z;
  wd_address : Address;
  wd_amount : Z;
}.

Record Log := mkLog {
  log_address : Address;
  log_topics : list Hash32;
  log_data : Bytes;
}.

Record Block := mkBlock {
  header : Header;
  transactions : list Transaction;
  ommers : list Header;
  withdrawals : list Withdrawal;
}.

(** Locations of [State] objects in the store. *)
Definition loc := nat.

(** [EELSBlockChain] *)
Record BlockChain := mkBlockChain {
  blocks : list Block;
  state : loc;
  chain_id : Z;
}.

(** The [Environment] built from [kw_arguments]: the fork-dependent keywords
    are optional.
    [env_time] is whatever the header dictionary holds, which is [None] for
    a pending block whose timestamp has not been set. *)
Record Environment := mkEnvironment {
  env_caller : Address;
  env_origin : Address;
  env_block_hashes : list Hash32;
  env_coinbase : Address;
  env_number : Z;
  env_gas_limit : Z;
  env_time : option Z;
  env_state : loc;
  env_prev_randao : option Bytes;
  env_difficulty : option Z;
  env_chain_id : option Z;
  env_base_fee_per_gas : option Z;
  env_gas_price : Z;
  env_blob_versioned_hashes : option (list Hash32);
  env_excess_blob_gas : option Z;
  env_transient_storage : option (gmap (Address * Bytes) Bytes);
}.

Record Message := mkMessage {
  msg_caller : Address;
  msg_target : PyVal;
  msg_gas : Z;
  msg_value : Z;
  msg_data : Bytes;
  msg_code : Bytes;
  msg_depth : Z;
  msg_current_target : PyVal;
  msg_code_address : PyVal;
  msg_should_transfer_value : bool;
  msg_is_static : bool;
  msg_accessed_addresses : list Address;
  msg_accessed_storage_keys : list Bytes;
}.

(** What the backend reads of the [Evm] object [process_message] returns. *)
Record Evm := mkEvm {
  evm_error : option EvmError;
  evm_output : Bytes;
}.

(** A [Trie(secured=False, default=None)]: its [_data] dictionary. *)
Definition Trie := gmap Bytes Bytes.

(** [trie_set] with a value other than the default. *)
Definition trie_set (t : Trie) (k v : Bytes) : Trie := <[k := v]> t.

(** ** The execution-specs library, as seen from the backend

    Every entry point the backend calls through [self.fork] or one of the
    fork modules.  A function that works on a [State] object in place takes
    the content of the object and returns the new content; the backend model
    writes it back at the location the object lives at. *)

Variant CheckArgs :=
| CheckCancun (s : State) (tx : Transaction) (gas_available chain_id base_fee excess_blob_gas : Z)
| CheckArguments (tx : Transaction) (base_fee : option Z) (gas_available : Z) (chain_id : option Z).

Variant CheckReturn :=
| CheckedBlob (sender : Address) (effective_gas_price : Z) (blob_versioned_hashes : list Hash32)
| CheckedFee (sender : Address) (effective_gas_price : Z)
| CheckedSender (sender : Address).

(** The tuple [process_transaction] returns: gas used, logs, error. *)
Definition TxOutput : Type := Z * list Log * option EvmError.

Record ForkLoad := mkForkLoad {
  is_after_fork : string → bool;
  fork_state_root : State → Hash32;
  compute_header_hash : Header → Hash32;
  get_last_256_block_hashes : BlockChain → list Hash32;
  calculate_base_fee_per_gas : Z → Z → Z → Z → Result Z;
  calculate_excess_blob_gas : Header → Z;
  check_transaction : CheckArgs → Result CheckReturn;
  process_transaction : Environment → State → Transaction → State * Result TxOutput;
  process_message_call : Message → Environment → State → State * Result (list Address);
  destroy_touched_empty_accounts : State → list Address → State;
  process_message : Message → Environment → State → State * Result Evm;
  calculate_total_blob_gas : Transaction → Z;
  MAX_BLOB_GAS_PER_BLOCK : Z;
  BLOCK_REWARD : option Z;
  pay_rewards : State → Z → Address → list Header → State;
  process_withdrawal : State → Withdrawal → State;
  account_exists_and_is_empty : State → Address → bool;
  destroy_account : State → Address → State;
  state_transition : list Block → State → Z → Block → (list Block * State) * Result unit;
  encode_transaction : Transaction → Bytes;
  decode_transaction : Bytes → Result Tx;
  make_receipt : Transaction → option EvmError → Z → list Log → Bytes;
  logs_bloom : list Log → Bytes;
  root : Trie → Hash32;
  rlp_encode_uint : Z → Bytes;
  rlp_encode_tx : Transaction → Bytes;
  rlp_encode_withdrawal : Withdrawal → Bytes;
  rlp_hash_tx : Transaction → Hash32;
  rlp_hash_ommers : list Header → Hash32;
  keccak256 : Bytes → Hash32;
  signing_hash : Tx → Hash32;
  signing_hash_pre155 : Tx → Hash32;
  signing_hash_155 : Tx → Z → Hash32;
  signing_hash_2930 : Tx → Hash32;
  signing_hash_1559 : Tx → Hash32;
  signing_hash_4844 : Tx → Hash32;
  secp256k1_sign : Hash32 → Z → Z * Z * Z;
  TransactionLoad_read : Dict → Result Transaction;
  SYSTEM_ADDRESS : Address;
  SYSTEM_TRANSACTION_GAS : Z;
}.

(** A private key of [eth_keys]: its secret scalar and the canonical address
    of its public key. *)
Record PrivateKey := mkPrivateKey {
  secret : Z;
  canonical_address : Address;
}.

(** The overrides handed to [_get_default_account_state]: a dictionary over
    the keys [balance], [code] and [nonce]. *)
Record AccountOverrides := mkOverrides {
  ov_balance : option Z;
  ov_code : option Bytes;
  ov_nonce : option Z;
}.

Definition no_overrides : AccountOverrides :=
  {| ov_balance := None; ov_code := None; ov_nonce := None |}.

(** An empty dictionary is falsy. *)
Definition overrides_truthy (o : AccountOverrides) : bool :=
  bool_decide (is_Some (ov_balance o)) || bool_decide (is_Some (ov_code o))
  || bool_decide (is_Some (ov_nonce o)).

(** The serialized view of a log, of a receipt and of a transaction: the
    fields the backend fills in after mining, and the rest of the
    dictionary. *)
Record LogRecord := mkLogRecord {
  lr_block_number : option Z;
  lr_block_hash : option Hash32;
  lr_transaction_index : option Z;
  lr_transaction_hash : option Hash32;
  lr_type : string;
  lr_fields : gmap string PyVal;
}.

Record ReceiptRecord := mkReceiptRecord {
  rr_block_number : option Z;
  rr_block_hash : option Hash32;
  rr_transaction_index : option Z;
  rr_state_root : option Hash32;
  rr_logs : list LogRecord;
  rr_fields : gmap string PyVal;
}.

Record TxRecord := mkTxRecord {
  tr_block_number : option Z;
  tr_block_hash : option Hash32;
  tr_transaction_index : option Z;
  tr_fields : gmap string PyVal;
}.

(** The header dictionary of the pending block: the keys set by
    [_build_new_pending_block], and those [_mine_pending_block] adds. *)
Record PendingHeader := mkPendingHeader {
  ph_number : Z;
  ph_coinbase : Address;
  ph_difficulty : Z;
  ph_gas_limit : Z;
  ph_timestamp : option Z;
  ph_extra_data : Bytes;
  ph_prev_randao : Bytes;
  ph_nonce : Bytes;
  ph_parent_hash : Hash32;
  ph_base_fee_per_gas : Z;
  ph_parent_beacon_block_root : Hash32;
  ph_excess_blob_gas : Z;
  ph_bloom : option Bytes;
  ph_gas_used : option Z;
  ph_state_root : option Hash32;
  ph_receipt_root : option Hash32;
  ph_transactions_root : option Hash32;
  ph_withdrawals_root : option Hash32;
  ph_blob_gas_used : option Z;
  ph_ommers_hash : option Hash32;
}.

Record PendingBlock := mkPendingBlock {
  pb_header : PendingHeader;
  pb_transactions : list Transaction;
  pb_ommers : list Header;
  pb_withdrawals : list Withdrawal;
}.

(** The modules of eth-tester the backend imports that are not among the
    sources at hand, the constants of [eth_tester.constants], and the Python
    built-ins whose result is a string. *)
Record Support := mkSupport {
  merge_genesis_overrides : Account → AccountOverrides → Result Account;
  get_default_account_keys : option Z → list PrivateKey;
  get_account_keys_from_mnemonic : string → option Z → option string → list PrivateKey;
  normalize_transaction_fields : Dict → Z → Z → Z → Result Dict;
  snake_case_to_lower_camel_case : string → string;
  serialize_pending_receipt :
    Transaction → TxOutput → Z → Z → option Address → ReceiptRecord;
  serialize_transaction_for_block : Transaction → Z → Z → TxRecord;
  serialize_transaction : Dict → PendingBlock → TxRecord;
  BEACON_ROOTS_CONTRACT_ADDRESS : Address;
  BEACON_ROOTS_CONTRACT_CODE : Bytes;
  py_str : PyVal → string;
  bytes_str : Bytes → string;
  int_to_big_endian : Z → Bytes;
}.

(** The host: what the [k]-th reading of [int(time.time())] and the [k]-th
    call of [os.urandom(32)] give. *)
Record Host := mkHost {
  time_time : nat → Z;
  os_urandom : nat → Bytes;
}.

(** ** The backend object *)

Record Engine := mkEngine {
  store : gmap loc State;
  chain : BlockChain;
  _pending_block : option PendingBlock;
  _account_keys : list PrivateKey;
  _transactions_map : gmap Hash32 TxRecord;
  _receipts_map : gmap Hash32 ReceiptRecord;
  _snapshots : gmap Z loc;
  _state_history : gmap Z loc;
  clock_reads : nat;
  urandom_reads : nat;
  warnings : list (Hash32 * Exn);
}.

Definition set_store (f : gmap loc State → gmap loc State) (e : Engine) : Engine :=
  mkEngine (f (store e)) (chain e) (_pending_block e) (_account_keys e)
    (_transactions_map e) (_receipts_map e) (_snapshots e) (_state_history e)
    (clock_reads e) (urandom_reads e) (warnings e).

Definition set_chain (f : BlockChain → BlockChain) (e : Engine) : Engine :=
  mkEngine (store e) (f (chain e)) (_pending_block e) (_account_keys e)
    (_transactions_map e) (_receipts_map e) (_snapshots e) (_state_history e)
    (clock_reads e) (urandom_reads e) (warnings e).

Definition set_pending_block (p : option PendingBlock) (e : Engine) : Engine :=
  mkEngine (store e) (chain e) p (_account_keys e)
    (_transactions_map e) (_receipts_map e) (_snapshots e) (_state_history e)
    (clock_reads e) (urandom_reads e) (warnings e).

Definition set_account_keys (k : list PrivateKey) (e : Engine) : Engine :=
  mkEngine (store e) (chain e) (_pending_block e) k
    (_transactions_map e) (_receipts_map e) (_snapshots e) (_state_history e)
    (clock_reads e) (urandom_reads e) (warnings e).

Definition set_transactions_map (m : gmap Hash32 TxRecord) (e : Engine) : Engine :=
  mkEngine (store e) (chain e) (_pending_block e) (_account_keys e)
    m (_receipts_map e) (_snapshots e) (_state_history e)
    (clock_reads e) (urandom_reads e) (warnings e).

Definition set_receipts_map (m : gmap Hash32 ReceiptRecord) (e : Engine) : Engine :=
  mkEngine (store e) (chain e) (_pending_block e) (_account_keys e)
    (_transactions_map e) m (_snapshots e) (_state_history e)
    (clock_reads e) (urandom_reads e) (warnings e).

Definition set_snapshots (m : gmap Z loc) (e : Engine) : Engine :=
  mkEngine (store e) (chain e) (_pending_block e) (_account_keys e)
    (_transactions_map e) (_receipts_map e) m (_state_history e)
    (clock_reads e) (urandom_reads e) (warnings e).

Definition set_state_history (f : gmap Z loc → gmap Z loc) (e : Engine) : Engine :=
  mkEngine (store e) (chain e) (_pending_block e) (_account_keys e)
    (_transactions_map e) (_receipts_map e) (_snapshots e) (f (_state_history e))
    (clock_reads e) (urandom_reads e) (warnings e).

Definition set_clock_reads (n : nat) (e : Engine) : Engine :=
  mkEngine (store e) (chain e) (_pending_block e) (_account_keys e)
    (_transactions_map e) (_receipts_map e) (_snapshots e) (_state_history e)
    n (urandom_reads e) (warnings e).

Definition set_urandom_reads (n : nat) (e : Engine) : Engine :=
  mkEngine (store e) (chain e) (_pending_block e) (_account_keys e)
    (_transactions_map e) (_receipts_map e) (_snapshots e) (_state_history e)
    (clock_reads e) n (warnings e).

Definition add_warning (w : Hash32 * Exn) (e : Engine) : Engine :=
  mkEngine (store e) (chain e) (_pending_block e) (_account_keys e)
    (_transactions_map e) (_receipts_map e) (_snapshots e) (_state_history e)
    (clock_reads e) (urandom_reads e) (warnings e ++ [w]).

(** ** The monad of the methods: state and exceptions *)

Definition M (A : Type) : Type := Engine → Engine * Result A.

#[global] Instance M_ret : MRet M := λ A x e, (e, inr x).

#[global] Instance M_bind : MBind M := λ A B f m e,
  match m e with
  | (e', inl x) => (e', inl x)
  | (e', inr a) => f a e'
  end.

Definition raise {A} (x : Exn) : M A := λ e, (e, inl x).
Definition get : M Engine := λ e, (e, inr e).
Definition gets {A} (f : Engine → A) : M A := λ e, (e, inr (f e)).
Definition modify (f : Engine → Engine) : M unit := λ e, (f e, inr tt).

(** A result computed without the backend. *)
Definition lift {A} (r : Result A) : M A := λ e, (e, r).

(** A dictionary lookup [d[k]] that raises [KeyError]. *)
Definition lookup_or_KeyError {A} (name : string) (o : option A) : M A :=
  match o with
  | Some a => mret a
  | None => raise (KeyError name)
  end.

Definition run {A} (m : M A) (e : Engine) : Engine * Result A := m e.

(** The state of the backend an operation leaves. *)
Definition after {A} (m : M A) (e : Engine) : Engine := (m e).1.

(** Python's [l[:k]] *)
Definition slice_to {A} (l : list A) (k : Z) : list A :=
  if 0 <=? k then take (Z.to_nat k) l
  else take (length l - Z.to_nat (- k))%nat l.

(** [b.rjust(n, zero byte)] *)
Definition rjust (n : nat) (b : Bytes) : Bytes :=
  replicate (n - length b)%nat x00 ++ b.

(** The key a Python value is in a dictionary keyed by block numbers: an
    integer is its own key, a boolean hashes and compares as 0 or 1, anything
    else is not a key of it. *)
Definition history_key (v : PyVal) : option Z :=
  match v with
  | PyInt n => Some n
  | PyBool b => Some (if b then 1 else 0)
  | _ => None
  end.

Section Backend.

Variable fork : ForkLoad.
Variable sup : Support.
Variable host : Host.

(** *** Store of [State] objects *)

Definition read_state (l : loc) : M State :=
  gets (λ e, default empty_State (store e !! l)).

Definition write_state (l : loc) (s : State) : M unit :=
  modify (set_store <[l := s]>).

Definition alloc (s : State) : M loc := λ e,
  let l := fresh (dom (store e)) in
  (set_store <[l := s]> e, inr l).

(** The content of [self.chain.state]. *)
Definition chain_state : M State :=
  l ← gets (λ e, state (chain e)); read_state l.

(** [self.chain.latest_block], that is [self.blocks[-1]] *)
Definition latest_block : M Block :=
  bs ← gets (λ e, blocks (chain e));
  match list.last bs with
  | Some b => mret b
  | None => raise IndexError
  end.

(** [int(time.time())] *)
Definition int_time_time : M Z := λ e,
  (set_clock_reads (S (clock_reads e)) e, inr (time_time host (clock_reads e))).

(** [os.urandom(32)] *)
Definition urandom32 : M Bytes := λ e,
  (set_urandom_reads (S (urandom_reads e)) e, inr (os_urandom host (urandom_reads e))).

(** The pending block, which is [None] before the first one is built. *)
Definition pending_block : M PendingBlock :=
  p ← gets _pending_block;
  match p with
  | Some pb => mret pb
  | None => raise (TypeError "'NoneType' object is not subscriptable")
  end.

(** *** [time_travel] *)
Definition time_travel (to_timestamp : Z) : M unit :=
  pb ← pending_block;
  let h := pb_header pb in
  modify (set_pending_block (Some
    (mkPendingBlock
       (mkPendingHeader (ph_number h) (ph_coinbase h) (ph_difficulty h)
          (ph_gas_limit h) (Some to_timestamp) (ph_extra_data h)
          (ph_prev_randao h) (ph_nonce h) (ph_parent_hash h)
          (ph_base_fee_per_gas h) (ph_parent_beacon_block_root h)
          (ph_excess_blob_gas h) (ph_bloom h) (ph_gas_used h)
          (ph_state_root h) (ph_receipt_root h) (ph_transactions_root h)
          (ph_withdrawals_root h) (ph_blob_gas_used h) (ph_ommers_hash h))
       (pb_transactions pb) (pb_ommers pb) (pb_withdrawals pb)))).

(** *** [_generate_state_snapshot]: a new [State] object with copies of
    the tries of [self.chain.state] *)
Definition _generate_state_snapshot : M loc :=
  s ← chain_state;
  alloc {| _main_trie := _main_trie s;
           _storage_tries := _storage_tries s;
           _tx_snapshots := [] |}.

(** *** [_get_state_for_block_number] *)
Definition _get_state_for_block_number (block_number : PyVal) : M loc :=
  if bool_decide (block_number ∈ [PyStr "latest"; PyStr "safe"; PyStr "finalized"])
  then
    b ← latest_block;
    h ← gets _state_history;
    lookup_or_KeyError "block number" (h !! number (header b))
  else if bool_decide (block_number = PyStr "pending")
  then _generate_state_snapshot
  else
    let block_number :=
      if bool_decide (block_number = PyStr "earliest") then PyInt 0
      else block_number in
    h ← gets _state_history;
    match history_key block_number ≫= (h !!.) with
    | Some l => mret l
    | None =>
        raise (ValidationError
          ("No state snapshot found for block number: "
             +:+ py_str sup block_number +:+ "."))
    end.

(** *** Snapshot API *)

Definition take_snapshot : M Z :=
  b ← latest_block; mret (number (header b)).

Definition revert_to_snapshot (block_number : PyVal) : M unit :=
  h ← gets _state_history;
  match history_key block_number, history_key block_number ≫= (h !!.) with
  | Some n, Some l =>
      modify (set_chain (λ c, mkBlockChain (blocks c) l (chain_id c)));;
      (* remove all blocks after the snapshot block *)
      modify (set_chain (λ c,
        mkBlockChain (slice_to (blocks c) (n + 1)) (state c) (chain_id c)))
  | _, _ =>
      raise (ValidationError
        ("No snapshot found for block number: "
           +:+ py_str sup block_number +:+ "."))
  end.

(** *** Account state *)

Definition get_nonce (account : Address) (block_number : PyVal) : M Z :=
  s ← chain_state; mret (nonce (get_account s account)).

Definition get_balance (account : Address) (block_number : PyVal) : M Z :=
  s ← chain_state; mret (balance (get_account s account)).

Definition get_code (account : Address) (block_number : PyVal) : M Bytes :=
  s ← chain_state; mret (code (get_account s account)).

(** The slot is an integer or bytes. *)
Definition get_storage (account : Address) (slot : Z + Bytes)
    (block_number : PyVal) : M Bytes :=
  let slot := match slot with
              | inl i => int_to_big_endian sup i
              | inr b => b
              end in
  (* left pad with zero bytes to 32 bytes *)
  let slot := rjust 32 slot in
  s ← chain_state; mret (state_get_storage s account slot).

Definition get_base_fee : M Z :=
  pb ← pending_block; mret (ph_base_fee_per_gas (pb_header pb)).

(** [get_accounts]: the keys of the main trie of the live state *)
Definition get_accounts : M (list Address) :=
  s ← chain_state; mret (elements (dom (_main_trie s))).

Definition _max_available_gas : M Z :=
  b ← latest_block;
  lift (Uint_sub (gas_limit (header b)) (gas_used (header b))).

(** *** Genesis *)

Definition GENESIS_BLOCK_NUMBER : Z := 0.
Definition GENESIS_DIFFICULTY : Z := 131072.
Definition GENESIS_GAS_LIMIT : Z := 30029122.
(** 42 encoded as a big-endian integer on eight bytes *)
Definition GENESIS_NONCE : Bytes := zero_bytes 7 ++ [Corelib.Init.Byte.x2a].
Definition GENESIS_LOGS_BLOOM : Bytes := zero_bytes 256.

(** [overrides or d] *)
Definition overrides_or (overrides : option AccountOverrides)
    (d : AccountOverrides) : AccountOverrides :=
  match overrides with
  | Some o => if overrides_truthy o then o else d
  | None => d
  end.

Definition _get_default_account_state (overrides : option AccountOverrides)
    : M Account :=
  lift (merge_genesis_overrides sup
          {| balance := 0; code := []; nonce := 0 |}
          (overrides_or overrides no_overrides)).

(** The dictionary built from the pairs the generator yields: a later pair
    replaces an earlier one with the same address. *)
Fixpoint _generate_genesis_state_for_keys_from (account_keys : list PrivateKey)
    (overrides : option AccountOverrides) (acc : gmap Address Account)
    : M (gmap Address Account) :=
  match account_keys with
  | [] => mret acc
  | private_key :: rest =>
      account_state ← _get_default_account_state
        (Some (overrides_or overrides
                 {| ov_balance := Some (10 ^ 18); ov_code := None; ov_nonce := None |}));
      _generate_genesis_state_for_keys_from rest overrides
        (<[canonical_address private_key := account_state]> acc)
  end.

Definition _generate_genesis_state_for_keys (account_keys : list PrivateKey)
    (overrides : option AccountOverrides) : M (gmap Address Account) :=
  _generate_genesis_state_for_keys_from account_keys overrides ∅.

Definition _generate_genesis_state (overrides : option AccountOverrides)
    (num_accounts : option Z) (mnemonic : option string)
    (hd_path : option string) : M (gmap Address Account) :=
  let account_keys :=
    match mnemonic with
    | Some m =>
        if bool_decide (m = EmptyString)
        then get_default_account_keys sup num_accounts
        else get_account_keys_from_mnemonic sup m num_accounts hd_path
    | None => get_default_account_keys sup num_accounts
    end in
  modify (λ e, set_account_keys (_account_keys e ++ account_keys) e);;
  _generate_genesis_state_for_keys account_keys overrides.

Definition _generate_genesis_block : M Block :=
  now ← int_time_time;
  ts ← lift (U256 now);
  mret {| header :=
            {| parent_hash := ZERO_HASH32;
               ommers_hash := ZERO_HASH32;
               coinbase := ZERO_ADDRESS;
               state_root := ZERO_HASH32;
               transactions_root := ZERO_HASH32;
               receipt_root := ZERO_HASH32;
               bloom := GENESIS_LOGS_BLOOM;
               difficulty := GENESIS_DIFFICULTY;
               number := 0;
               gas_limit := GENESIS_GAS_LIMIT;
               gas_used := 0;
               timestamp := ts;
               extra_data := ZERO_HASH32;
               prev_randao := ZERO_HASH32;
               header_nonce := GENESIS_NONCE;
               base_fee_per_gas := 1000000000;
               withdrawals_root := ZERO_HASH32;
               blob_gas_used := 0;
               excess_blob_gas := 0;
               parent_beacon_block_root := ZERO_HASH32 |};
          transactions := [];
          ommers := [];
          withdrawals := [] |}.

(** [v or os.urandom(32)] *)
Definition or_urandom (v : option Bytes) : M Bytes :=
  match v with
  | Some (b :: bs) => mret (b :: bs)
  | _ => urandom32
  end.

Definition _build_new_pending_block
    (coinbase_ : Address) (difficulty_ : Z) (gas_limit_ : option Z)
    (extra_data_ : Bytes) (prev_randao_ : option Bytes) (nonce_ : Bytes)
    (parent_beacon_block_root_ : option Bytes) (timestamp_ : option Z)
    : M unit :=
  difficulty_ ← lift (Uint difficulty_);
  p ← gets _pending_block;
  match p with
  | Some pb =>
      b ← latest_block;
      if bool_decide (number (header b) ≠ ph_number (pb_header pb))
      then raise (ValidationError
        "Cannot build a new pending block until the current pending block has been included in the chain.")
      else mret tt
  | None => mret tt
  end;;
  gas_limit_ ← match gas_limit_ with
               | Some g => mret g
               | None => b ← latest_block; mret (gas_limit (header b))
               end;
  parent ← latest_block;
  base_fee ← lift (calculate_base_fee_per_gas fork gas_limit_
                     (gas_limit (header parent))
                     (gas_used (header parent))
                     (base_fee_per_gas (header parent)));
  let block_number := number (header parent) + 1 in
  prev_randao_ ← or_urandom prev_randao_;
  parent_beacon_block_root_ ← or_urandom parent_beacon_block_root_;
  modify (set_pending_block (Some
    {| pb_header :=
         {| ph_number := block_number;
            ph_coinbase := coinbase_;
            ph_difficulty := difficulty_;
            ph_gas_limit := gas_limit_;
            ph_timestamp := timestamp_;
            ph_extra_data := extra_data_;
            (* the randao is probably fine for now *)
            ph_prev_randao := prev_randao_;
            ph_nonce := nonce_;
            ph_parent_hash := compute_header_hash fork (header parent);
            ph_base_fee_per_gas := base_fee;
            ph_parent_beacon_block_root := parent_beacon_block_root_;
            ph_excess_blob_gas := calculate_excess_blob_gas fork (header parent);
            ph_bloom := None; ph_gas_used := None; ph_state_root := None;
            ph_receipt_root := None; ph_transactions_root := None;
            ph_withdrawals_root := None; ph_blob_gas_used := None;
            ph_ommers_hash := None |};
       pb_transactions := [];
       pb_ommers := [];
       pb_withdrawals := [] |})).

(** [self._build_new_pending_block()], every argument at its default *)
Definition _build_new_pending_block_default : M unit :=
  _build_new_pending_block ZERO_ADDRESS 0 None ZERO_HASH32 None
    (zero_bytes 8) None None.

Definition reset_to_genesis
    (genesis_params : option (gmap string PyVal))
    (genesis_state : option (gmap Address Account))
    (num_accounts : option Z) (mnemonic : option string)
    (hd_path : option string) : M unit :=
  match genesis_params with
  | Some _ => raise (NotImplementedError
      "Custom genesis params are not yet supported for `EELSBackend`.")
  | None => mret tt
  end;;
  genesis_state ← match genesis_state with
                  | Some g => mret g
                  | None => _generate_genesis_state None num_accounts mnemonic hd_path
                  end;
  genesis_state ←
    (if is_after_fork fork "ethereum.cancun"
     then
       a ← _get_default_account_state
         (Some {| ov_balance := None;
                  ov_code := Some (BEACON_ROOTS_CONTRACT_CODE sup);
                  ov_nonce := None |});
       mret (<[BEACON_ROOTS_CONTRACT_ADDRESS sup := a]> genesis_state)
     else mret genesis_state);
  let eels_state :=
    map_fold (λ address account s, set_account s address account)
      empty_State genesis_state in
  l ← alloc eels_state;
  modify (set_transactions_map ∅);;
  modify (set_receipts_map ∅);;
  genesis_block ← _generate_genesis_block;
  chain_id_ ← lift (U64 1);
  modify (set_chain (λ _, mkBlockChain [genesis_block] l chain_id_));;
  snapshot ← _generate_state_snapshot;
  modify (set_state_history <[GENESIS_BLOCK_NUMBER := snapshot]>);;
  _build_new_pending_block_default;;
  modify (set_snapshots ∅).

(** *** Transactions: checking and the execution environment *)

Definition _check_transaction (tx : Transaction) (gas_available : option Z)
    : M CheckReturn :=
  gas_available ← match gas_available with
                  | Some g => mret g
                  | None =>
                      (* TODO: stop lazily using the latest block gas limit *)
                      b ← latest_block; mret (gas_limit (header b))
                  end;
  if is_after_fork fork "ethereum.cancun"
  then
    s ← chain_state;
    cid ← gets (λ e, chain_id (chain e));
    pb ← pending_block;
    b ← latest_block;
    lift (check_transaction fork
            (CheckCancun s tx gas_available cid
               (ph_base_fee_per_gas (pb_header pb))
               (calculate_excess_blob_gas fork (header b))))
  else
    base_fee ← (if is_after_fork fork "ethereum.london"
                then pb ← pending_block;
                     mret (Some (ph_base_fee_per_gas (pb_header pb)))
                else mret None);
    cid ← (if is_after_fork fork "ethereum.spurious_dragon"
           then c ← gets (λ e, chain_id (chain e)); mret (Some c)
           else mret None);
    lift (check_transaction fork (CheckArguments tx base_fee gas_available cid)).

(** The header dictionary [synthetic_tx_environment] reads: the one of the
    pending block, or the one it builds from a mined header.  The former
    has the key [timestamp] (with whatever value it holds), the latter the
    key [time]. *)
Record HeaderDict := mkHeaderDict {
  hd_coinbase : Address;
  hd_number : Z;
  hd_gas_limit : Z;
  hd_gas_used : option Z;
  hd_timestamp : option (option Z);
  hd_time : option Z;
  hd_prev_randao : Bytes;
  hd_difficulty : Z;
  hd_base_fee_per_gas : Z;
  hd_excess_blob_gas : Z;
}.

Definition pending_header_dict (h : PendingHeader) : HeaderDict :=
  {| hd_coinbase := ph_coinbase h;
     hd_number := ph_number h;
     hd_gas_limit := ph_gas_limit h;
     hd_gas_used := ph_gas_used h;
     hd_timestamp := Some (ph_timestamp h);
     hd_time := None;
     hd_prev_randao := ph_prev_randao h;
     hd_difficulty := ph_difficulty h;
     hd_base_fee_per_gas := ph_base_fee_per_gas h;
     hd_excess_blob_gas := ph_excess_blob_gas h |}.

Definition mined_header_dict (block_header : Header) : HeaderDict :=
  {| hd_coinbase := coinbase block_header;
     hd_number := number block_header;
     hd_gas_limit := gas_limit block_header;
     hd_gas_used := Some (gas_used block_header);
     hd_timestamp := None;
     hd_time := Some (timestamp block_header);
     hd_prev_randao := prev_randao block_header;
     hd_difficulty := difficulty block_header;
     hd_base_fee_per_gas := base_fee_per_gas block_header;
     hd_excess_blob_gas := excess_blob_gas block_header |}.

(** [block_number or n] *)
Definition int_or (block_number : option Z) (n : Z) : Z :=
  match block_number with
  | Some k => if k =? 0 then n else k
  | None => n
  end.

Definition synthetic_tx_environment (tx : Transaction) (state_ : option loc)
    (block_number : option Z) : M Environment :=
  head ← latest_block;
  '(chain_, state_, block_header, gas_available) ←
    (if bool_decide (block_number = None ∨ block_number = Some (number (header head)))
     then
       chain_ ← gets chain;
       (if bool_decide (block_number = None ∧ state_ = None)
        then raise (ValidationError
          "Must specify either `state` or `block_number` for the transaction.")
        else mret tt);;
       state_ ← match state_ with
                | Some l => mret l
                | None => _generate_state_snapshot
                end;
       pb ← pending_block;
       gas_available ← _max_available_gas;
       mret (chain_, state_, pending_header_dict (pb_header pb), gas_available)
     else
       match state_ with
       | Some _ => raise (ValidationError
           "Cannot provide both `state` and `block_number`.")
       | None => mret tt
       end;;
       let bn := default 0 block_number in
       state_ ← _get_state_for_block_number (PyInt bn);
       c ← gets chain;
       let chain_ := mkBlockChain (slice_to (blocks c) (bn + 1)) state_ (chain_id c) in
       mined ← match list.last (blocks chain_) with
               | Some b => mret (header b)
               | None => raise IndexError
               end;
       let block_header := mined_header_dict mined in
       gas_available ← lift (Uint_sub (gas_limit mined) (gas_used mined));
       mret (chain_, state_, block_header, gas_available));
  head ← latest_block;
  now ← int_time_time;
  let kw_block_hashes := get_last_256_block_hashes fork chain_ in
  let kw_number := int_or block_number (number (header head)) in
  let kw_time := match hd_timestamp block_header with
                 | Some v => v
                 | None => Some now
                 end in
  let kw_prev_randao :=
    if is_after_fork fork "ethereum.paris"
    then Some (hd_prev_randao block_header) else None in
  let kw_difficulty :=
    if is_after_fork fork "ethereum.paris"
    then None else Some (hd_difficulty block_header) in
  let kw_chain_id :=
    if is_after_fork fork "ethereum.istanbul"
    then Some (chain_id chain_) else None in
  check_tx_return ← _check_transaction tx (Some gas_available);
  if is_after_fork fork "ethereum.cancun"
  then
    match check_tx_return with
    | CheckedBlob sender_address effective_gas_price blob_versioned_hashes =>
        mret {| env_caller := sender_address;
                env_origin := sender_address;
                env_block_hashes := kw_block_hashes;
                env_coinbase := hd_coinbase block_header;
                env_number := kw_number;
                env_gas_limit := hd_gas_limit block_header;
                env_time := kw_time;
                env_state := state_;
                env_prev_randao := kw_prev_randao;
                env_difficulty := kw_difficulty;
                env_chain_id := kw_chain_id;
                env_base_fee_per_gas := Some (hd_base_fee_per_gas block_header);
                env_gas_price := effective_gas_price;
                env_blob_versioned_hashes := Some blob_versioned_hashes;
                env_excess_blob_gas := Some (hd_excess_blob_gas block_header);
                env_transient_storage := Some ∅ |}
    | _ => raise (ValueError "cannot unpack the result of check_transaction")
    end
  else if is_after_fork fork "ethereum.london"
  then
    match check_tx_return with
    | CheckedFee sender_address effective_gas_price =>
        mret {| env_caller := sender_address;
                env_origin := sender_address;
                env_block_hashes := kw_block_hashes;
                env_coinbase := hd_coinbase block_header;
                env_number := kw_number;
                env_gas_limit := hd_gas_limit block_header;
                env_time := kw_time;
                env_state := state_;
                env_prev_randao := kw_prev_randao;
                env_difficulty := kw_difficulty;
                env_chain_id := kw_chain_id;
                env_base_fee_per_gas := Some (hd_base_fee_per_gas block_header);
                env_gas_price := effective_gas_price;
                env_blob_versioned_hashes := None;
                env_excess_blob_gas := None;
                env_transient_storage := None |}
    | _ => raise (ValueError "cannot unpack the result of check_transaction")
    end
  else
    match check_tx_return, tx with
    | CheckedSender sender_address, Decoded t =>
        mret {| env_caller := sender_address;
                env_origin := sender_address;
                env_block_hashes := kw_block_hashes;
                env_coinbase := hd_coinbase block_header;
                env_number := kw_number;
                env_gas_limit := hd_gas_limit block_header;
                env_time := kw_time;
                env_state := state_;
                env_prev_randao := kw_prev_randao;
                env_difficulty := kw_difficulty;
                env_chain_id := kw_chain_id;
                env_base_fee_per_gas := None;
                env_gas_price := tx_gas_price t;
                env_blob_versioned_hashes := None;
                env_excess_blob_gas := None;
                env_transient_storage := None |}
    | CheckedSender _, Encoded _ =>
        raise (AttributeError "'bytes' object has no attribute 'gas_price'")
    | _, _ => raise (TypeError "the sender returned by check_transaction is not an address")
    end.

(** *** Hashes of transactions *)

Definition _get_tx_hash (tx : Transaction) : Hash32 :=
  if is_after_fork fork "ethereum.berlin"
     && negb (isinstance tx LegacyTransaction)
  then keccak256 fork (encode_transaction fork tx)
  else keccak256 fork (rlp_encode_tx fork tx).

(** *** Applying the body of the pending block on a scratch state *)

(** The first address of the post-state that the pre-state does not have
    and that holds code.  The dictionary is walked in the order of the
    map here, not in insertion order. *)
Definition _extract_contract_address (pre_state post_state : State)
    : option Address :=
  list.head
    (filter (λ address,
               _main_trie pre_state !! address = None
               ∧ code (get_account post_state address) ≠ [])
            (elements (dom (_main_trie post_state)))).

(** What the loop over the buffered transactions accumulates. *)
Record BodyAcc := mkBodyAcc {
  gas_available : Z;
  transactions_trie : Trie;
  receipts_trie : Trie;
  receipts_map : gmap Hash32 ReceiptRecord;
  block_logs : list Log;
  blob_gas_used_acc : Z;
}.

(** The [try] block of the loop.  The blob gas counter is a local
    variable: what has been added to it stays added when the block raises
    afterwards. *)
Definition try_transaction (state_copy : loc) (tx : Transaction) (acc : BodyAcc)
    : M (Z * Result (TxOutput * option Address)) := λ e,
  match
    (env ← synthetic_tx_environment tx (Some state_copy) None;
     pre ← _generate_state_snapshot;
     pre_state ← read_state pre;
     s ← read_state (env_state env);
     let '(s', r) := process_transaction fork env s tx in
     write_state (env_state env) s';;
     process_transaction_return ← lift r;
     post_state ← read_state (env_state env);
     mret (process_transaction_return,
           _extract_contract_address pre_state post_state)) e
  with
  | (e', inl x) => (e', inr (blob_gas_used_acc acc, inl x))
  | (e', inr v) =>
      if is_after_fork fork "ethereum.cancun"
      then
        let b := blob_gas_used_acc acc + calculate_total_blob_gas fork tx in
        if MAX_BLOB_GAS_PER_BLOCK fork <? b
        then (e', inr (b, inl (ValidationError
                "Blob gas used exceeds the maximum allowed gas per block")))
        else (e', inr (b, inr v))
      else (e', inr (blob_gas_used_acc acc, inr v))
  end.

(** One round of the loop: the [try] block, then [except] or [else]. *)
Definition apply_transaction (state_copy : loc) (block_gas_limit : Z)
    (i : Z) (tx : Transaction) (acc : BodyAcc) : M BodyAcc :=
  '(blob, r) ← try_transaction state_copy tx acc;
  match r with
  | inl x =>
      if recoverable x
      then
        modify (add_warning (rlp_hash_tx fork tx, x));;
        mret (mkBodyAcc (gas_available acc) (transactions_trie acc)
                (receipts_trie acc) (receipts_map acc) (block_logs acc) blob)
      else raise x
  | inr (process_transaction_return, contract_address) =>
      let '(gas_consumed, logs, error) := process_transaction_return in
      gas_available' ← lift (Uint_sub (gas_available acc) gas_consumed);
      let transactions_trie' :=
        trie_set (transactions_trie acc) (rlp_encode_uint fork i)
          (encode_transaction fork tx) in
      cumulative ← lift (Uint_sub block_gas_limit gas_available');
      let receipts_map' :=
        <[_get_tx_hash tx :=
            serialize_pending_receipt sup tx process_transaction_return i
              cumulative contract_address]> (receipts_map acc) in
      let receipt := make_receipt fork tx error cumulative logs in
      let receipts_trie' :=
        trie_set (receipts_trie acc) (rlp_encode_uint fork i) receipt in
      s ← read_state state_copy;
      write_state state_copy
        {| _main_trie := _main_trie s;
           _storage_tries := _storage_tries s;
           _tx_snapshots := [] |};;
      mret (mkBodyAcc gas_available' transactions_trie' receipts_trie'
              receipts_map' (block_logs acc ++ logs) blob)
  end.

(** [for i, tx in enumerate(...)], from index [i] on *)
Fixpoint apply_transactions (state_copy : loc) (block_gas_limit : Z)
    (i : Z) (txs : list Transaction) (acc : BodyAcc) : M BodyAcc :=
  match txs with
  | [] => mret acc
  | tx :: rest =>
      acc' ← apply_transaction state_copy block_gas_limit i tx acc;
      apply_transactions state_copy block_gas_limit (i + 1) rest acc'
  end.

(** The loop over the withdrawals, on the content of the scratch state. *)
Fixpoint apply_withdrawals_from (i : Z) (wds : list Withdrawal)
    (t : Trie) (s : State) : Trie * State :=
  match wds with
  | [] => (t, s)
  | wd :: rest =>
      let t := trie_set t (rlp_encode_uint fork i) (rlp_encode_withdrawal fork wd) in
      let s := process_withdrawal fork s wd in
      let s := if account_exists_and_is_empty fork s (wd_address wd)
               then destroy_account fork s (wd_address wd) else s in
      apply_withdrawals_from (i + 1) rest t s
  end.

(** The dictionary [_internal_apply_body_validation] returns; the keys
    that depend on the fork are optional. *)
Record ApplyBodyOutput := mkApplyBodyOutput {
  out_receipts_map : gmap Hash32 ReceiptRecord;
  out_block_gas_used : Z;
  out_block_logs_bloom : Bytes;
  out_withdrawals_root : option Hash32;
  out_blob_gas_used : option Z;
  out_excess_blob_gas : option Z;
  out_state_root : Hash32;
  out_tx_root : Hash32;
  out_receipt_root : Hash32;
  out_ommers_hash : Hash32;
}.

Definition empty_acc (block_gas_limit : Z) : BodyAcc :=
  mkBodyAcc block_gas_limit ∅ ∅ ∅ [] 0.

(** The part of [_internal_apply_body_validation] up to the end of the loop
    over the transactions: the scratch state and what the loop has
    accumulated. *)
Definition apply_body_transactions : M (loc * BodyAcc) :=
  pb ← pending_block;
  let pending_block_header := pb_header pb in
  let block_gas_limit := ph_gas_limit pending_block_header in
  state_copy ← _generate_state_snapshot;
  live ← chain_state;
  copied ← read_state state_copy;
  (if bool_decide (fork_state_root fork live = fork_state_root fork copied)
   then mret tt
   else raise (ValidationError
     "Copied state root does not match the expected state root."));;
  (if is_after_fork fork "ethereum.cancun"
   then
     s ← read_state state_copy;
     let beacon := BEACON_ROOTS_CONTRACT_ADDRESS sup in
     let system_tx_message :=
       {| msg_caller := SYSTEM_ADDRESS fork;
          msg_target := PyBytes beacon;
          msg_gas := SYSTEM_TRANSACTION_GAS fork;
          msg_value := 0;
          msg_data := ph_parent_beacon_block_root pending_block_header;
          msg_code := code (get_account s beacon);
          msg_depth := 0;
          msg_current_target := PyBytes beacon;
          msg_code_address := PyBytes beacon;
          msg_should_transfer_value := false;
          msg_is_static := false;
          msg_accessed_addresses := [];
          msg_accessed_storage_keys := [] |} in
     c ← gets chain;
     let system_tx_env :=
       {| env_caller := SYSTEM_ADDRESS fork;
          env_origin := SYSTEM_ADDRESS fork;
          env_block_hashes := get_last_256_block_hashes fork c;
          env_coinbase := ph_coinbase pending_block_header;
          env_number := ph_number pending_block_header;
          env_gas_limit := block_gas_limit;
          env_time := ph_timestamp pending_block_header;
          env_state := state_copy;
          env_prev_randao := Some (ph_prev_randao pending_block_header);
          env_difficulty := None;
          env_chain_id := Some (chain_id c);
          env_base_fee_per_gas := Some (ph_base_fee_per_gas pending_block_header);
          env_gas_price := 0;
          env_blob_versioned_hashes := Some [];
          env_excess_blob_gas := Some (ph_excess_blob_gas pending_block_header);
          env_transient_storage := Some ∅ |} in
     let '(s', r) := process_message_call fork system_tx_message system_tx_env s in
     write_state state_copy s';;
     touched_accounts ← lift r;
     s ← read_state state_copy;
     write_state state_copy (destroy_touched_empty_accounts fork s touched_accounts)
   else mret tt);;
  acc ← apply_transactions state_copy block_gas_limit 0 (pb_transactions pb)
          (empty_acc block_gas_limit);
  mret (state_copy, acc).

Definition _internal_apply_body_validation : M ApplyBodyOutput :=
  pb ← pending_block;
  let pending_block_header := pb_header pb in
  let block_gas_limit := ph_gas_limit pending_block_header in
  '(state_copy, acc) ← apply_body_transactions;
  (if negb (is_after_fork fork "ethereum.paris")
      && bool_decide (is_Some (BLOCK_REWARD fork))
   then
     s ← read_state state_copy;
     write_state state_copy
       (pay_rewards fork s (ph_number pending_block_header)
          (ph_coinbase pending_block_header) (pb_ommers pb))
   else mret tt);;
  block_gas_used ← lift (Uint_sub block_gas_limit (gas_available acc));
  let block_logs_bloom := logs_bloom fork (block_logs acc) in
  withdrawals_root_ ←
    (if is_after_fork fork "ethereum.shanghai"
     then
       s ← read_state state_copy;
       let '(withdrawals_trie, s') :=
         apply_withdrawals_from 0 (pb_withdrawals pb) ∅ s in
       write_state state_copy s';;
       mret (Some (root fork withdrawals_trie))
     else mret None);
  b ← (if is_after_fork fork "ethereum.cancun"
       then b ← latest_block; mret (Some b) else mret None);
  s ← read_state state_copy;
  mret {| out_receipts_map := receipts_map acc;
          out_block_gas_used := block_gas_used;
          out_block_logs_bloom := block_logs_bloom;
          out_withdrawals_root := withdrawals_root_;
          out_blob_gas_used :=
            if is_after_fork fork "ethereum.cancun"
            then Some (blob_gas_used_acc acc) else None;
          out_excess_blob_gas :=
            (λ b, calculate_excess_blob_gas fork (header b)) <$> b;
          out_state_root := fork_state_root fork s;
          out_tx_root := root fork (transactions_trie acc);
          out_receipt_root := root fork (receipts_trie acc);
          out_ommers_hash := rlp_hash_ommers fork (pb_ommers pb) |}.

(** *** Mining *)

(** [block_header["timestamp"] = ts] on a header dictionary *)
Definition with_timestamp (ts : Z) (h : PendingHeader) : PendingHeader :=
  mkPendingHeader (ph_number h) (ph_coinbase h) (ph_difficulty h)
    (ph_gas_limit h) (Some ts) (ph_extra_data h) (ph_prev_randao h)
    (ph_nonce h) (ph_parent_hash h) (ph_base_fee_per_gas h)
    (ph_parent_beacon_block_root h) (ph_excess_blob_gas h) (ph_bloom h)
    (ph_gas_used h) (ph_state_root h) (ph_receipt_root h)
    (ph_transactions_root h) (ph_withdrawals_root h) (ph_blob_gas_used h)
    (ph_ommers_hash h).

(** The first five assignments of the result of the body validation. *)
Definition with_roots (out : ApplyBodyOutput) (h : PendingHeader) : PendingHeader :=
  mkPendingHeader (ph_number h) (ph_coinbase h) (ph_difficulty h)
    (ph_gas_limit h) (ph_timestamp h) (ph_extra_data h) (ph_prev_randao h)
    (ph_nonce h) (ph_parent_hash h) (ph_base_fee_per_gas h)
    (ph_parent_beacon_block_root h) (ph_excess_blob_gas h)
    (Some (out_block_logs_bloom out)) (Some (out_block_gas_used out))
    (Some (out_state_root out)) (Some (out_receipt_root out))
    (Some (out_tx_root out)) (ph_withdrawals_root h) (ph_blob_gas_used h)
    (ph_ommers_hash h).

(** The four assignments that follow. *)
Definition with_fork_fields (wr : Hash32) (bg eg : Z) (oh : Hash32)
    (h : PendingHeader) : PendingHeader :=
  mkPendingHeader (ph_number h) (ph_coinbase h) (ph_difficulty h)
    (ph_gas_limit h) (ph_timestamp h) (ph_extra_data h) (ph_prev_randao h)
    (ph_nonce h) (ph_parent_hash h) (ph_base_fee_per_gas h)
    (ph_parent_beacon_block_root h) eg (ph_bloom h) (ph_gas_used h)
    (ph_state_root h) (ph_receipt_root h) (ph_transactions_root h)
    (Some wr) (Some bg) (Some oh).

(** The pending block is one dictionary that the method updates in
    place. *)
Definition update_pending_header (f : PendingHeader → PendingHeader) : M unit :=
  pb ← pending_block;
  modify (set_pending_block (Some
    (mkPendingBlock (f (pb_header pb)) (pb_transactions pb) (pb_ommers pb)
       (pb_withdrawals pb)))).

(** The timestamp a block gets when none was set by [time_travel]. *)
Definition mined_timestamp (parent_timestamp current_time : Z) : Z :=
  if parent_timestamp >=? current_time
  then parent_timestamp + 1
  else current_time.

(** The [Header] built from the keys of the dictionary: every key has to
    be there. *)
Definition Header_of_dict (h : PendingHeader) : M Header :=
  ts ← lookup_or_KeyError "timestamp" (ph_timestamp h);
  bl ← lookup_or_KeyError "bloom" (ph_bloom h);
  gu ← lookup_or_KeyError "gas_used" (ph_gas_used h);
  sr ← lookup_or_KeyError "state_root" (ph_state_root h);
  rr ← lookup_or_KeyError "receipt_root" (ph_receipt_root h);
  tr ← lookup_or_KeyError "transactions_root" (ph_transactions_root h);
  wr ← lookup_or_KeyError "withdrawals_root" (ph_withdrawals_root h);
  bg ← lookup_or_KeyError "blob_gas_used" (ph_blob_gas_used h);
  oh ← lookup_or_KeyError "ommers_hash" (ph_ommers_hash h);
  mret {| parent_hash := ph_parent_hash h;
          ommers_hash := oh;
          coinbase := ph_coinbase h;
          state_root := sr;
          transactions_root := tr;
          receipt_root := rr;
          bloom := bl;
          difficulty := ph_difficulty h;
          number := ph_number h;
          gas_limit := ph_gas_limit h;
          gas_used := gu;
          timestamp := ts;
          extra_data := ph_extra_data h;
          prev_randao := ph_prev_randao h;
          header_nonce := ph_nonce h;
          base_fee_per_gas := ph_base_fee_per_gas h;
          withdrawals_root := wr;
          blob_gas_used := bg;
          excess_blob_gas := ph_excess_blob_gas h;
          parent_beacon_block_root := ph_parent_beacon_block_root h |}.

Definition mined_log (blocknum : Z) (block_hash tx_hash : Hash32) (i : Z)
    (log : LogRecord) : LogRecord :=
  {| lr_block_number := Some blocknum;
     lr_block_hash := Some block_hash;
     lr_transaction_index := Some i;
     lr_transaction_hash := Some tx_hash;
     lr_type := "mined";
     lr_fields := lr_fields log |}.

(** The loop that updates the saved transactions and receipts after
    mining, from index [i] on. *)
Fixpoint update_mined_records (blocknum : Z) (block_hash state_root_ : Hash32)
    (apply_body_output : ApplyBodyOutput) (i : Z) (txs : list Transaction) : M unit :=
  match txs with
  | [] => mret tt
  | tx :: rest =>
      let tx_hash := _get_tx_hash tx in
      tm ← gets _transactions_map;
      updated_tx ← lookup_or_KeyError "tx_hash" (tm !! tx_hash);
      modify (λ e, set_transactions_map
        (<[tx_hash := {| tr_block_number := Some blocknum;
                         tr_block_hash := Some block_hash;
                         tr_transaction_index := Some i;
                         tr_fields := tr_fields updated_tx |}]>
           (_transactions_map e)) e);;
      updated_receipt ← lookup_or_KeyError "tx_hash"
        (out_receipts_map apply_body_output !! tx_hash);
      modify (λ e, set_receipts_map
        (<[tx_hash := {| rr_block_number := Some blocknum;
                         rr_block_hash := Some block_hash;
                         rr_transaction_index := Some i;
                         rr_state_root := Some state_root_;
                         rr_logs := mined_log blocknum block_hash tx_hash i
                                      <$> rr_logs updated_receipt;
                         rr_fields := rr_fields updated_receipt |}]>
           (_receipts_map e)) e);;
      update_mined_records blocknum block_hash state_root_ apply_body_output
        (i + 1) rest
  end.

Definition assert (b : bool) : M unit :=
  if b then mret tt else raise AssertionError.

(** [_mine_pending_block] in three parts.  First, the timestamp. *)
Definition stamp_pending_block (timestamp_ : option Z) : M unit :=
  block ← pending_block;
  match ph_timestamp (pb_header block) with
  | None =>
      (* set the timestamp when mining unless already set by time_travel *)
      parent ← latest_block;
      let parent_timestamp := timestamp (header parent) in
      t ← match timestamp_ with
          | Some t => if t =? 0 then int_time_time else mret t
          | None => int_time_time
          end;
      current_time ← lift (Uint t);
      ts ← lift (U256 (mined_timestamp parent_timestamp current_time));
      update_pending_header (with_timestamp ts)
  | Some _ => mret tt
  end.

(** Second, the body validation, the header and the block built from the
    pending block. *)
Definition assemble_pending_block : M (ApplyBodyOutput * Header * Block) :=
  apply_body_output ← _internal_apply_body_validation;
  update_pending_header (with_roots apply_body_output);;
  wr ← lookup_or_KeyError "withdrawals_root" (out_withdrawals_root apply_body_output);
  bg ← lookup_or_KeyError "blob_gas_used" (out_blob_gas_used apply_body_output);
  eg ← lookup_or_KeyError "excess_blob_gas" (out_excess_blob_gas apply_body_output);
  update_pending_header
    (with_fork_fields wr bg eg (out_ommers_hash apply_body_output));;
  block ← pending_block;
  _eels_block_header ← Header_of_dict (pb_header block);
  let _eels_block :=
    {| header := _eels_block_header;
       transactions := pb_transactions block;
       ommers := pb_ommers block;
       withdrawals := pb_withdrawals block |} in
  mret (apply_body_output, _eels_block_header, _eels_block).

(** Third, the state transition of the library on the live chain, the
    assertions, the saved records and the new snapshot. *)
Definition commit_block (apply_body_output : ApplyBodyOutput)
    (_eels_block_header : Header) (_eels_block : Block) : M PendingBlock :=
  block ← pending_block;
  c ← gets chain;
  s ← read_state (state c);
  let '((blocks', s'), r) :=
    state_transition fork (blocks c) s (chain_id c) _eels_block in
  write_state (state c) s';;
  modify (set_chain (λ c, mkBlockChain blocks' (state c) (chain_id c)));;
  lift r;;
  live ← chain_state;
  assert (bool_decide (fork_state_root fork live = state_root _eels_block_header));;
  latest ← latest_block;
  assert (bool_decide (compute_header_hash fork _eels_block_header
                       = compute_header_hash fork (header latest)));;
  let blocknum := ph_number (pb_header block) in
  update_mined_records blocknum (compute_header_hash fork _eels_block_header)
    (state_root _eels_block_header) apply_body_output 0 (pb_transactions block);;
  snapshot ← _generate_state_snapshot;
  modify (set_state_history <[blocknum := snapshot]>);;
  mret block.

Definition _mine_pending_block (timestamp_ : option Z) : M PendingBlock :=
  stamp_pending_block timestamp_;;
  '(apply_body_output, _eels_block_header, _eels_block) ← assemble_pending_block;
  commit_block apply_body_output _eels_block_header _eels_block.

(** The generator behind [mine_blocks], run to its end by [to_tuple]. *)
Fixpoint mine_blocks_rounds (n : nat) : M (list Hash32) :=
  match n with
  | O => mret []
  | S k =>
      _mine_pending_block None;;
      _build_new_pending_block_default;;
      b ← latest_block;
      let h := compute_header_hash fork (header b) in
      hs ← mine_blocks_rounds k;
      mret (h :: hs)
  end.

(** [range(num_blocks)] is empty for a negative number. *)
Definition mine_blocks (num_blocks : Z) : M (list Hash32) :=
  mine_blocks_rounds (Z.to_nat num_blocks).

(** *** Chain data *)

(** [l[k]], where a negative index counts from the end *)
Definition py_index {A} (l : list A) (k : Z) : M A :=
  let k' := if k <? 0 then k + Z.of_nat (length l) else k in
  if k' <? 0 then raise IndexError
  else match l !! Z.to_nat k' with
       | Some a => mret a
       | None => raise IndexError
       end.

(** The loop of [get_block_by_hash] over the enumerated hashes, from index
    [i] on; [None] when it runs to its end. *)
Fixpoint find_block_by_hash (block_hash : Hash32) (i : Z)
    (hashes : list Hash32) : M (option Block) :=
  match hashes with
  | [] => mret None
  | bh :: rest =>
      if bool_decide (bh = ZERO_HASH32)
      then find_block_by_hash block_hash (i + 1) rest
      else if bool_decide (bh = block_hash)
      then
        bs ← gets (λ e, blocks (chain e));
        block ← py_index bs (i - 1);
        if bool_decide (block_hash ≠ compute_header_hash fork (header block))
        then raise (ValueError "Block hash does not match the expected hash.")
        else mret (Some block)
      else find_block_by_hash block_hash (i + 1) rest
  end.

(** The block found; the method returns its serialization. *)
Definition get_block_by_hash (block_hash : Hash32) (full_transaction : bool)
    : M Block :=
  c ← gets chain;
  r ← find_block_by_hash block_hash 0 (get_last_256_block_hashes fork c);
  match r with
  | Some block => mret block
  | None => raise (BlockNotFound
      ("No block found for block hash: " +:+ bytes_str sup block_hash +:+ "."))
  end.

(** *** Signing *)

(** Python's [hex] on an integer *)
Definition hex (z : Z) : string := HexString.of_Z z.

(** One hexadecimal digit, for a number below sixteen *)
Definition hex_digit (n : N) : string :=
  match HexString.of_N n with
  | String _ (String _ d) => d
  | _ => EmptyString
  end.

(** [b.hex()] on bytes *)
Definition bytes_hex (b : Bytes) : string :=
  foldr (λ x r, hex_digit (Byte.to_N x / 16) +:+ hex_digit (Byte.to_N x mod 16) +:+ r)
    EmptyString b.

(** One round of the loop of [eels_normalize_transaction]: the key and the
    value that are written to the normalized dictionary. *)
Definition eels_normalize_item (key : string) (value : PyVal)
    : Result (string * PyVal) :=
  match
    (if bool_decide (key = "gas") then inr ("gas_limit", value)
     else if bool_decide (key ∈ ["to"; "from"; "data"; "y_parity"; "r"; "s"; "v"])
     then match value with
          | PyBytes b => inr (key, PyStr (bytes_hex b))
          | _ => inl (AttributeError "object has no attribute 'hex'")
          end
     else inr (key, value))
  with
  | inl x => inl x
  | inr (key, value) =>
      let value := match value with
                   | PyInt z => PyStr (hex z)
                   | PyBool b => PyStr (hex (if b then 1 else 0))
                   | v => v
                   end in
      if bool_decide (key ∈ ["y_parity"])
      then inr (key, value)
      (* for some reason, y_parity is not camelCased *)
      else inr (snake_case_to_lower_camel_case sup key, value)
  end.

Fixpoint eels_normalize_items (items : Dict) (normalized : Dict) : Result Dict :=
  match items with
  | [] => inr normalized
  | (key, value) :: rest =>
      match eels_normalize_item key value with
      | inl x => inl x
      | inr (k, v) => eels_normalize_items rest (dict_set normalized k v)
      end
  end.

Definition eels_normalize_transaction (transaction : Dict) : Result Dict :=
  eels_normalize_items transaction [].

(** The branch of [sign_transaction] a decoded transaction takes: the
    signing hash and the addend of [v].  [LegacyTransaction] stands for
    [tx_class], which is the class [Transaction] of a fork before Berlin. *)
Definition signing_rule (tx_decoded : Tx) (protected : PyVal)
    : Result (Hash32 * Z) :=
  match tx_class tx_decoded with
  | LegacyTransaction =>
      if is_after_fork fork "ethereum.spurious_dragon"
      then
        if truthy protected
        then inr (signing_hash_155 fork tx_decoded 1, 37) (* Assuming chain_id = 1 *)
        else inr (signing_hash_pre155 fork tx_decoded, 27)
      else inr (signing_hash fork tx_decoded, 27)
  | AccessListTransaction => inr (signing_hash_2930 fork tx_decoded, 0)
  | FeeMarketTransaction => inr (signing_hash_1559 fork tx_decoded, 0)
  | BlobTransaction => inr (signing_hash_4844 fork tx_decoded, 0)
  | UnknownTransaction => inl (ValidationError "Unknown transaction type")
  end.

Definition sign_transaction (json_tx : Dict) (private_key : PrivateKey)
    : Result Dict :=
  let protected := default (PyBool true) (dict_get json_tx "protected") in
  let json_tx := dict_set json_tx "r" (PyStr "0x0") in
  let json_tx := dict_set json_tx "s" (PyStr "0x0") in
  let json_tx := dict_set json_tx "v" (PyStr "0x0") in
  let json_tx := dict_set json_tx "y_parity" (PyStr "0x0") in
  match TransactionLoad_read fork json_tx with
  | inl x => inl x
  | inr tx =>
      match (match tx with
             | Encoded b => decode_transaction fork b
             | Decoded t => inr t
             end) with
      | inl x => inl x
      | inr tx_decoded =>
          let secret_key := secret private_key in
          match signing_rule tx_decoded protected with
          | inl x => inl x
          | inr (hash, v_addend) =>
              let json_tx :=
                if bool_decide (tx_class tx_decoded = LegacyTransaction)
                (* legacy transaction, pop out y_parity if it exists *)
                then dict_pop json_tx "y_parity" else json_tx in
              let '(r, s, y) := secp256k1_sign fork hash secret_key in
              let json_tx := dict_set json_tx "r" (PyStr (hex r)) in
              let json_tx := dict_set json_tx "s" (PyStr (hex s)) in
              let json_tx := dict_set json_tx "v" (PyStr (hex (y + v_addend))) in
              if v_addend =? 0
              then inr (dict_set json_tx "y_parity"
                          (default PyNone (dict_get json_tx "v")))
              else inr json_tx
          end
      end
  end.

(** The double quote character, and the message of
    [_get_normalized_and_signed_evm_transaction], which has the word from
    between double quotes. *)
Definition dquote : string :=
  String (Ascii.Ascii false true false false false true false false) EmptyString.

Definition NO_VALID_FROM_KEY : string :=
  "No valid " +:+ dquote +:+ "from" +:+ dquote
    +:+ " key was provided in the transaction "
    +:+ "which is required for transaction signing.".

(** [self._key_lookup[address]]: of the keys with this address, the one
    added last. *)
Definition _key_lookup (keys : list PrivateKey) (a : Address) : option PrivateKey :=
  list.last (filter (λ k, canonical_address k = a) keys).

Definition _get_normalized_and_signed_evm_transaction (transaction : Dict)
    : M Dict :=
  from ← lookup_or_KeyError "from" (dict_get transaction "from");
  accounts ← get_accounts;
  match from with
  | PyBytes a =>
      if bool_decide (a ∈ accounts)
      then
        keys ← gets _account_keys;
        private_key ← lookup_or_KeyError "from" (_key_lookup keys a);
        cid ← gets (λ e, chain_id (chain e));
        n ← get_nonce a (PyStr "latest");
        base_fee ← get_base_fee;
        eth_tester_normalized_transaction ←
          lift (normalize_transaction_fields sup transaction cid n base_fee);
        (* EELS-specific normalization *)
        eels_normalized_transaction ←
          lift (eels_normalize_transaction eth_tester_normalized_transaction);
        lift (sign_transaction eels_normalized_transaction private_key)
      else raise (ValidationError NO_VALID_FROM_KEY)
  | _ => raise (ValidationError NO_VALID_FROM_KEY)
  end.

(** *** Sending a signed transaction *)

Definition send_signed_transaction (signed_json_tx : Dict)
    (block_number : PyVal) : M Hash32 :=
  eels_transaction ← lift (TransactionLoad_read fork signed_json_tx);
  _check_transaction eels_transaction None;;
  let tx_hash := _get_tx_hash eels_transaction in
  pb ← pending_block;
  modify (λ e, set_transactions_map
    (<[tx_hash := serialize_transaction sup signed_json_tx pb]>
       (_transactions_map e)) e);;
  modify (set_pending_block (Some
    (mkPendingBlock (pb_header pb) (pb_transactions pb ++ [eels_transaction])
       (pb_ommers pb) (pb_withdrawals pb))));;
  mret tx_hash.

(** *** Calls and estimates *)

Definition MINIMUM_GAS_ESTIMATE : Z := 300000.

Definition _generate_transaction_env_for_block_number (transaction : Dict)
    (block_number : Z) : M (Environment * Transaction) :=
  signed_and_normalized_json_tx ←
    _get_normalized_and_signed_evm_transaction transaction;
  signed_transaction ← lift (TransactionLoad_read fork signed_and_normalized_json_tx);
  env ← synthetic_tx_environment signed_transaction None (Some block_number);
  (* check / validate the transaction *)
  b ← latest_block;
  _check_transaction signed_transaction (Some (gas_limit (header b)));;
  mret (env, signed_transaction).

Definition _get_synthetic_env_and_tx_for_block_number (transaction : Dict)
    (block_number : PyVal) : M (Environment * Transaction) :=
  block_number ←
    ((if bool_decide (block_number ∈
          [PyStr "latest"; PyStr "safe"; PyStr "finalized"; PyStr "pending"])
      then b ← latest_block; mret (PyInt (number (header b)))
      else if bool_decide (block_number = PyStr "earliest") then mret (PyInt 0)
      else mret block_number) : M PyVal);
  match history_key block_number with
  | None => raise (ValidationError "Invalid block number.")
  | Some n =>
      (λ e,
         match _generate_transaction_env_for_block_number transaction n e with
         | (e', inl (EthereumException _)) =>
             (e', inl (TransactionFailed (MsgStr "Transaction failed to execute.")))
         | r => r
         end) : M (Environment * Transaction)
  end.

(** [transaction["gas"] = g] is written to the caller's dictionary; the
    methods below go on with the updated dictionary. *)
Definition estimate_gas (transaction : Dict) (block_number : PyVal) : M Z :=
  g ← _max_available_gas;
  let transaction := dict_set transaction "gas" (PyInt g) in
  '(env, signed_evm_transaction) ←
    _get_synthetic_env_and_tx_for_block_number transaction block_number;
  s ← read_state (env_state env);
  let '(s', r) := process_transaction fork env s signed_evm_transaction in
  write_state (env_state env) s';;
  output ← lift r;
  mret (output.1.1). (* total gas consumed *)

(** The end of [call]: what it raises or returns for the [Evm] object that
    [process_message] has returned. *)
Definition call_outcome (evm : Evm) : Result Bytes :=
  match evm_error evm with
  | Some error =>
      let msg :=
        match error with
        | Revert =>
            match evm_output evm with
            | [] => MsgStr "Function has been reverted."
            | _ => MsgStr (bytes_str sup (evm_output evm))
            end
        | _ => MsgError error
        end in
      inl (TransactionFailed msg)
  | None => inr (evm_output evm)
  end.

Definition call (transaction : Dict) (block_number : PyVal) : M Bytes :=
  let transaction :=
    dict_set transaction "gas"
      (default (PyInt MINIMUM_GAS_ESTIMATE) (dict_get transaction "gas")) in
  '(env, signed_evm_transaction) ←
    _get_synthetic_env_and_tx_for_block_number transaction block_number;
  match signed_evm_transaction with
  | Encoded _ => raise (AttributeError "'bytes' object has no attribute 'to'")
  | Decoded tx =>
      let accessed_addresses : list Address :=
        match tx_access_list tx with Some l => l.*1 | None => [] end in
      let accessed_storage_keys : list Bytes :=
        match tx_access_list tx with Some l => l.*2 | None => [] end in
      s ← read_state (env_state env);
      let code_ := code (get_account s (tx_to tx)) in
      to ← lookup_or_KeyError "to" (dict_get transaction "to");
      let message :=
        {| msg_caller := env_caller env;
           msg_target := to;
           msg_gas := tx_gas tx;
           msg_value := tx_value tx;
           msg_data := tx_data tx;
           msg_code := code_;
           msg_depth := 0;
           msg_current_target := to;
           msg_code_address := to;
           msg_should_transfer_value :=
             (0 <? tx_value tx)
             && negb (bool_decide (to ∈ [PyBytes []; PyStr "0x0"; PyNone]));
           msg_is_static := false;
           msg_accessed_addresses := accessed_addresses;
           msg_accessed_storage_keys := accessed_storage_keys |} in
      s ← read_state (env_state env);
      let '(s', r) := process_message fork message env s in
      write_state (env_state env) s';;
      evm ← lift r;
      lift (call_outcome evm)
  end.

End Backend.

(** The attributes of the class before any instance has set them. *)
Definition class_attributes : Engine :=
  {| store := ∅;
     chain := mkBlockChain [] 0%nat 0;
     _pending_block := None;
     _account_keys := [];
     _transactions_map := ∅;
     _receipts_map := ∅;
     _snapshots := ∅;
     _state_history := ∅;
     clock_reads := 0;
     urandom_reads := 0;
     warnings := [] |}.

(** ** A small instance of the library and of the host

    Enough of a fork to run the backend on concrete inputs: value transfers
    for transactions and messages, a contract that reverts, blob gas
    counted per versioned hash.  Hashes are readable encodings instead of
    digests, and the roots of tries and states are not computed. *)
Module Toy.

Definition byte_of_N (n : N) : byte := default x00 (Byte.of_N (n mod 256)).

Fixpoint le_bytes (fuel : nat) (n : N) : Bytes :=
  match fuel with
  | O => []
  | S f => if (n =? 0)%N then [] else byte_of_N n :: le_bytes f (n / 256)
  end.

(** Big-endian bytes of a natural number, one zero byte for zero. *)
Definition be (z : Z) : Bytes :=
  if z <=? 0 then [x00] else rev (le_bytes (N.size_nat (Z.to_N z)) (Z.to_N z)).

Fixpoint bytes_of_hex (s : string) : Bytes :=
  match s with
  | String a (String b rest) =>
      byte_of_N (HexString.Raw.to_N (String a (String b EmptyString)) 0)
        :: bytes_of_hex rest
  | _ => []
  end.

Definition str_of (v : option PyVal) : string :=
  match v with Some (PyStr s) => s | _ => EmptyString end.

Definition int_of (v : option PyVal) : Z :=
  match v with
  | Some (PyStr s) => HexString.to_Z s
  | Some (PyInt z) => z
  | _ => 0
  end.

(** The sender of a transaction is read off its [r]: the toy signature of
    a key is its secret, and the address of a key the bytes of its secret. *)
Definition sender (t : Tx) : Address := be (tx_r t).

Definition key (i : Z) : PrivateKey :=
  {| secret := i; canonical_address := be i |}.

Definition credit (s : State) (a : Address) (v : Z) : State :=
  let acc := get_account s a in
  set_account s a (mkAccount (nonce acc) (balance acc + v) (code acc)).

(** A transfer of [v] from [a] to [b], when [a] has the funds. *)
Definition transfer (s : State) (a b : Address) (v : Z) : State :=
  if balance (get_account s a) <? v then s
  else credit (credit s a (- v)) b v.

Definition bump_nonce (s : State) (a : Address) : State :=
  let acc := get_account s a in
  set_account s a (mkAccount (nonce acc + 1) (balance acc) (code acc)).

Definition execute (s : State) (tx : Transaction) : State :=
  match tx with
  | Decoded t => transfer (bump_nonce s (sender t)) (sender t) (tx_to t) (tx_value t)
  | Encoded _ => s
  end.

Definition check (tx : Transaction) (gas_available : Z) : Result CheckReturn :=
  match tx with
  | Decoded t =>
      if gas_available <? tx_gas t
      then inl (EthereumException "InvalidBlock")
      else inr (CheckedBlob (sender t) (tx_gas_price t) (tx_blob_versioned_hashes t))
  | Encoded _ => inl (EthereumException "InvalidBlock")
  end.

Definition encode (tx : Transaction) : Bytes :=
  match tx with
  | Decoded t => be (tx_r t) ++ be (tx_nonce t) ++ tx_to t ++ be (tx_value t)
  | Encoded b => b
  end.

Definition header_hash (h : Header) : Hash32 :=
  Corelib.Init.Byte.xff :: be (number h) ++ Corelib.Init.Byte.xff :: be (timestamp h).

Definition last_255 (bs : list Block) : list Block :=
  drop (length bs - 255)%nat bs.

Definition last_256_block_hashes (c : BlockChain) : list Hash32 :=
  match list.last (blocks c) with
  | None => []
  | Some b =>
      ((λ b, parent_hash (header b)) <$> last_255 (blocks c))
        ++ [header_hash (header b)]
  end.

(** The opcodes of the two contracts the toy machine knows. *)
Definition REVERT : byte := Corelib.Init.Byte.xfd.
Definition INVALID : byte := Corelib.Init.Byte.xfe.

Definition message_target (m : Message) : Address :=
  match msg_current_target m with PyBytes a => a | _ => [] end.

Definition run_message (m : Message) (env : Environment) (s : State)
    : State * Result Evm :=
  if bool_decide (msg_code m = [REVERT])
  then (s, inr {| evm_error := Some Revert; evm_output := msg_data m |})
  else if bool_decide (msg_code m = [INVALID])
  then (s, inr {| evm_error := Some (OtherEvmError "InvalidOpcode"); evm_output := [] |})
  else
    ((if msg_should_transfer_value m
      then transfer s (msg_caller m) (message_target m) (msg_value m)
      else s),
     inr {| evm_error := None; evm_output := [] |}).

Definition read (d : Dict) : Result Transaction :=
  inr (Decoded
    {| tx_class :=
         match str_of (dict_get d "type") with
         | "0x1" => AccessListTransaction
         | "0x2" => FeeMarketTransaction
         | "0x3" => BlobTransaction
         | "0x4" => UnknownTransaction
         | _ => LegacyTransaction
         end;
       tx_nonce := int_of (dict_get d "nonce");
       tx_gas_price := int_of (dict_get d "gasPrice");
       tx_gas := int_of (dict_get d "gasLimit");
       tx_to := bytes_of_hex (str_of (dict_get d "to"));
       tx_value := int_of (dict_get d "value");
       tx_data := bytes_of_hex (str_of (dict_get d "data"));
       tx_access_list := None;
       tx_blob_versioned_hashes :=
         replicate (Z.to_nat (int_of (dict_get d "blobs"))) [Corelib.Init.Byte.x01];
       tx_v := int_of (dict_get d "v");
       tx_r := int_of (dict_get d "r");
       tx_s := int_of (dict_get d "s") |}).

Definition fork : ForkLoad :=
  {| is_after_fork := λ _, true;
     fork_state_root := λ _, [];
     compute_header_hash := header_hash;
     get_last_256_block_hashes := last_256_block_hashes;
     calculate_base_fee_per_gas := λ _ _ _ parent_base_fee, inr parent_base_fee;
     calculate_excess_blob_gas := λ _, 0;
     check_transaction := λ a,
       match a with
       | CheckCancun _ tx g _ _ _ => check tx g
       | CheckArguments tx _ g _ => check tx g
       end;
     process_transaction := λ env s tx, (execute s tx, inr (21000, [], None));
     process_message_call := λ _ _ s, (s, inr []);
     destroy_touched_empty_accounts := λ s _, s;
     process_message := run_message;
     calculate_total_blob_gas := λ tx,
       match tx with
       | Decoded t => 131072 * Z.of_nat (length (tx_blob_versioned_hashes t))
       | Encoded _ => 0
       end;
     MAX_BLOB_GAS_PER_BLOCK := 786432;
     BLOCK_REWARD := None;
     pay_rewards := λ s _ _ _, s;
     process_withdrawal := λ s wd, credit s (wd_address wd) (wd_amount wd);
     account_exists_and_is_empty := λ _ _, false;
     destroy_account := λ s _, s;
     state_transition := λ bs s _ blk,
       ((bs ++ [blk],
         foldl (λ s wd, credit s (wd_address wd) (wd_amount wd))
           (foldl execute s (transactions blk)) (withdrawals blk)),
        inr tt);
     encode_transaction := encode;
     decode_transaction := λ _, inl (EthereumException "cannot decode");
     make_receipt := λ tx _ g _, be g;
     logs_bloom := λ _, zero_bytes 256;
     root := λ _, [];
     rlp_encode_uint := be;
     rlp_encode_tx := encode;
     rlp_encode_withdrawal := λ wd, be (wd_index wd);
     rlp_hash_tx := encode;
     rlp_hash_ommers := λ _, [];
     keccak256 := λ b, b;
     signing_hash := encode ∘ Decoded;
     signing_hash_pre155 := encode ∘ Decoded;
     signing_hash_155 := λ t _, encode (Decoded t);
     signing_hash_2930 := encode ∘ Decoded;
     signing_hash_1559 := encode ∘ Decoded;
     signing_hash_4844 := encode ∘ Decoded;
     secp256k1_sign := λ _ k, (k, 1, 1);
     TransactionLoad_read := read;
     SYSTEM_ADDRESS := replicate 19 Corelib.Init.Byte.xff ++ [Corelib.Init.Byte.xfe];
     SYSTEM_TRANSACTION_GAS := 30000000 |}.

Definition camel (k : string) : string :=
  match k with
  | "gas_limit" => "gasLimit"
  | "gas_price" => "gasPrice"
  | "chain_id" => "chainId"
  | _ => k
  end.

Definition sup : Support :=
  {| merge_genesis_overrides := λ defaults o,
       inr {| nonce := default (nonce defaults) (ov_nonce o);
              balance := default (balance defaults) (ov_balance o);
              code := default (code defaults) (ov_code o) |};
     get_default_account_keys := λ q,
       key <$> seqZ 1 (default 10 q);
     get_account_keys_from_mnemonic := λ _ q _,
       key <$> seqZ 101 (default 10 q);
     normalize_transaction_fields := λ d cid n base_fee,
       inr (dict_set (dict_set d "nonce" (PyInt n)) "chain_id" (PyInt cid));
     snake_case_to_lower_camel_case := camel;
     serialize_pending_receipt := λ tx out i cumulative contract,
       mkReceiptRecord None None None None [] ∅;
     serialize_transaction_for_block := λ tx i n,
       mkTxRecord (Some n) None (Some i) ∅;
     serialize_transaction := λ d pb,
       mkTxRecord None None None ∅;
     BEACON_ROOTS_CONTRACT_ADDRESS := be 48812;
     BEACON_ROOTS_CONTRACT_CODE := [Corelib.Init.Byte.x60];
     py_str := λ v, match v with PyInt z => hex z | PyStr s => s | _ => "?" end;
     bytes_str := bytes_hex;
     int_to_big_endian := be |}.

(** A clock that advances by twelve seconds at every reading, and stops
    after a million readings. *)
Definition host : Host :=
  {| time_time := λ k, 1700000000 + 12 * Z.min (Z.of_nat k) 1000000;
     os_urandom := λ k, zero_bytes 31 ++ [byte_of_N (N.of_nat k)] |}.

(** A signed transfer of [v] from the account of the key [k] to the
    address [to], with [blobs] versioned hashes when it is a blob
    transaction. *)
Definition signed_transfer (k : Z) (to : string) (v n blobs : Z) : Dict :=
  [("type", PyStr (if blobs =? 0 then "0x0" else "0x3"));
   ("nonce", PyStr (hex n));
   ("gasLimit", PyStr "0x5208");
   ("to", PyStr to);
   ("value", PyStr (hex v));
   ("blobs", PyInt blobs);
   ("r", PyStr (hex k))].

(** A fresh instance with two accounts. *)
Definition genesis : Engine :=
  after (reset_to_genesis fork sup host None None (Some 2) None None)
    class_attributes.

End Toy.

(** ** Observations and properties *)

(** What a run returned, when it returned. *)
Definition returned {A} (r : Engine * Result A) : option A :=
  match r.2 with inr a => Some a | inl _ => None end.

(** What a run raised, when it raised. *)
Definition raised {A} (r : Engine * Result A) : option Exn :=
  match r.2 with inl x => Some x | inr _ => None end.

(** The content of the live state. *)
Definition live_state (e : Engine) : State :=
  default empty_State (store e !! state (chain e)).

(** The content of the snapshot recorded for a block number. *)
Definition recorded_state (e : Engine) (n : Z) : option State :=
  l ← _state_history e !! n; Some (default empty_State (store e !! l)).

(** The numbers of the blocks of the chain, in order. *)
Definition block_numbers (e : Engine) : list Z :=
  (λ b, number (header b)) <$> blocks (chain e).

(** The snapshot index has an entry for a number exactly when the chain has
    a block of that number. *)
Definition snapshot_index_matches_blocks (e : Engine) : Prop :=
  ∀ n, is_Some (_state_history e !! n) ↔ n ∈ block_numbers e.

(** The snapshot index has an entry for the number of every block. *)
Definition snapshot_index_covers_blocks (e : Engine) : Prop :=
  ∀ n, n ∈ block_numbers e → is_Some (_state_history e !! n).

(** The account that the claim on the account queries describes: the one
    of the state resolved for the block number. *)
Definition resolved_account (sup : Support) (account : Address)
    (block_number : PyVal) : M Account :=
  l ← _get_state_for_block_number sup block_number;
  s ← read_state l;
  mret (get_account s account).

(** Every block but the first names the hash of the block before it as
    its parent. *)
Fixpoint linked (fork : ForkLoad) (bs : list Block) : bool :=
  match bs with
  | b1 :: (b2 :: _) as rest =>
      bool_decide (parent_hash (header b2) = compute_header_hash fork (header b1))
      && linked fork rest
  | _ => true
  end.

(** The hashes of the headers of a list of blocks. *)
Definition header_hashes (fork : ForkLoad) (bs : list Block) : list Hash32 :=
  (λ b, compute_header_hash fork (header b)) <$> bs.

(** What the library documents of [get_last_256_block_hashes]: the hashes it
    returns are the parent hashes of the last 255 blocks of the chain and the
    hash of the last block. *)
Definition recent_hashes_only (fork : ForkLoad) (c : BlockChain) : Prop :=
  ∀ h, h ∈ get_last_256_block_hashes fork c →
    h ∈ (λ b, parent_hash (header b)) <$> drop (length (blocks c) - 255)%nat (blocks c)
    ∨ h ∈ header_hashes fork (drop (length (blocks c) - 1)%nat (blocks c)).

(** ** Runs of the small instance *)
Module Scenario.
Import Toy.

(** [n] blocks mined on the fresh instance. *)
Definition mined (n : Z) : Engine :=
  after (mine_blocks fork sup host n) genesis.

(** A transfer of 1000 from the first account to the second, buffered. *)
Definition transfer_sent : Engine :=
  after (send_signed_transaction fork sup (signed_transfer 1 "02" 1000 0 0)
           (PyStr "latest")) genesis.

(** The transfer, mined in block 1. *)
Definition transfer_mined : Engine :=
  after (mine_blocks fork sup host 1) transfer_sent.

(** A blob transaction with seven versioned hashes, buffered: one more
    than the blob gas of a block allows. *)
Definition blob_sent : Engine :=
  after (send_signed_transaction fork sup (signed_transfer 1 "02" 1000 0 7)
           (PyStr "latest")) genesis.

(** Two blocks mined, then a revert to block 0 and a revert to block 1. *)
Definition reverted_twice : Engine :=
  after (revert_to_snapshot sup (PyInt 1))
    (after (revert_to_snapshot sup (PyInt 0)) (mined 2)).

(** A second instance made in a process where a first one has mined two
    blocks: the attributes the class holds are shared, the pending block of
    the new instance is not set yet. *)
Definition second_instance : Engine :=
  set_pending_block None (mined 2).

(** The dictionary of a call that sends 1000 from the first account to the
    second. *)
Definition transfer_call : Dict :=
  [("from", PyBytes (be 1)); ("to", PyBytes (be 2)); ("value", PyInt 1000)].

(** A decoded transfer of the first account. *)
Definition probe_tx : Transaction :=
  Decoded (mkTx LegacyTransaction 0 0 21000 (be 2) 1000 [] None [] 0 1 0).

End Scenario.


(** ** Further definitions for the statements *)

(** The dictionary [sign_transaction] hands to [TransactionLoad]: the
    signature fields set to zero. *)
Definition zeroed_signature (json_tx : Dict) : Dict :=
  dict_set (dict_set (dict_set (dict_set json_tx "r" (PyStr "0x0"))
                        "s" (PyStr "0x0")) "v" (PyStr "0x0"))
    "y_parity" (PyStr "0x0").

(** The attributes of the backend other than the store of states, the
    readings of the clock and the log. *)
Definition frame (e : Engine) :=
  (chain e, _pending_block e, _account_keys e, _transactions_map e,
   _receipts_map e, _snapshots e, _state_history e, urandom_reads e).

Definition preserves {A} (m : M A) : Prop :=
  ∀ e e' r, m e = (e', r) → frame e' = frame e.

(** The operation removes no entry of the snapshot index. *)
Definition keeps_entries {A} (m : M A) : Prop :=
  ∀ e e' r, m e = (e', r) → dom (_state_history e) ⊆ dom (_state_history e').

(** ** Mining on a library that accepts the assembled blocks *)

(** What mining needs of the library: the fork is Cancun or later; the
    state root is a function of the tries; the system call before the
    transactions and the base fee computation return; and the state
    transition accepts the block the backend has assembled: it appends the
    block to the chain and leaves the state at the root of its header. *)
Record accepting (fork : ForkLoad) (sup : Support) (host : Host) : Prop :=
  mk_accepting {
  after_shanghai : is_after_fork fork "ethereum.shanghai" = true;
  after_cancun : is_after_fork fork "ethereum.cancun" = true;
  root_of_tries : ∀ s,
    fork_state_root fork
      {| _main_trie := _main_trie s;
         _storage_tries := _storage_tries s;
         _tx_snapshots := [] |}
    = fork_state_root fork s;
  system_call_returns : ∀ m env s,
    ∃ touched, (process_message_call fork m env s).2 = inr touched;
  base_fee_returns : ∀ gl pgl pgu pbf,
    ∃ fee, calculate_base_fee_per_gas fork gl pgl pgu pbf = inr fee;
  assembled_block_accepted : ∀ e e1 out hdr blk,
    assemble_pending_block fork sup host e = (e1, inr (out, hdr, blk)) →
    ∃ s',
      state_transition fork (blocks (chain e1)) (live_state e1)
        (chain_id (chain e1)) blk
      = ((blocks (chain e1) ++ [blk], s'), inr tt)
      ∧ fork_state_root fork s' = state_root hdr;
}.

(** The readings of the clock are between 0 and [B]. *)
Definition clock_within (host : Host) (B : Z) : Prop :=
  ∀ k, 0 ≤ time_time host k ≤ B.

(** The numbers of the blocks are their positions in the chain. *)
Definition contiguous (bs : list Block) : Prop :=
  ∀ i b, bs !! i = Some b → number (header b) = Z.of_nat i.

(** The body validation of the pending block, at the time it is mined,
    raises nothing and excludes none of the buffered transactions, and the
    backend has a record of each of them. *)
Definition buffer_included (fork : ForkLoad) (sup : Support) (host : Host)
    (e : Engine) : Prop :=
  ∃ e1 state_copy acc pb,
    _pending_block e = Some pb
    ∧ apply_body_transactions fork sup host
        (after (stamp_pending_block host None) e)
      = (e1, inr (state_copy, acc))
    ∧ Forall (λ tx, is_Some (receipts_map acc !! _get_tx_hash fork tx)
                    ∧ is_Some (_transactions_map e !! _get_tx_hash fork tx))
        (pb_transactions pb).

(** The blocks mined one after the other on top of [parent]: each has the
    number of its parent plus one; its timestamp is the one [time_travel]
    had set, for the first block when there is one, and otherwise the one
    mining assigns from the timestamp of the parent and a reading of the
    clock. *)
Fixpoint mined_on (host : Host) (parent : Header) (preset : option Z)
    (new : list Block) : Prop :=
  match new with
  | [] => True
  | b :: rest =>
      number (header b) = number parent + 1
      ∧ match preset with
        | Some t => timestamp (header b) = t
        | None => ∃ k, timestamp (header b)
                       = mined_timestamp (timestamp parent) (time_time host k)
        end
      ∧ mined_on host (header b) None rest
  end.

(** A check, by computation, of what the theorems on [mine_blocks] ask of
    the backend: the pending block sits on the head, has no timestamp set
    and has its transactions all included by the body validation; the blocks
    are numbered by their position; the timestamp of the head is at most
    [B]. *)
Definition mining_ready (fork : ForkLoad) (sup : Support) (host : Host)
    (e : Engine) (B : Z) : bool :=
  match _pending_block e, list.last (blocks (chain e)),
        apply_body_transactions fork sup host
          (after (stamp_pending_block host None) e) with
  | Some pb, Some head, (_, inr (_, acc)) =>
      bool_decide (ph_number (pb_header pb) = number (header head) + 1)
      && bool_decide (block_numbers e = seqZ 0 (Z.of_nat (length (blocks (chain e)))))
      && bool_decide (timestamp (header head) ≤ B)
      && bool_decide (ph_timestamp (pb_header pb) = None)
      && forallb (λ tx,
           bool_decide (is_Some (receipts_map acc !! _get_tx_hash fork tx))
           && bool_decide (is_Some (_transactions_map e !! _get_tx_hash fork tx)))
           (pb_transactions pb)
  | _, _, _ => false
  end.


(** ** The other methods of the backend

    The methods of [main.py] that the sections above leave out.  The
    serializers of [eels/serializers.py] they call, the constructor of
    private keys of [eth_keys] and the decoding of a raw blob transaction
    are not among the sources at hand: they are the variables of the
    section.  [serialize_block] is handed the backend. *)
Section Queries.

Variable fork : ForkLoad.
Variable sup : Support.
Variable host : Host.

Variable Serialized : Type.
Variable serialize_block : Block + PendingBlock → bool → bool → M Serialized.
Variable serialize_recorded_transaction : TxRecord → Result Serialized.
Variable KeyAPI_PrivateKey : Bytes → Result PrivateKey.
Variable blob_transaction_of_raw : Bytes → M Tx.

(** *** [get_block_by_number] *)

(** The loop over the reversed list of blocks: [block] is assigned at every
    block of that number, and the loop does not stop at the first. *)
Definition block_with_number (bs : list Block) (n : Z) : option Block :=
  foldl (λ block blk,
           if bool_decide (number (header blk) = n) then Some blk else block)
    None (reverse bs).

Definition get_block_by_number (block_number : PyVal) (full_transaction : bool)
    : M Serialized :=
  '(block, is_pending) ←
    ((if bool_decide (block_number = PyStr "latest")
      then b ← latest_block; mret (Some (inl b), false)
      else if bool_decide (block_number = PyStr "earliest")
      then
        bs ← gets (λ e, blocks (chain e));
        b ← py_index bs 0;
        mret (Some (inl b), false)
      else if bool_decide (block_number = PyStr "pending")
      then p ← gets _pending_block; mret (inr <$> p, true)
      else
        match history_key block_number with
        | Some n =>
            (* work in reverse order to find the block *)
            bs ← gets (λ e, blocks (chain e));
            mret (inl <$> block_with_number bs n, false)
        | None => mret (None, false)
        end) : M (option (Block + PendingBlock) * bool));
  match block with
  | Some b => serialize_block b full_transaction is_pending
  | None =>
      raise (BlockNotFound
        ("No block found for block number: " +:+ py_str sup block_number +:+ "."))
  end.

(** *** [get_transaction_by_hash] and [get_transaction_receipt] *)

Definition get_transaction_by_hash (transaction_hash : Hash32) : M Serialized :=
  tm ← gets _transactions_map;
  match tm !! transaction_hash with
  | Some record => lift (serialize_recorded_transaction record)
  | None =>
      raise (TransactionNotFound
        ("No transaction found for transaction hash: "
           +:+ bytes_str sup transaction_hash))
  end.

Definition get_transaction_receipt (transaction_hash : Hash32) : M ReceiptRecord :=
  rm ← gets _receipts_map;
  match rm !! transaction_hash with
  | Some receipt => mret receipt
  | None =>
      raise (TransactionNotFound
        ("No transaction receipt found for transaction hash: "
           +:+ bytes_str sup transaction_hash))
  end.

(** *** [add_account] *)

Definition add_account (private_key : Bytes) : M unit :=
  pkey ← lift (KeyAPI_PrivateKey private_key);
  let address := canonical_address pkey in
  modify (λ e, set_account_keys (_account_keys e ++ [pkey]) e);;
  account ← _get_default_account_state sup None;
  l ← gets (λ e, state (chain e));
  s ← read_state l;
  write_state l (set_account s address account).

(** *** [send_raw_transaction] and [send_transaction] *)

Definition x03 : byte := Corelib.Init.Byte.x03.

Definition send_raw_transaction (raw_transaction : Bytes) : M Hash32 :=
  first ← py_index raw_transaction 0;
  eels_transaction ←
    (if bool_decide (first = x03)
     then
       (* use eth-account to decode since EELS doesn't know how to handle
          blob data *)
       t ← blob_transaction_of_raw raw_transaction; mret (Decoded t)
     else t ← lift (decode_transaction fork raw_transaction); mret (Decoded t));
  _check_transaction fork eels_transaction None;;
  let tx_hash := _get_tx_hash fork eels_transaction in
  pb ← pending_block;
  modify (λ e, set_transactions_map
    (<[tx_hash := serialize_transaction_for_block sup eels_transaction
                    (Z.of_nat (length (pb_transactions pb)))
                    (ph_number (pb_header pb))]>
       (_transactions_map e)) e);;
  modify (set_pending_block (Some
    (mkPendingBlock (pb_header pb) (pb_transactions pb ++ [eels_transaction])
       (pb_ommers pb) (pb_withdrawals pb))));;
  mret tx_hash.

(** [estimate_gas] writes the gas it works with to the dictionary, and
    [send_transaction] then writes the estimate over it. *)
Definition send_transaction (transaction : Dict) : M Hash32 :=
  transaction ←
    (if bool_decide (default PyNone (dict_get transaction "to")
                       ∈ [PyBytes []; PyStr "0x0"; PyStr "0x00"; PyNone])
        && bool_decide (dict_get transaction "gas" = None)
     then
       g ← estimate_gas fork sup host transaction (PyStr "latest");
       mret (dict_set transaction "gas" (PyInt g))
     else mret transaction);
  signed_and_normalized_json_tx ←
    _get_normalized_and_signed_evm_transaction fork sup transaction;
  eels_tx ← lift (TransactionLoad_read fork signed_and_normalized_json_tx);
  _check_transaction fork eels_tx None;;
  let tx_hash := _get_tx_hash fork eels_tx in
  pb ← pending_block;
  let buffered := pb_transactions pb ++ [eels_tx] in
  modify (set_pending_block (Some
    (mkPendingBlock (pb_header pb) buffered (pb_ommers pb) (pb_withdrawals pb))));;
  modify (λ e, set_transactions_map
    (<[tx_hash := serialize_transaction_for_block sup eels_tx
                    (Z.of_nat (length buffered)) (ph_number (pb_header pb))]>
       (_transactions_map e)) e);;
  mret tx_hash.

End Queries.

Arguments block_with_number : simpl never.

(** Stand-ins for the variables of the section above on the small
    instance: a serialization that keeps what it is handed, and private keys
    read off their bytes. *)
Module ToyQueries.

Definition Serialized : Type := (Block + PendingBlock) * bool * bool.

Definition serialize_block (b : Block + PendingBlock)
    (full_transaction is_pending : bool) : M Serialized :=
  mret (b, full_transaction, is_pending).

Definition serialize_recorded_transaction (r : TxRecord) : Result TxRecord :=
  inr r.

Definition PrivateKey_of_bytes (b : Bytes) : Result PrivateKey :=
  if bool_decide (b = [])
  then inl (ValidationError "The private key must be 32 bytes long")
  else inr {| secret := Z.of_nat (length b); canonical_address := b |}.

End ToyQueries.

(** The operation changes nothing of the backend, whether it returns or
    raises. *)
Definition reads {A} (m : M A) : Prop := ∀ e, (m e).1 = e.

(** The keys whose value [eels_normalize_transaction] takes the [hex] of. *)
Definition hex_keys : list string :=
  ["to"; "from"; "data"; "y_parity"; "r"; "s"; "v"].

(** A value that is no integer: booleans are integers in Python. *)
Definition not_an_int (v : PyVal) : Prop :=
  match v with
  | PyInt _ | PyBool _ => False
  | _ => True
  end.

(** The state of the small instance after its genesis, and the same state
    with a contract at a new address. *)
Definition toy_post_state : State :=
  set_account (live_state Toy.genesis) (Toy.be 77)
    {| nonce := 1; balance := 0; code := [Toy.REVERT] |}.

(** The operation leaves an attribute of the backend, or anything else
    that is read off the backend, as it is, whether it returns or raises. *)
Definition keeps {A B} (f : Engine → B) (m : M A) : Prop :=
  ∀ e e' r, m e = (e', r) → f e' = f e.

(** The keys [_generate_genesis_state] works with. *)
Definition genesis_account_keys (sup : Support) (num_accounts : option Z)
    (mnemonic hd_path : option string) : list PrivateKey :=
  match mnemonic with
  | Some m =>
      if bool_decide (m = EmptyString)
      then get_default_account_keys sup num_accounts
      else get_account_keys_from_mnemonic sup m num_accounts hd_path
  | None => get_default_account_keys sup num_accounts
  end.

(** The overrides of the accounts of the keys, and of the contract that
    genesis adds from Cancun on. *)
Definition funded : AccountOverrides :=
  {| ov_balance := Some (10 ^ 18); ov_code := None; ov_nonce := None |}.

Definition beacon_roots_contract (sup : Support) : AccountOverrides :=
  {| ov_balance := None;
     ov_code := Some (BEACON_ROOTS_CONTRACT_CODE sup);
     ov_nonce := None |}.

(** The accounts of the state that [reset_to_genesis] builds for the keys
    it generates: the account [acct] at the address of every key, and from
    Cancun on the account [beacon] at the address of the contract. *)
Definition genesis_accounts (fork : ForkLoad) (sup : Support)
    (account_keys : list PrivateKey) (acct beacon : Account)
    : gmap Address Account :=
  let of_keys :=
    foldl (λ m k, <[canonical_address k := acct]> m) ∅ account_keys in
  if is_after_fork fork "ethereum.cancun"
  then <[BEACON_ROOTS_CONTRACT_ADDRESS sup := beacon]> of_keys
  else of_keys.

(** What the library computes for [get_last_256_block_hashes] on the
    blocks of a chain: the parent hashes of the last 255 blocks, then the
    hash of the last block. *)
Definition recent_block_hashes (fork : ForkLoad) (bs : list Block) : list Hash32 :=
  match list.last bs with
  | None => []
  | Some b =>
      ((λ b, parent_hash (header b)) <$> drop (length bs - 255)%nat bs)
        ++ [compute_header_hash fork (header b)]
  end.

(** The operation leaves the content of the state objects at the locations
    of [D] as it is, whether it returns or raises, on a backend that has
    these objects and satisfies [I], and it keeps [I]. *)
Definition safe (I : Engine → Prop) (D : gset loc) {A} (m : M A) : Prop :=
  ∀ e, D ⊆ dom (store e) → I e →
    (∀ l, l ∈ D → store (after m e) !! l = store e !! l) ∧ I (after m e).

(** A property of the backend that is read off its chain alone. *)
Definition of_chain (I : Engine → Prop) : Prop :=
  ∀ e e', chain e' = chain e → I e → I e'.

(** The head of the chain is the block [head]. *)
Definition head_is (head : Block) (e : Engine) : Prop :=
  list.last (blocks (chain e)) = Some head.

(** The block numbers that stand for the head of the chain in a call or an
    estimate: the names of the head, and its number. *)
Definition names_head (head : Block) (block_number : PyVal) : Prop :=
  block_number ∈ [PyStr "latest"; PyStr "safe"; PyStr "finalized"; PyStr "pending"]
  ∨ history_key block_number = Some (number (header head))
  ∨ (block_number = PyStr "earliest" ∧ number (header head) = 0).

(** The live state is the object at the location [l]. *)
Definition live_at (l : loc) (e : Engine) : Prop := state (chain e) = l.

(** The copy of a state that [_generate_state_snapshot] makes. *)
Definition copy_of (s : State) : State :=
  {| _main_trie := _main_trie s;
     _storage_tries := _storage_tries s;
     _tx_snapshots := [] |}.

(** The number of the pending block and the transactions it buffers, when
    there is a pending block. *)
Definition pending_content (e : Engine) : option (Z * list Transaction) :=
  (λ pb, (ph_number (pb_header pb), pb_transactions pb)) <$> _pending_block e.

(** The snapshot recorded for the block number [n] is a state object of its
    own, not the live one, with the accounts and the storage of the live
    state. *)
Definition records_live_state (e : Engine) (n : Z) : Prop :=
  ∃ l, _state_history e !! n = Some l
       ∧ l ≠ state (chain e)
       ∧ store e !! l = Some (copy_of (live_state e)).

(** A stand-in on the small instance for the decoding of a raw blob
    transaction: the transfer of the first account, as a blob transaction. *)
Definition toy_blob_transaction_of_raw (raw_transaction : Bytes) : M Tx :=
  mret (mkTx BlobTransaction 0 0 21000 (Toy.be 2) 1000 [] None [] 0 1 0).

(** The transaction record and the receipt saved under a hash name a block
    by its number and its hash. *)
Definition mined_in (e : Engine) (tx_hash : Hash32) (blocknum : Z)
    (block_hash : Hash32) : Prop :=
  (∃ record, _transactions_map e !! tx_hash = Some record
     ∧ tr_block_number record = Some blocknum
     ∧ tr_block_hash record = Some block_hash)
  ∧ (∃ receipt, _receipts_map e !! tx_hash = Some receipt
       ∧ rr_block_number receipt = Some blocknum
       ∧ rr_block_hash receipt = Some block_hash).

(** ** The monad *)

Lemma bind_run {A B} (m : M A) (f : A → M B) (e : Engine) :
  (m ≫= f) e = match m e with
               | (e', inl x) => (e', inl x)
               | (e', inr a) => f a e'
               end.
Proof. reflexivity. Qed.

Lemma bind_returns {A B} (m : M A) (f : A → M B) (e e' : Engine) (b : B) :
  (m ≫= f) e = (e', inr b) →
  ∃ e1 a, m e = (e1, inr a) ∧ f a e1 = (e', inr b).
Proof.
  rewrite bind_run. destruct (m e) as [e1 [x|a]]; [discriminate|].
  intros H. by exists e1, a.
Qed.

Lemma bind_of_return {A B} (m : M A) (f : A → M B) (e e1 : Engine) (a : A) :
  m e = (e1, inr a) → (m ≫= f) e = f a e1.
Proof. intros H. by rewrite bind_run, H. Qed.

Lemma bind_of_raise {A B} (m : M A) (f : A → M B) (e e1 : Engine) (x : Exn) :
  m e = (e1, inl x) → (m ≫= f) e = (e1, inl x).
Proof. intros H. by rewrite bind_run, H. Qed.

(** Runs the computation at the head of the goal, bind after bind. *)
Ltac run := repeat (rewrite bind_run; cbn).

(** ** Reverting to a snapshot *)

Lemma slice_to_subseteq {A} (l : list A) (k : Z) : slice_to l k ⊆ l.
Proof.
  unfold slice_to. destruct (0 <=? k); apply subseteq_take.
Qed.

(** C2, as the code has it: [revert_to_snapshot] raises [ValidationError]
    and leaves the backend as it was when no snapshot is recorded for the
    number; otherwise it makes the recorded snapshot the live state object and
    keeps the blocks up to that number, and it leaves the snapshot index as
    it is, so that an index that had an entry for every block of the chain
    still has one for every block that is left. *)
Theorem revert_to_snapshot_keeps_index (sup : Support) (block_number : PyVal)
    (e : Engine) :
  (history_key block_number ≫= (_state_history e !!.) = None →
     ∃ msg, revert_to_snapshot sup block_number e = (e, inl (ValidationError msg)))
  ∧ (∀ k l, history_key block_number = Some k → _state_history e !! k = Some l →
       ∃ e', revert_to_snapshot sup block_number e = (e', inr tt)
         ∧ state (chain e') = l
         ∧ blocks (chain e') = slice_to (blocks (chain e)) (k + 1)
         ∧ chain_id (chain e') = chain_id (chain e)
         ∧ store e' = store e
         ∧ _pending_block e' = _pending_block e
         ∧ _state_history e' = _state_history e
         ∧ (snapshot_index_covers_blocks e → snapshot_index_covers_blocks e')).
Proof.
  split.
  - intros H. unfold revert_to_snapshot. rewrite bind_run. cbn.
    destruct (history_key block_number) as [k|]; cbn in *.
    + rewrite H. eauto.
    + eauto.
  - intros k l Hk Hl. unfold revert_to_snapshot. rewrite bind_run. cbn.
    rewrite Hk. cbn. rewrite Hl. eexists. split; [reflexivity|].
    cbn. repeat split; try reflexivity.
    intros Hc n Hn. apply Hc. unfold block_numbers in *. cbn in Hn.
    apply list_elem_of_fmap in Hn as [b [-> Hb]].
    apply list_elem_of_fmap. exists b. split; [done|].
    by apply (slice_to_subseteq _ (k + 1)).
Qed.

Lemma revert_to_snapshot_keeps_index_witness :
  ∃ e', revert_to_snapshot Toy.sup (PyInt 0) (Scenario.mined 1) = (e', inr tt)
    ∧ state (chain e') = 1%nat
    ∧ blocks (chain e') = slice_to (blocks (chain (Scenario.mined 1))) (0 + 1)
    ∧ chain_id (chain e') = chain_id (chain (Scenario.mined 1))
    ∧ store e' = store (Scenario.mined 1)
    ∧ _pending_block e' = _pending_block (Scenario.mined 1)
    ∧ _state_history e' = _state_history (Scenario.mined 1)
    ∧ (snapshot_index_covers_blocks (Scenario.mined 1) →
       snapshot_index_covers_blocks e').
Proof.
  apply (proj2 (revert_to_snapshot_keeps_index Toy.sup (PyInt 0) (Scenario.mined 1))).
  - reflexivity.
  - vm_compute. reflexivity.
Defined.

(** C2, as the claim has it, fails: after one block is mined and the chain
    is reverted to block 0, the snapshot index still holds the entry of
    block 1, which is no block of the chain any more. *)
Lemma revert_to_snapshot_index_not_truncated :
  returned (revert_to_snapshot Toy.sup (PyInt 0) (Scenario.mined 1)) = Some tt
  ∧ block_numbers (after (revert_to_snapshot Toy.sup (PyInt 0)) (Scenario.mined 1)) = [0]
  ∧ is_Some (_state_history
               (after (revert_to_snapshot Toy.sup (PyInt 0)) (Scenario.mined 1)) !! 1)
  ∧ ¬ snapshot_index_matches_blocks
        (after (revert_to_snapshot Toy.sup (PyInt 0)) (Scenario.mined 1)).
Proof.
  assert (Hn : block_numbers
            (after (revert_to_snapshot Toy.sup (PyInt 0)) (Scenario.mined 1)) = [0])
    by (vm_compute; reflexivity).
  assert (Hs : is_Some (_state_history
            (after (revert_to_snapshot Toy.sup (PyInt 0)) (Scenario.mined 1)) !! 1))
    by (vm_compute; eauto).
  split; [|split; [|split]]; try assumption.
  - vm_compute. reflexivity.
  - intros H. unfold snapshot_index_matches_blocks in H.
    pose proof (proj1 (H 1) Hs) as H1.
    rewrite Hn in H1. apply list_elem_of_singleton in H1. discriminate.
Qed.

(** ** Account queries *)

(** The four queries read the live state, whatever the block number. *)
Lemma account_queries_read_live_state (sup : Support) (account : Address)
    (slot : Z + Bytes) (block_number : PyVal) (e : Engine) :
  get_nonce account block_number e
    = (e, inr (nonce (get_account (live_state e) account)))
  ∧ get_balance account block_number e
    = (e, inr (balance (get_account (live_state e) account)))
  ∧ get_code account block_number e
    = (e, inr (code (get_account (live_state e) account)))
  ∧ get_storage sup account slot block_number e
    = get_storage sup account slot (PyStr "latest") e.
Proof. repeat split. Qed.

(** C3 at a concrete run: a transfer of 1000 from the first account to the
    second is mined in block 1.  Asked for block 0, [get_balance] and
    [get_nonce] answer with the values after block 1, not with those of the
    snapshot recorded for block 0; asked for block 99, of which there is no
    snapshot, [get_nonce] answers all the same, where resolving the state
    raises [ValidationError]. *)
Theorem account_queries_ignore_block_number :
  returned (get_balance (Toy.be 2) (PyInt 0) Scenario.transfer_mined)
    = Some (10 ^ 18 + 1000)
  ∧ balance <$> returned (resolved_account Toy.sup (Toy.be 2) (PyInt 0)
                            Scenario.transfer_mined)
    = Some (10 ^ 18)
  ∧ returned (get_nonce (Toy.be 1) (PyInt 0) Scenario.transfer_mined) = Some 1
  ∧ nonce <$> returned (resolved_account Toy.sup (Toy.be 1) (PyInt 0)
                          Scenario.transfer_mined)
    = Some 0
  ∧ returned (get_nonce (Toy.be 1) (PyInt 99) Scenario.transfer_mined) = Some 1
  ∧ raised (resolved_account Toy.sup (Toy.be 1) (PyInt 99) Scenario.transfer_mined)
    = Some (ValidationError "No state snapshot found for block number: 0x63.").
Proof. repeat split; vm_compute; reflexivity. Qed.

(** ** The environment of a synthetic execution *)

(** C6 at a concrete run: two blocks are mined, at the times 1700000012 and
    1700000024 after a genesis block of time 1700000000.  The environment
    built for block 0 has the number of the head and the reading of the
    clock; the one built for block 1 has the number 1 and the reading of the
    clock. *)
Theorem synthetic_tx_environment_historical_fields :
  (λ b, (number (header b), timestamp (header b)))
    <$> blocks (chain (Scenario.mined 2))
    = [(0, 1700000000); (1, 1700000012); (2, 1700000024)]
  ∧ (λ env, (env_number env, env_time env))
      <$> returned (synthetic_tx_environment Toy.fork Toy.sup Toy.host
                      Scenario.probe_tx None (Some 0) (Scenario.mined 2))
    = Some (2, Some 1700000036)
  ∧ (λ env, (env_number env, env_time env))
      <$> returned (synthetic_tx_environment Toy.fork Toy.sup Toy.host
                      Scenario.probe_tx None (Some 1) (Scenario.mined 2))
    = Some (1, Some 1700000036).
Proof. repeat split; vm_compute; reflexivity. Qed.

(** ** Reset to genesis *)

(** C7 at concrete runs.  On an instance that has mined two blocks,
    [reset_to_genesis] raises [ValidationError] when it comes to build the
    pending block, and the snapshot index is left with its three entries.
    On a new instance that shares the snapshot index of such an instance,
    it returns, the chain is the genesis block alone, and the snapshot index
    has three entries as well. *)
Theorem reset_to_genesis_keeps_snapshot_index :
  raised (reset_to_genesis Toy.fork Toy.sup Toy.host None None (Some 2) None None
            (Scenario.mined 2))
    = Some (ValidationError
        "Cannot build a new pending block until the current pending block has been included in the chain.")
  ∧ block_numbers
      (after (reset_to_genesis Toy.fork Toy.sup Toy.host None None (Some 2) None None)
         (Scenario.mined 2)) = [0]
  ∧ (map_to_list (_state_history
       (after (reset_to_genesis Toy.fork Toy.sup Toy.host None None (Some 2) None None)
          (Scenario.mined 2)))).*1 = [2; 1; 0]
  ∧ returned (reset_to_genesis Toy.fork Toy.sup Toy.host None None (Some 2) None None
                Scenario.second_instance) = Some tt
  ∧ block_numbers
      (after (reset_to_genesis Toy.fork Toy.sup Toy.host None None (Some 2) None None)
         Scenario.second_instance) = [0]
  ∧ (map_to_list (_state_history
       (after (reset_to_genesis Toy.fork Toy.sup Toy.host None None (Some 2) None None)
          Scenario.second_instance))).*1 = [2; 1; 0].
Proof. repeat split; vm_compute; reflexivity. Qed.

(** ** Looking a block up by its hash *)

Lemma py_index_returns {A} (l : list A) (k : Z) (e e' : Engine) (a : A) :
  py_index l k e = (e', inr a) → e' = e ∧ a ∈ l.
Proof.
  unfold py_index. destruct (_ <? 0); [discriminate|].
  destruct (l !! _) eqn:Hl; [|discriminate].
  intros [= <- <-]. split; [done|]. by eapply list_elem_of_lookup_2.
Qed.

Lemma find_block_by_hash_not_listed (fork : ForkLoad) (block_hash : Hash32)
    (hashes : list Hash32) (i : Z) (e : Engine) :
  block_hash ∉ hashes →
  find_block_by_hash fork block_hash i hashes e = (e, inr None).
Proof.
  revert i. induction hashes as [|bh rest IH]; intros i Hn; [done|].
  apply not_elem_of_cons in Hn as [Hne Hn]. cbn.
  case_bool_decide; [by apply IH|].
  case_bool_decide; [congruence|]. by apply IH.
Qed.

Lemma find_block_by_hash_found (fork : ForkLoad) (block_hash : Hash32)
    (hashes : list Hash32) (i : Z) (e e' : Engine) (b : Block) :
  find_block_by_hash fork block_hash i hashes e = (e', inr (Some b)) →
  e' = e ∧ block_hash ∈ hashes
  ∧ compute_header_hash fork (header b) = block_hash
  ∧ b ∈ blocks (chain e).
Proof.
  revert i. induction hashes as [|bh rest IH]; intros i; [discriminate|]. cbn.
  case_bool_decide as Hz.
  { intros H. apply IH in H as (? & ? & ? & ?). repeat split; try done.
    by apply list_elem_of_further. }
  case_bool_decide as Hb.
  - subst bh. intros H. apply bind_returns in H as (e1 & bs & Hbs & H).
    injection Hbs as <- <-.
    apply bind_returns in H as (e2 & blk & Hidx & H).
    apply py_index_returns in Hidx as [-> Hin].
    case_bool_decide as Hh; [discriminate|]. injection H as <- <-.
    repeat split; try done. apply list_elem_of_here.
  - intros H. apply IH in H as (? & ? & ? & ?). repeat split; try done.
    by apply list_elem_of_further.
Qed.

Lemma linked_lookup (fork : ForkLoad) (bs : list Block) (i : nat) (b1 b2 : Block) :
  linked fork bs = true → bs !! i = Some b1 → bs !! S i = Some b2 →
  parent_hash (header b2) = compute_header_hash fork (header b1).
Proof.
  revert i. induction bs as [|b bs IH]; intros i Hl H1 H2; [done|].
  destruct bs as [|b' bs]; [done|].
  cbn in Hl. apply andb_prop in Hl as [Hp Hl].
  destruct i as [|i].
  - cbn in H1, H2. injection H1 as <-. injection H2 as <-.
    by apply bool_decide_eq_true in Hp.
  - by apply (IH i).
Qed.


Lemma toy_recent_hashes_only (c : BlockChain) : recent_hashes_only Toy.fork c.
Proof.
  intros h. cbn. unfold Toy.last_256_block_hashes, Toy.last_255.
  destruct (list.last (blocks c)) as [b|] eqn:Hlast.
  - intros [Hin|Hin]%elem_of_app; [by left|right].
    apply list_elem_of_singleton in Hin as ->.
    apply last_Some in Hlast as [l' Hl']. rewrite Hl'.
    rewrite length_app. cbn.
    replace (length l' + 1 - 1)%nat with (length l') by lia.
    rewrite drop_app_length. apply list_elem_of_here.
  - intros Hin. by apply elem_of_nil in Hin.
Qed.


(** ** Dictionaries *)

Lemma dict_get_None (d : Dict) (k : string) :
  dict_get d k = None ↔ k ∉ d.*1.
Proof.
  induction d as [|[k' v] d IH]; cbn.
  - split; [intros _; apply not_elem_of_nil|done].
  - case_bool_decide as Hk.
    + subst. split; [discriminate|]. intros H. destruct H. apply list_elem_of_here.
    + rewrite IH, not_elem_of_cons. split; [by intros H; split; [congruence|]|by intros [_ H]].
Qed.

Lemma dict_get_set_eq (d : Dict) (k : string) (v : PyVal) :
  dict_get (dict_set d k v) k = Some v.
Proof.
  induction d as [|[k' v'] d IH]; cbn.
  - by rewrite bool_decide_eq_true_2.
  - case_bool_decide as Hk; cbn.
    + by rewrite bool_decide_eq_true_2.
    + by rewrite bool_decide_eq_false_2.
Qed.

Lemma dict_get_set_ne (d : Dict) (k k' : string) (v : PyVal) :
  k ≠ k' → dict_get (dict_set d k v) k' = dict_get d k'.
Proof.
  intros Hne. induction d as [|[k0 v0] d IH]; cbn.
  - by rewrite bool_decide_eq_false_2.
  - case_bool_decide as Hk; cbn.
    + subst k0. by rewrite !bool_decide_eq_false_2.
    + by rewrite IH.
Qed.

Lemma dict_set_keys (d : Dict) (k : string) (v : PyVal) (k' : string) :
  k' ∈ (dict_set d k v).*1 ↔ k' = k ∨ k' ∈ d.*1.
Proof.
  induction d as [|[k0 v0] d IH]; cbn.
  - rewrite list_elem_of_singleton. split; [by left|]. intros [?|H]; [done|].
    by apply elem_of_nil in H.
  - case_bool_decide as Hk; cbn.
    + subst k0. rewrite !elem_of_cons. tauto.
    + rewrite !elem_of_cons, IH. tauto.
Qed.

Lemma dict_set_NoDup (d : Dict) (k : string) (v : PyVal) :
  NoDup d.*1 → NoDup (dict_set d k v).*1.
Proof.
  induction d as [|[k0 v0] d IH]; cbn; intros Hd.
  - apply NoDup_singleton.
  - apply list.NoDup_cons in Hd as [Hk0 Hd]. case_bool_decide as Hk; cbn.
    + subst k0. by apply list.NoDup_cons.
    + apply list.NoDup_cons. split; [|by apply IH].
      rewrite dict_set_keys. intros [?|?]; by subst.
Qed.

Lemma dict_get_pop_ne (d : Dict) (k k' : string) :
  k ≠ k' → dict_get (dict_pop d k) k' = dict_get d k'.
Proof.
  intros Hne. induction d as [|[k0 v0] d IH]; cbn; [done|].
  case_bool_decide as Hk; cbn.
  - subst k0. by rewrite bool_decide_eq_false_2.
  - by rewrite IH.
Qed.

Lemma dict_get_pop_eq (d : Dict) (k : string) :
  NoDup d.*1 → dict_get (dict_pop d k) k = None.
Proof.
  induction d as [|[k0 v0] d IH]; cbn; intros Hd; [done|].
  apply list.NoDup_cons in Hd as [Hk0 Hd]. case_bool_decide as Hk; cbn.
  - subst k0. by apply dict_get_None.
  - rewrite bool_decide_eq_false_2 by done. by apply IH.
Qed.

(** ** Signing *)

(** What [sign_transaction] returns, given the signing hash and the addend
    it has chosen: [v] is the recovery id plus the addend; [y_parity] is [v]
    when the addend is zero and the transaction is typed, and is absent for
    a legacy transaction. *)
Lemma sign_transaction_with_rule (fork : ForkLoad) (json_tx : Dict)
    (private_key : PrivateKey) (tx : Transaction) (tx_decoded : Tx)
    (hash : Hash32) (v_addend : Z) :
  NoDup json_tx.*1 →
  TransactionLoad_read fork (zeroed_signature json_tx) = inr tx →
  match tx with
  | Encoded b => decode_transaction fork b
  | Decoded t => inr t
  end = inr tx_decoded →
  signing_rule fork tx_decoded (default (PyBool true) (dict_get json_tx "protected"))
    = inr (hash, v_addend) →
  (tx_class tx_decoded = LegacyTransaction ↔ v_addend ≠ 0) →
  ∃ signed r s y,
    secp256k1_sign fork hash (secret private_key) = (r, s, y)
    ∧ sign_transaction fork json_tx private_key = inr signed
    ∧ dict_get signed "r" = Some (PyStr (hex r))
    ∧ dict_get signed "s" = Some (PyStr (hex s))
    ∧ dict_get signed "v" = Some (PyStr (hex (y + v_addend)))
    ∧ dict_get signed "y_parity"
      = (if bool_decide (tx_class tx_decoded = LegacyTransaction) then None
         else Some (PyStr (hex (y + v_addend)))).
Proof.
  intros Hd Hread Hdec Hrule Hlegacy.
  assert (Hz : NoDup (zeroed_signature json_tx).*1)
    by (unfold zeroed_signature; by repeat apply dict_set_NoDup).
  unfold sign_transaction. fold (zeroed_signature json_tx).
  rewrite Hread, Hdec, Hrule.
  destruct (secp256k1_sign fork hash (secret private_key)) as [[r s] y] eqn:Hsign.
  case_bool_decide as Hc.
  - assert (Hv : v_addend ≠ 0) by by apply Hlegacy.
    apply Z.eqb_neq in Hv. rewrite Hv.
    eexists _, r, s, y. split; [done|]. split; [done|].
    rewrite dict_get_set_eq.
    rewrite (dict_get_set_ne _ "v" "s"), dict_get_set_eq by done.
    rewrite !(dict_get_set_ne _ _ "r"), dict_get_set_eq by done.
    rewrite !(dict_get_set_ne _ _ "y_parity") by done.
    by rewrite dict_get_pop_eq.
  - assert (Hv : v_addend = 0)
      by (destruct (decide (v_addend = 0)) as [|Hne];
          [done|by destruct Hc; apply Hlegacy]).
    subst v_addend. cbn [Z.eqb].
    eexists _, r, s, y. split; [done|]. split; [done|].
    rewrite dict_get_set_eq.
    rewrite !(dict_get_set_ne _ "y_parity") by done.
    rewrite !dict_get_set_eq.
    rewrite (dict_get_set_ne _ "v" "s"), dict_get_set_eq by done.
    rewrite !(dict_get_set_ne _ _ "r"), dict_get_set_eq by done.
    done.
Qed.



(** ** Transactions that the body validation excludes *)

(** A transaction whose [try] block raises a recoverable exception leaves
    the tries, the receipts, the logs and the gas of the block as they were,
    and the loop goes on. *)
Lemma apply_transaction_excluded (fork : ForkLoad) (sup : Support) (host : Host)
    (state_copy : loc) (block_gas_limit i : Z) (tx : Transaction)
    (acc : BodyAcc) (e e1 : Engine) (blob : Z) (x : Exn) :
  try_transaction fork sup host state_copy tx acc e = (e1, inr (blob, inl x)) →
  recoverable x = true →
  ∃ acc',
    apply_transaction fork sup host state_copy block_gas_limit i tx acc e
      = (add_warning (rlp_hash_tx fork tx, x) e1, inr acc')
    ∧ gas_available acc' = gas_available acc
    ∧ transactions_trie acc' = transactions_trie acc
    ∧ receipts_trie acc' = receipts_trie acc
    ∧ receipts_map acc' = receipts_map acc
    ∧ block_logs acc' = block_logs acc.
Proof.
  intros Htry Hx. unfold apply_transaction.
  rewrite (bind_of_return _ _ _ _ _ Htry). cbn. rewrite Hx.
  eexists. split; [reflexivity|]. by cbn.
Qed.

Lemma update_mined_records_needs_receipts (fork : ForkLoad) (blocknum : Z)
    (block_hash state_root_ : Hash32) (out : ApplyBodyOutput)
    (txs : list Transaction) (i : Z) (e e' : Engine) :
  update_mined_records fork blocknum block_hash state_root_ out i txs e
    = (e', inr tt) →
  Forall (λ tx, is_Some (out_receipts_map out !! _get_tx_hash fork tx)) txs.
Proof.
  revert i e. induction txs as [|tx txs IH]; intros i e H; [constructor|].
  cbn in H.
  apply bind_returns in H as (e1 & tm & _ & H).
  apply bind_returns in H as (e2 & updated_tx & _ & H).
  apply bind_returns in H as (e3 & [] & _ & H).
  apply bind_returns in H as (e4 & updated_receipt & Hr & H).
  apply bind_returns in H as (e5 & [] & _ & H).
  constructor; [|by eapply IH].
  destruct (out_receipts_map out !! _get_tx_hash fork tx); [eauto|discriminate].
Qed.

(** A block is committed only if the body validation has a receipt for
    every buffered transaction: mining raises whenever it has excluded
    one. *)
Lemma commit_block_needs_receipts (fork : ForkLoad)
    (out : ApplyBodyOutput) (hdr : Header) (blk : Block)
    (e e' : Engine) (pb : PendingBlock) :
  commit_block fork out hdr blk e = (e', inr pb) →
  Forall (λ tx, is_Some (out_receipts_map out !! _get_tx_hash fork tx))
    (pb_transactions pb).
Proof.
  unfold commit_block. intros H.
  apply bind_returns in H as (e1 & block & _ & H).
  apply bind_returns in H as (e2 & c & _ & H).
  apply bind_returns in H as (e3 & s & _ & H).
  destruct (state_transition fork _ _ _ _) as [[blocks' s'] r].
  apply bind_returns in H as (e4 & [] & _ & H).
  apply bind_returns in H as (e5 & [] & _ & H).
  apply bind_returns in H as (e6 & [] & _ & H).
  apply bind_returns in H as (e7 & live & _ & H).
  apply bind_returns in H as (e8 & [] & _ & H).
  apply bind_returns in H as (e9 & latest & _ & H).
  apply bind_returns in H as (e10 & [] & _ & H).
  apply bind_returns in H as (e11 & [] & Hu & H).
  apply bind_returns in H as (e12 & snapshot & _ & H).
  apply bind_returns in H as (e13 & [] & _ & H).
  injection H as _ <-.
  by eapply update_mined_records_needs_receipts.
Qed.

(** C1 at a concrete run: a blob transaction with seven versioned hashes is
    buffered on a fresh instance.  The body validation excludes it: it logs
    the [ValidationError], and the tries and the receipts stay empty and the
    gas whole.  Mining does not go on from there: the block handed to the
    state transition of the library holds the transaction, and the loop over
    the buffered transactions raises [KeyError] at the missing receipt, so
    that no snapshot is recorded for block 1 and [mine_blocks] raises. *)
Theorem mining_raises_on_excluded_transaction :
  (λ r, (gas_available r.2, transactions_trie r.2, receipts_trie r.2, receipts_map r.2))
    <$> returned (apply_body_transactions Toy.fork Toy.sup Toy.host Scenario.blob_sent)
    = Some (30029122, ∅, ∅, ∅)
  ∧ (warnings (after (apply_body_transactions Toy.fork Toy.sup Toy.host)
                 Scenario.blob_sent)).*2
    = [ValidationError "Blob gas used exceeds the maximum allowed gas per block"]
  ∧ raised (_mine_pending_block Toy.fork Toy.sup Toy.host None Scenario.blob_sent)
    = Some (KeyError "tx_hash")
  ∧ (λ b, length (transactions b))
      <$> blocks (chain (after (_mine_pending_block Toy.fork Toy.sup Toy.host None)
                           Scenario.blob_sent))
    = [0; 1]%nat
  ∧ _state_history (after (_mine_pending_block Toy.fork Toy.sup Toy.host None)
                      Scenario.blob_sent) !! 1 = None
  ∧ raised (mine_blocks Toy.fork Toy.sup Toy.host 1 Scenario.blob_sent)
    = Some (KeyError "tx_hash").
Proof. repeat split; vm_compute; reflexivity. Qed.

(** ** Calls *)

(** The end of [call]: a revert without output raises [TransactionFailed]
    with the fixed message, a revert with output raises it with the output
    as a string, any other error raises it with the error, and no error
    returns the output. *)
Lemma call_outcome_cases (sup : Support) (evm : Evm) :
  match evm_error evm with
  | Some Revert =>
      call_outcome sup evm
      = inl (TransactionFailed
               (if bool_decide (evm_output evm = [])
                then MsgStr "Function has been reverted."
                else MsgStr (bytes_str sup (evm_output evm))))
  | Some error => call_outcome sup evm = inl (TransactionFailed (MsgError error))
  | None => call_outcome sup evm = inr (evm_output evm)
  end.
Proof.
  unfold call_outcome. destruct (evm_error evm) as [[|name]|]; try done.
  by destruct (evm_output evm).
Qed.

(** C4 at concrete runs.  After one block is mined, a call pinned to block
    0 that sends 1000 to the second account returns, and the snapshot that
    is recorded for block 0 has the 1000 on the account afterwards.  After
    two blocks are mined and the chain is reverted to block 0 and then to
    block 1, the snapshot of block 1 is the live state object and the head
    is block 0: the same call pinned to block 1 changes the balance that
    [get_balance] reads. *)
Theorem call_mutates_recorded_state :
  balance <$> (flip get_account (Toy.be 2) <$> recorded_state (Scenario.mined 1) 0)
    = Some (10 ^ 18)
  ∧ returned (call Toy.fork Toy.sup Toy.host Scenario.transfer_call (PyInt 0)
                (Scenario.mined 1)) = Some []
  ∧ balance <$> (flip get_account (Toy.be 2)
                   <$> recorded_state
                         (after (call Toy.fork Toy.sup Toy.host
                                       Scenario.transfer_call (PyInt 0))
                            (Scenario.mined 1)) 0)
    = Some (10 ^ 18 + 1000)
  ∧ block_numbers Scenario.reverted_twice = [0]
  ∧ returned (get_balance (Toy.be 2) (PyStr "latest") Scenario.reverted_twice)
    = Some (10 ^ 18)
  ∧ returned (call Toy.fork Toy.sup Toy.host Scenario.transfer_call (PyInt 1)
                Scenario.reverted_twice) = Some []
  ∧ returned (get_balance (Toy.be 2) (PyStr "latest")
                (after (call Toy.fork Toy.sup Toy.host
                              Scenario.transfer_call (PyInt 1))
                   Scenario.reverted_twice))
    = Some (10 ^ 18 + 1000).
Proof. repeat split; vm_compute; reflexivity. Qed.

(** ** What the body validation leaves alone *)

Create HintDb preserves.

Lemma preserves_ret {A} (a : A) : preserves (mret a).
Proof. by intros e e' r [= <- <-]. Qed.

Lemma preserves_raise {A} (x : Exn) : preserves (@raise A x).
Proof. by intros e e' r [= <- <-]. Qed.

Lemma preserves_gets {A} (f : Engine → A) : preserves (gets f).
Proof. by intros e e' r [= <- <-]. Qed.

Lemma preserves_lift {A} (r : Result A) : preserves (lift r).
Proof. by intros e e' r' [= <- <-]. Qed.

Lemma preserves_bind {A B} (m : M A) (f : A → M B) :
  preserves m → (∀ a, preserves (f a)) → preserves (m ≫= f).
Proof.
  intros Hm Hf e e' r. rewrite bind_run.
  destruct (m e) as [e1 [x|a]] eqn:He.
  - intros [= <- <-]. by eapply Hm.
  - intros H. apply Hf in H. apply Hm in He. congruence.
Qed.

Lemma preserves_set_store (f : gmap loc State → gmap loc State) :
  preserves (modify (set_store f)).
Proof. by intros e e' r [= <- <-]. Qed.

Lemma preserves_add_warning (w : Hash32 * Exn) : preserves (modify (add_warning w)).
Proof. by intros e e' r [= <- <-]. Qed.

Lemma preserves_alloc (s : State) : preserves (alloc s).
Proof. by intros e e' r [= <- <-]. Qed.

Lemma preserves_int_time_time (host : Host) : preserves (int_time_time host).
Proof. by intros e e' r [= <- <-]. Qed.

Lemma preserves_lookup_or_KeyError {A} (name : string) (o : option A) :
  preserves (lookup_or_KeyError name o).
Proof. destruct o; [apply preserves_ret|apply preserves_raise]. Qed.

#[global] Hint Resolve preserves_ret preserves_raise preserves_gets preserves_lift
  preserves_set_store preserves_add_warning preserves_alloc
  preserves_int_time_time preserves_lookup_or_KeyError : preserves.

Ltac preserves_step :=
  match goal with
  | |- preserves (_ ≫= _) => apply preserves_bind; [|intros ?]
  | |- preserves (if ?b then _ else _) => destruct b
  | |- preserves (match ?x with _ => _ end) => destruct x
  | |- preserves _ => solve [eauto with preserves]
  end.

Ltac solve_preserves := repeat preserves_step.

Lemma preserves_read_state (l : loc) : preserves (read_state l).
Proof. unfold read_state. solve_preserves. Qed.

Lemma preserves_write_state (l : loc) (s : State) : preserves (write_state l s).
Proof. unfold write_state. solve_preserves. Qed.

#[global] Hint Resolve preserves_read_state preserves_write_state : preserves.

Lemma preserves_chain_state : preserves chain_state.
Proof. unfold chain_state. solve_preserves. Qed.

Lemma preserves_latest_block : preserves latest_block.
Proof. unfold latest_block. solve_preserves. Qed.

Lemma preserves_pending_block : preserves pending_block.
Proof. unfold pending_block. solve_preserves. Qed.

#[global] Hint Resolve preserves_chain_state preserves_latest_block
  preserves_pending_block : preserves.

Lemma preserves__generate_state_snapshot : preserves _generate_state_snapshot.
Proof. unfold _generate_state_snapshot. solve_preserves. Qed.

Lemma preserves__max_available_gas : preserves _max_available_gas.
Proof. unfold _max_available_gas. solve_preserves. Qed.

#[global] Hint Resolve preserves__generate_state_snapshot
  preserves__max_available_gas : preserves.

Lemma preserves__get_state_for_block_number (sup : Support) (v : PyVal) :
  preserves (_get_state_for_block_number sup v).
Proof. unfold _get_state_for_block_number. solve_preserves. Qed.

Lemma preserves__check_transaction (fork : ForkLoad) (tx : Transaction)
    (g : option Z) : preserves (_check_transaction fork tx g).
Proof. unfold _check_transaction. solve_preserves. Qed.

#[global] Hint Resolve preserves__get_state_for_block_number
  preserves__check_transaction : preserves.

Lemma preserves_synthetic_tx_environment (fork : ForkLoad) (sup : Support)
    (host : Host) (tx : Transaction) (s : option loc) (n : option Z) :
  preserves (synthetic_tx_environment fork sup host tx s n).
Proof. unfold synthetic_tx_environment. solve_preserves. Qed.

#[global] Hint Resolve preserves_synthetic_tx_environment : preserves.

Lemma preserves_try_transaction (fork : ForkLoad) (sup : Support) (host : Host)
    (state_copy : loc) (tx : Transaction) (acc : BodyAcc) :
  preserves (try_transaction fork sup host state_copy tx acc).
Proof.
  intros e e' r. unfold try_transaction.
  match goal with |- context [?m e] => destruct (m e) as [e1 [x|v]] eqn:He end.
  - intros [= <- <-]. revert He. apply preserves_bind; [eauto with preserves|].
    intros env. solve_preserves.
  - assert (Hf : frame e1 = frame e).
    { revert He. apply preserves_bind; [eauto with preserves|].
      intros env. solve_preserves. }
    repeat case_match; by intros [= <- <-].
Qed.

#[global] Hint Resolve preserves_try_transaction : preserves.

Lemma preserves_apply_transaction (fork : ForkLoad) (sup : Support) (host : Host)
    (state_copy : loc) (block_gas_limit i : Z) (tx : Transaction) (acc : BodyAcc) :
  preserves (apply_transaction fork sup host state_copy block_gas_limit i tx acc).
Proof. unfold apply_transaction. solve_preserves. Qed.

#[global] Hint Resolve preserves_apply_transaction : preserves.

Lemma preserves_apply_transactions (fork : ForkLoad) (sup : Support) (host : Host)
    (state_copy : loc) (block_gas_limit : Z) (txs : list Transaction) (i : Z)
    (acc : BodyAcc) :
  preserves (apply_transactions fork sup host state_copy block_gas_limit i txs acc).
Proof.
  revert i acc. induction txs as [|tx txs IH]; intros i acc; cbn.
  - apply preserves_ret.
  - apply preserves_bind; [eauto with preserves|]. intros acc'. apply IH.
Qed.

#[global] Hint Resolve preserves_apply_transactions : preserves.

Lemma preserves_apply_body_transactions (fork : ForkLoad) (sup : Support)
    (host : Host) : preserves (apply_body_transactions fork sup host).
Proof. unfold apply_body_transactions. solve_preserves. Qed.

#[global] Hint Resolve preserves_apply_body_transactions : preserves.

Lemma preserves__internal_apply_body_validation (fork : ForkLoad) (sup : Support)
    (host : Host) : preserves (_internal_apply_body_validation fork sup host).
Proof. unfold _internal_apply_body_validation. solve_preserves. Qed.

(** ** The snapshot index only grows *)

Lemma keeps_entries_preserves {A} (m : M A) : preserves m → keeps_entries m.
Proof.
  intros Hm e e' r H. apply Hm in H. unfold frame in H.
  by injection H as _ _ _ _ _ _ -> _.
Qed.

Lemma keeps_entries_bind {A B} (m : M A) (f : A → M B) :
  keeps_entries m → (∀ a, keeps_entries (f a)) → keeps_entries (m ≫= f).
Proof.
  intros Hm Hf e e' r. rewrite bind_run.
  destruct (m e) as [e1 [x|a]] eqn:He.
  - intros [= <- <-]. by eapply Hm.
  - intros H. apply Hf in H. apply Hm in He. set_solver.
Qed.

Lemma keeps_entries_modify (f : Engine → Engine) :
  (∀ e, dom (_state_history e) ⊆ dom (_state_history (f e))) →
  keeps_entries (modify f).
Proof. intros Hf e e' r [= <- <-]. apply Hf. Qed.

Ltac solve_keeps_entries :=
  repeat first
    [ solve [apply keeps_entries_preserves; solve_preserves]
    | apply keeps_entries_bind; [|intros ?]
    | solve [apply keeps_entries_modify; intros ?; cbn; set_solver]
    | solve [by intros ? ? ? [= <- <-]]
    | case_match ].

Lemma preserves__generate_genesis_state_for_keys_from (sup : Support)
    (account_keys : list PrivateKey) (overrides : option AccountOverrides)
    (acc : gmap Address Account) :
  preserves (_generate_genesis_state_for_keys_from sup account_keys overrides acc).
Proof.
  revert acc. induction account_keys as [|private_key rest IH]; intros acc; cbn.
  - apply preserves_ret.
  - apply preserves_bind; [apply preserves_lift|]. intros a. apply IH.
Qed.

Lemma keeps_entries__build_new_pending_block (fork : ForkLoad) (host : Host)
    (coinbase_ : Address) (difficulty_ : Z) (gas_limit_ : option Z)
    (extra_data_ : Bytes) (prev_randao_ : option Bytes) (nonce_ : Bytes)
    (parent_beacon_block_root_ : option Bytes) (timestamp_ : option Z) :
  keeps_entries
    (_build_new_pending_block fork host coinbase_ difficulty_ gas_limit_
       extra_data_ prev_randao_ nonce_ parent_beacon_block_root_ timestamp_).
Proof.
  unfold _build_new_pending_block, or_urandom, urandom32.
  solve_keeps_entries.
Qed.

(** [reset_to_genesis] removes no entry of the snapshot index, whether it
    returns or raises: the entries of the blocks mined before it are in the
    index afterwards. *)
Lemma reset_to_genesis_keeps_entries (fork : ForkLoad) (sup : Support)
    (host : Host) (genesis_params : option (gmap string PyVal))
    (genesis_state : option (gmap Address Account))
    (num_accounts : option Z) (mnemonic : option string)
    (hd_path : option string) :
  keeps_entries
    (reset_to_genesis fork sup host genesis_params genesis_state num_accounts
       mnemonic hd_path).
Proof.
  unfold reset_to_genesis, _build_new_pending_block_default, _generate_genesis_state.
  repeat first
    [ solve [apply keeps_entries__build_new_pending_block]
    | solve [apply keeps_entries_preserves;
             apply preserves__generate_genesis_state_for_keys_from]
    | progress solve_keeps_entries ].
Qed.

(** ** One round of mining *)


Lemma Uint_returns (z : Z) : 0 ≤ z → Uint z = inr z.
Proof. intros H. unfold Uint. by rewrite (proj2 (Z.ltb_ge z 0)). Qed.

Lemma Uint_sub_returns (a b : Z) : b ≤ a → Uint_sub a b = inr (a - b).
Proof. intros H. unfold Uint_sub. apply Uint_returns. lia. Qed.

Lemma Uint_sub_inv (a b c : Z) : Uint_sub a b = inr c → c = a - b ∧ b ≤ a.
Proof.
  unfold Uint_sub, Uint. destruct (a - b <? 0) eqn:H; [discriminate|].
  intros [= <-]. apply Z.ltb_ge in H. lia.
Qed.

Lemma U256_returns (z : Z) : 0 ≤ z ≤ U256_MAX → U256 z = inr z.
Proof.
  intros H. unfold U256.
  rewrite (proj2 (Z.ltb_ge z 0)), (proj2 (Z.ltb_ge U256_MAX z)) by lia. done.
Qed.

Lemma mined_timestamp_after (parent_timestamp current_time : Z) :
  parent_timestamp < mined_timestamp parent_timestamp current_time
  ∧ current_time ≤ mined_timestamp parent_timestamp current_time
  ∧ mined_timestamp parent_timestamp current_time
    ≤ Z.max parent_timestamp current_time + 1.
Proof.
  unfold mined_timestamp. destruct (parent_timestamp >=? current_time) eqn:H; lia.
Qed.

Lemma stamp_pending_block_returns (host : Host) (e : Engine)
    (pb : PendingBlock) (head : Block) (B : Z) :
  clock_within host B → B + 1 ≤ U256_MAX →
  _pending_block e = Some pb →
  list.last (blocks (chain e)) = Some head →
  timestamp (header head) ≤ B →
  stamp_pending_block host None e
  = (match ph_timestamp (pb_header pb) with
     | None =>
         set_pending_block
           (Some (mkPendingBlock
                    (with_timestamp
                       (mined_timestamp (timestamp (header head))
                          (time_time host (clock_reads e)))
                       (pb_header pb))
                    (pb_transactions pb) (pb_ommers pb) (pb_withdrawals pb)))
           (set_clock_reads (S (clock_reads e)) e)
     | Some _ => e
     end, inr tt).
Proof.
  intros Hclock HB Hpb Hhead Hts. unfold stamp_pending_block, pending_block.
  run. rewrite Hpb. cbn. destruct (ph_timestamp (pb_header pb)) as [t|]; [done|].
  unfold latest_block. run. rewrite Hhead. cbn. run.
  destruct (Hclock (clock_reads e)) as [H0 H1].
  rewrite Uint_returns by done. cbn. run.
  pose proof (mined_timestamp_after (timestamp (header head))
                (time_time host (clock_reads e))) as (Ha & Hb & Hc).
  rewrite U256_returns by lia. cbn.
  unfold update_pending_header, pending_block. run. rewrite Hpb. cbn. done.
Qed.

Lemma pending_block_returns (e : Engine) (pb : PendingBlock) :
  _pending_block e = Some pb → pending_block e = (e, inr pb).
Proof. intros H. unfold pending_block. run. by rewrite H. Qed.

Lemma latest_block_returns (e : Engine) (head : Block) :
  list.last (blocks (chain e)) = Some head → latest_block e = (e, inr head).
Proof. intros H. unfold latest_block. run. by rewrite H. Qed.

Lemma apply_transaction_gas (fork : ForkLoad) (sup : Support) (host : Host)
    (state_copy : loc) (block_gas_limit i : Z) (tx : Transaction)
    (acc acc' : BodyAcc) (e e' : Engine) :
  apply_transaction fork sup host state_copy block_gas_limit i tx acc e
    = (e', inr acc') →
  gas_available acc ≤ block_gas_limit →
  gas_available acc' ≤ block_gas_limit.
Proof.
  unfold apply_transaction. intros H Hle.
  apply bind_returns in H as (e1 & [blob r] & _ & H).
  destruct r as [x|[[[gas_consumed logs] error] contract_address]].
  - destruct (recoverable x); [|discriminate].
    apply bind_returns in H as (e2 & [] & _ & H). by injection H as _ <-.
  - apply bind_returns in H as (e2 & g & Hg & H).
    apply bind_returns in H as (e3 & c & Hc & H).
    apply bind_returns in H as (e4 & s & _ & H).
    apply bind_returns in H as (e5 & [] & _ & H).
    injection H as _ <-. cbn.
    injection Hc as _ Hc. apply Uint_sub_inv in Hc. lia.
Qed.

Lemma apply_transactions_gas (fork : ForkLoad) (sup : Support) (host : Host)
    (state_copy : loc) (block_gas_limit : Z) (txs : list Transaction) (i : Z)
    (acc acc' : BodyAcc) (e e' : Engine) :
  apply_transactions fork sup host state_copy block_gas_limit i txs acc e
    = (e', inr acc') →
  gas_available acc ≤ block_gas_limit →
  gas_available acc' ≤ block_gas_limit.
Proof.
  revert i acc e. induction txs as [|tx txs IH]; intros i acc e; cbn.
  - by intros [= _ <-].
  - intros H Hle. apply bind_returns in H as (e1 & acc1 & H1 & H).
    eapply IH; [exact H|]. by eapply apply_transaction_gas.
Qed.

Lemma apply_body_transactions_gas (fork : ForkLoad) (sup : Support) (host : Host)
    (e e1 : Engine) (state_copy : loc) (acc : BodyAcc) (pb : PendingBlock) :
  _pending_block e = Some pb →
  apply_body_transactions fork sup host e = (e1, inr (state_copy, acc)) →
  gas_available acc ≤ ph_gas_limit (pb_header pb).
Proof.
  intros Hpb H. unfold apply_body_transactions in H.
  rewrite (bind_of_return _ _ _ _ _ (pending_block_returns e pb Hpb)) in H.
  apply bind_returns in H as (e2 & sc & _ & H).
  apply bind_returns in H as (e3 & live & _ & H).
  apply bind_returns in H as (e4 & copied & _ & H).
  apply bind_returns in H as (e5 & [] & _ & H).
  apply bind_returns in H as (e6 & [] & _ & H).
  apply bind_returns in H as (e7 & acc7 & Hl & H).
  injection H as _ _ <-.
  eapply apply_transactions_gas; [exact Hl|]. done.
Qed.

Lemma apply_body_transactions_empty (fork : ForkLoad) (sup : Support)
    (host : Host) (e : Engine) (pb : PendingBlock) :
  accepting fork sup host →
  _pending_block e = Some pb → pb_transactions pb = [] →
  ∃ e1 state_copy acc,
    apply_body_transactions fork sup host e = (e1, inr (state_copy, acc)).
Proof.
  intros Hacc Hpb Htxs. unfold apply_body_transactions.
  rewrite (bind_of_return _ _ _ _ _ (pending_block_returns e pb Hpb)).
  unfold _generate_state_snapshot, chain_state, read_state, alloc. run.
  set (l := fresh (dom (store e))).
  rewrite lookup_insert_eq. cbn.
  assert (Hroot :
    fork_state_root fork
      (default empty_State (<[l := {| _main_trie := _main_trie (default empty_State (store e !! state (chain e)));
                                     _storage_tries := _storage_tries (default empty_State (store e !! state (chain e)));
                                     _tx_snapshots := [] |}]> (store e) !! state (chain e)))
    = fork_state_root fork
        {| _main_trie := _main_trie (default empty_State (store e !! state (chain e)));
           _storage_tries := _storage_tries (default empty_State (store e !! state (chain e)));
           _tx_snapshots := [] |}).
  { destruct (decide (l = state (chain e))) as [<-|Hne].
    - by rewrite lookup_insert_eq.
    - rewrite lookup_insert_ne by done. symmetry. apply (root_of_tries _ _ _ Hacc). }
  rewrite bool_decide_eq_true_2 by exact Hroot. cbn. run.
  rewrite (after_cancun _ _ _ Hacc). run.
  rewrite lookup_insert_eq. cbn.
  match goal with |- context [process_message_call fork ?m ?env ?s] =>
    destruct (system_call_returns _ _ _ Hacc m env s) as [touched Ht];
    destruct (process_message_call fork m env s) as [s' r] end.
  cbn in Ht. subst r. unfold write_state. run.
  rewrite Htxs. cbn. eauto.
Qed.

Lemma frame_chain (e e' : Engine) : frame e' = frame e → chain e' = chain e.
Proof. unfold frame. by intros [= -> _ _ _ _ _ _ _]. Qed.

Lemma frame_pending_block (e e' : Engine) :
  frame e' = frame e → _pending_block e' = _pending_block e.
Proof. unfold frame. by intros [= _ -> _ _ _ _ _ _]. Qed.

Lemma frame_transactions_map (e e' : Engine) :
  frame e' = frame e → _transactions_map e' = _transactions_map e.
Proof. unfold frame. by intros [= _ _ _ -> _ _ _ _]. Qed.

(** ** The environment built for a recorded block *)

(** For an integer, the state resolved is the object the snapshot index
    holds for it: no copy is made, and nothing of the backend changes. *)
Lemma _get_state_for_block_number_recorded (sup : Support) (k : Z) (e : Engine) :
  _get_state_for_block_number sup (PyInt k) e
  = match _state_history e !! k with
    | Some l => (e, inr l)
    | None => (e, inl (ValidationError
                ("No state snapshot found for block number: "
                   +:+ py_str sup (PyInt k) +:+ ".")))
    end.
Proof.
  unfold _get_state_for_block_number.
  rewrite bool_decide_eq_false_2
    by (intros Hin; repeat (apply elem_of_cons in Hin as [Hin|Hin]; [discriminate|]);
        by apply elem_of_nil in Hin).
  rewrite !(bool_decide_eq_false_2 (PyInt k = _)) by discriminate.
  rewrite bind_run. cbn. by destruct (_state_history e !! k).
Qed.

(** For a block number other than that of the head, the environment that
    [synthetic_tx_environment] returns has a reading of the clock as its
    time, whatever the timestamp of the block; it has the number of the
    head when the block number is 0; and its state is the object recorded
    in the snapshot index, not a copy of it. *)
Lemma historical_environment_of_recorded_block (fork : ForkLoad) (sup : Support)
    (host : Host) (tx : Transaction) (k : Z) (e e' : Engine) (head : Block)
    (env : Environment) :
  list.last (blocks (chain e)) = Some head →
  k ≠ number (header head) →
  synthetic_tx_environment fork sup host tx None (Some k) e = (e', inr env) →
  (∃ j, env_time env = Some (time_time host j))
  ∧ env_number env = (if k =? 0 then number (header head) else k)
  ∧ _state_history e !! k = Some (env_state env).
Proof.
  intros Hhead Hk H. unfold synthetic_tx_environment in H.
  rewrite (bind_of_return _ _ _ _ _ (latest_block_returns e head Hhead)) in H.
  rewrite bool_decide_eq_false_2 in H by (intros [?|?]; congruence).
  apply bind_returns in H as (e1 & [[[chain_ state_] block_header] gas_available]
                              & Hbranch & H).
  assert (Hframe : frame e1 = frame e).
  { match type of Hbranch with
    | ?m e = _ => assert (Hp : preserves m) by (cbn; solve_preserves)
    end.
    by apply Hp in Hbranch. }
  assert (hd_timestamp block_header = None
          ∧ _state_history e !! k = Some state_) as [Hstamp Hstate].
  { apply bind_returns in Hbranch as (e2 & [] & He2 & Hbranch).
    injection He2 as <-.
    apply bind_returns in Hbranch as (e3 & l & Hl & Hbranch).
    apply bind_returns in Hbranch as (e4 & c & _ & Hbranch).
    apply bind_returns in Hbranch as (e5 & mined & _ & Hbranch).
    apply bind_returns in Hbranch as (e6 & g & _ & Hbranch).
    injection Hbranch as _ _ <- <- _. split; [done|].
    rewrite _get_state_for_block_number_recorded in Hl. cbn in Hl.
    destruct (_state_history e !! k) as [l'|]; [|discriminate].
    by injection Hl as _ <-. }
  rewrite Hstamp in H.
  apply frame_chain in Hframe.
  rewrite (bind_of_return _ _ _ _ _
             (latest_block_returns e1 head ltac:(by rewrite Hframe))) in H.
  apply bind_returns in H as (e2 & now & Hnow & H).
  injection Hnow as _ <-.
  apply bind_returns in H as (e3 & check_tx_return & _ & H).
  cbn in H.
  repeat case_match; try discriminate; injection H as _ <-; cbn;
    (split; [by eexists|done]).
Qed.

Lemma internal_apply_body_validation_returns (fork : ForkLoad) (sup : Support)
    (host : Host) (e e1 : Engine) (pb : PendingBlock) (head : Block)
    (state_copy : loc) (acc : BodyAcc) :
  accepting fork sup host →
  _pending_block e = Some pb →
  list.last (blocks (chain e)) = Some head →
  apply_body_transactions fork sup host e = (e1, inr (state_copy, acc)) →
  ∃ e2 out wr bg eg,
    _internal_apply_body_validation fork sup host e = (e2, inr out)
    ∧ frame e2 = frame e
    ∧ out_receipts_map out = receipts_map acc
    ∧ out_withdrawals_root out = Some wr
    ∧ out_blob_gas_used out = Some bg
    ∧ out_excess_blob_gas out = Some eg.
Proof.
  intros Hacc Hpb Hhead Hbody.
  pose proof (apply_body_transactions_gas _ _ _ _ _ _ _ _ Hpb Hbody) as Hgas.
  pose proof (preserves_apply_body_transactions _ _ _ _ _ _ Hbody) as Hframe.
  assert (Hv : ∃ e2 out,
    _internal_apply_body_validation fork sup host e = (e2, inr out)
    ∧ out_receipts_map out = receipts_map acc
    ∧ is_Some (out_withdrawals_root out)
    ∧ is_Some (out_blob_gas_used out)
    ∧ is_Some (out_excess_blob_gas out)).
  { unfold _internal_apply_body_validation.
    rewrite (bind_of_return _ _ _ _ _ (pending_block_returns e pb Hpb)).
    rewrite (bind_of_return _ _ _ _ _ Hbody).
    rewrite (after_shanghai _ _ _ Hacc), (after_cancun _ _ _ Hacc).
    destruct (negb (is_after_fork fork "ethereum.paris")
              && bool_decide (is_Some (BLOCK_REWARD fork)));
      unfold read_state, write_state, latest_block; run;
      rewrite Uint_sub_returns by done; cbn; run;
      destruct (apply_withdrawals_from _ _ _ _ _) as [wt s']; run;
      rewrite (frame_chain _ _ Hframe), Hhead; cbn; run;
      (eexists _, _; split; [reflexivity|]; cbn; eauto). }
  destruct Hv as (e2 & out & Hv & Hr & [wr Hwr] & [bg Hbg] & [eg Heg]).
  exists e2, out, wr, bg, eg. repeat split; try done.
  by eapply preserves__internal_apply_body_validation.
Qed.

Lemma assemble_pending_block_returns (fork : ForkLoad) (sup : Support)
    (host : Host) (e e1 : Engine) (pb : PendingBlock) (head : Block)
    (state_copy : loc) (acc : BodyAcc) (ts : Z) :
  accepting fork sup host →
  _pending_block e = Some pb →
  ph_timestamp (pb_header pb) = Some ts →
  list.last (blocks (chain e)) = Some head →
  apply_body_transactions fork sup host e = (e1, inr (state_copy, acc)) →
  ∃ e4 out hdr blk pb4,
    assemble_pending_block fork sup host e = (e4, inr (out, hdr, blk))
    ∧ out_receipts_map out = receipts_map acc
    ∧ chain e4 = chain e
    ∧ _transactions_map e4 = _transactions_map e
    ∧ _pending_block e4 = Some pb4
    ∧ ph_number (pb_header pb4) = ph_number (pb_header pb)
    ∧ pb_transactions pb4 = pb_transactions pb
    ∧ header blk = hdr
    ∧ number hdr = ph_number (pb_header pb)
    ∧ timestamp hdr = ts.
Proof.
  intros Hacc Hpb Hts Hhead Hbody.
  destruct (internal_apply_body_validation_returns _ _ _ _ _ _ _ _ _
              Hacc Hpb Hhead Hbody)
    as (e2 & out & wr & bg & eg & Hv & Hframe & Hr & Hwr & Hbg & Heg).
  assert (Hpb2 : _pending_block e2 = Some pb)
    by (by rewrite (frame_pending_block _ _ Hframe)).
  unfold assemble_pending_block.
  rewrite (bind_of_return _ _ _ _ _ Hv).
  unfold update_pending_header, pending_block. run. rewrite Hpb2. cbn. run.
  rewrite Hwr, Hbg, Heg. cbn. run.
  unfold Header_of_dict. cbn. rewrite Hts. cbn. run.
  eexists _, out, _, _, _. split; [reflexivity|]. cbn.
  rewrite (frame_chain _ _ Hframe), (frame_transactions_map _ _ Hframe).
  repeat split; done.
Qed.

Lemma update_mined_records_returns (fork : ForkLoad) (blocknum : Z)
    (block_hash state_root_ : Hash32) (out : ApplyBodyOutput)
    (txs : list Transaction) (i : Z) (e : Engine) :
  Forall (λ tx, is_Some (out_receipts_map out !! _get_tx_hash fork tx)
                ∧ is_Some (_transactions_map e !! _get_tx_hash fork tx)) txs →
  ∃ e',
    update_mined_records fork blocknum block_hash state_root_ out i txs e
      = (e', inr tt)
    ∧ chain e' = chain e
    ∧ store e' = store e
    ∧ _pending_block e' = _pending_block e
    ∧ _state_history e' = _state_history e.
Proof.
  revert i e. induction txs as [|tx txs IH]; intros i e Hall.
  - by exists e.
  - apply Forall_cons_1 in Hall as [[[r Hr] [t Ht]] Hall]. cbn. run.
    rewrite Ht. cbn. run. rewrite Hr. cbn. run.
    match goal with |- context [update_mined_records _ _ _ _ _ _ _ ?e1] =>
      destruct (IH (i + 1) e1) as (e' & He' & Hc & Hs & Hp & Hh) end.
    { eapply list.Forall_impl; [exact Hall|]. cbn. intros tx' [H1 H2].
      split; [done|]. apply lookup_insert_is_Some'. by right. }
    exists e'. by rewrite He'.
Qed.

Lemma commit_block_returns (fork : ForkLoad) (out : ApplyBodyOutput)
    (hdr : Header) (blk : Block) (e : Engine) (pb : PendingBlock) (s' : State) :
  _pending_block e = Some pb →
  header blk = hdr →
  state_transition fork (blocks (chain e)) (live_state e) (chain_id (chain e)) blk
    = ((blocks (chain e) ++ [blk], s'), inr tt) →
  fork_state_root fork s' = state_root hdr →
  Forall (λ tx, is_Some (out_receipts_map out !! _get_tx_hash fork tx)
                ∧ is_Some (_transactions_map e !! _get_tx_hash fork tx))
    (pb_transactions pb) →
  ∃ e5,
    commit_block fork out hdr blk e = (e5, inr pb)
    ∧ blocks (chain e5) = blocks (chain e) ++ [blk]
    ∧ _pending_block e5 = Some pb.
Proof.
  intros Hpb Hhdr Hst Hroot Hall. unfold commit_block.
  rewrite (bind_of_return _ _ _ _ _ (pending_block_returns e pb Hpb)).
  unfold read_state. run. unfold live_state in Hst. rewrite Hst.
  unfold write_state, chain_state, read_state, latest_block, assert. run.
  rewrite lookup_insert_eq. cbn.
  rewrite bool_decide_eq_true_2 by done. cbn. run.
  rewrite last_snoc. cbn. run.
  rewrite bool_decide_eq_true_2 by (by rewrite Hhdr). cbn. run.
  match goal with |- context [update_mined_records ?f ?n ?h ?r ?o ?i ?t ?e1] =>
    destruct (update_mined_records_returns f n h r o t i e1)
      as (e' & He' & Hc & Hs & Hp & Hh) end.
  { exact Hall. }
  rewrite He'. cbn.
  unfold _generate_state_snapshot, chain_state, read_state, alloc. run.
  eexists. split; [reflexivity|]. cbn. rewrite Hc, Hp. cbn. done.
Qed.

Lemma or_urandom_None (host : Host) (e : Engine) :
  or_urandom host None e
  = (set_urandom_reads (S (urandom_reads e)) e,
     inr (os_urandom host (urandom_reads e))).
Proof. reflexivity. Qed.

Lemma _build_new_pending_block_returns (fork : ForkLoad) (sup : Support)
    (host : Host) (e : Engine) (pb : PendingBlock) (head : Block) :
  accepting fork sup host →
  _pending_block e = Some pb →
  list.last (blocks (chain e)) = Some head →
  ph_number (pb_header pb) = number (header head) →
  ∃ e6 pb',
    _build_new_pending_block_default fork host e = (e6, inr tt)
    ∧ chain e6 = chain e
    ∧ _pending_block e6 = Some pb'
    ∧ ph_number (pb_header pb') = number (header head) + 1
    ∧ ph_timestamp (pb_header pb') = None
    ∧ pb_transactions pb' = [].
Proof.
  intros Hacc Hpb Hhead Hnum.
  unfold _build_new_pending_block_default, _build_new_pending_block.
  unfold latest_block. run. rewrite Hpb. cbn. run. rewrite Hhead. cbn.
  rewrite bool_decide_eq_false_2 by (intros Hne; by apply Hne). cbn. run.
  rewrite Hhead. cbn. run. rewrite Hhead. cbn.
  match goal with |- context [calculate_base_fee_per_gas fork ?a ?b ?c ?d] =>
    destruct (base_fee_returns _ _ _ Hacc a b c d) as [fee ->] end.
  cbn. run. eexists _, _. split; [reflexivity|]. by cbn.
Qed.

(** The pending block once [stamp_pending_block] has run. *)
Lemma stamped_pending_block (host : Host) (e : Engine) (pb : PendingBlock)
    (head : Block) (B : Z) :
  clock_within host B → B + 1 ≤ U256_MAX →
  _pending_block e = Some pb →
  list.last (blocks (chain e)) = Some head →
  timestamp (header head) ≤ B →
  (∀ t, ph_timestamp (pb_header pb) = Some t → t ≤ B) →
  ∃ e0 pb0 ts,
    stamp_pending_block host None e = (e0, inr tt)
    ∧ _pending_block e0 = Some pb0
    ∧ ph_timestamp (pb_header pb0) = Some ts
    ∧ ph_number (pb_header pb0) = ph_number (pb_header pb)
    ∧ pb_transactions pb0 = pb_transactions pb
    ∧ chain e0 = chain e
    ∧ _transactions_map e0 = _transactions_map e
    ∧ ts = match ph_timestamp (pb_header pb) with
           | Some t => t
           | None => mined_timestamp (timestamp (header head))
                       (time_time host (clock_reads e))
           end
    ∧ ts ≤ B + 1.
Proof.
  intros Hclock HB Hpb Hhead Hts Hpre.
  pose proof (stamp_pending_block_returns host e pb head B Hclock HB Hpb Hhead Hts)
    as Hstamp.
  destruct (ph_timestamp (pb_header pb)) as [t|] eqn:Ht.
  - exists e, pb, t. repeat split; try done. specialize (Hpre t eq_refl). lia.
  - eexists _, _, _. split; [exact Hstamp|]. cbn. repeat split; try done.
    destruct (Hclock (clock_reads e)).
    pose proof (mined_timestamp_after (timestamp (header head))
                  (time_time host (clock_reads e))). lia.
Qed.

Lemma buffer_included_empty (fork : ForkLoad) (sup : Support) (host : Host)
    (e : Engine) (pb : PendingBlock) (head : Block) (B : Z) :
  accepting fork sup host →
  clock_within host B → B + 1 ≤ U256_MAX →
  _pending_block e = Some pb → pb_transactions pb = [] →
  list.last (blocks (chain e)) = Some head →
  timestamp (header head) ≤ B →
  (∀ t, ph_timestamp (pb_header pb) = Some t → t ≤ B) →
  buffer_included fork sup host e.
Proof.
  intros Hacc Hclock HB Hpb Htxs Hhead Hts Hpre.
  destruct (stamped_pending_block host e pb head B Hclock HB Hpb Hhead Hts Hpre)
    as (e0 & pb0 & ts & Hstamp & Hpb0 & _ & _ & Htxs0 & _).
  destruct (apply_body_transactions_empty fork sup host e0 pb0 Hacc Hpb0)
    as (e1 & sc & acc & Hbody); [congruence|].
  exists e1, sc, acc, pb. unfold after. rewrite Hstamp. cbn.
  repeat split; try done. rewrite Htxs. constructor.
Qed.

(** One round of [mine_blocks]: mining the pending block, then building
    the next one. *)
Lemma mine_round (fork : ForkLoad) (sup : Support) (host : Host) (e : Engine)
    (pb : PendingBlock) (head : Block) (B : Z) :
  accepting fork sup host →
  clock_within host B → B + 1 ≤ U256_MAX →
  _pending_block e = Some pb →
  list.last (blocks (chain e)) = Some head →
  ph_number (pb_header pb) = number (header head) + 1 →
  timestamp (header head) ≤ B →
  (∀ t, ph_timestamp (pb_header pb) = Some t → t ≤ B) →
  buffer_included fork sup host e →
  ∃ e5 e6 mined blk pb',
    _mine_pending_block fork sup host None e = (e5, inr mined)
    ∧ _build_new_pending_block_default fork host e5 = (e6, inr tt)
    ∧ blocks (chain e5) = blocks (chain e) ++ [blk]
    ∧ chain e6 = chain e5
    ∧ number (header blk) = number (header head) + 1
    ∧ timestamp (header blk)
      = match ph_timestamp (pb_header pb) with
        | Some t => t
        | None => mined_timestamp (timestamp (header head))
                    (time_time host (clock_reads e))
        end
    ∧ timestamp (header blk) ≤ B + 1
    ∧ _pending_block e6 = Some pb'
    ∧ ph_number (pb_header pb') = number (header blk) + 1
    ∧ ph_timestamp (pb_header pb') = None
    ∧ pb_transactions pb' = [].
Proof.
  intros Hacc Hclock HB Hpb Hhead Hnum Hts Hpre Hbuf.
  destruct (stamped_pending_block host e pb head B Hclock HB Hpb Hhead Hts Hpre)
    as (e0 & pb0 & ts & Hstamp & Hpb0 & Hts0 & Hnum0 & Htxs0 & Hchain0 & Htm0
        & Hts_eq & Hts_le).
  destruct Hbuf as (e1 & sc & acc & pb_ & Hpb_ & Hbody & Hall).
  assert (pb_ = pb) as -> by congruence.
  unfold after in Hbody. rewrite Hstamp in Hbody. cbn in Hbody.
  assert (Hhead0 : list.last (blocks (chain e0)) = Some head) by (by rewrite Hchain0).
  destruct (assemble_pending_block_returns fork sup host e0 e1 pb0 head sc acc ts
              Hacc Hpb0 Hts0 Hhead0 Hbody)
    as (e4 & out & hdr & blk & pb4 & Hasm & Hout & Hchain4 & Htm4 & Hpb4 & Hnum4
        & Htxs4 & Hhdr & Hnumh & Htsh).
  destruct (assembled_block_accepted _ _ _ Hacc e0 e4 out hdr blk Hasm)
    as (s' & Hst & Hroot).
  destruct (commit_block_returns fork out hdr blk e4 pb4 s' Hpb4 Hhdr Hst Hroot)
    as (e5 & Hcommit & Hblocks5 & Hpb5).
  { rewrite Htxs4, Htxs0, Hout, Htm4, Htm0. exact Hall. }
  destruct (_build_new_pending_block_returns fork sup host e5 pb4 blk Hacc Hpb5)
    as (e6 & pb' & Hbuild & Hchain6 & Hpb6 & Hnum6 & Hts6 & Htxs6).
  { rewrite Hblocks5. apply last_snoc. }
  { rewrite Hnum4, Hnum0, Hhdr, Hnumh, Hnum0. done. }
  exists e5, e6, pb4, blk, pb'.
  split.
  { unfold _mine_pending_block.
    rewrite (bind_of_return _ _ _ _ _ Hstamp), (bind_of_return _ _ _ _ _ Hasm).
    exact Hcommit. }
  split; [exact Hbuild|].
  rewrite Hblocks5, Hchain4, Hchain0, Hhdr, Hnumh, Htsh, Hnum0, Hnum, <- Hts_eq.
  repeat split; try done.
  rewrite Hnum6, Hhdr, Hnumh, Hnum0, Hnum. done.
Qed.

Lemma mine_blocks_rounds_returns (fork : ForkLoad) (sup : Support) (host : Host)
    (n : nat) (e : Engine) (pb : PendingBlock) (head : Block) (B : Z) :
  accepting fork sup host →
  clock_within host B → B + Z.of_nat n ≤ U256_MAX →
  _pending_block e = Some pb →
  list.last (blocks (chain e)) = Some head →
  ph_number (pb_header pb) = number (header head) + 1 →
  timestamp (header head) ≤ B →
  (∀ t, ph_timestamp (pb_header pb) = Some t → t ≤ B) →
  (n ≠ 0%nat → buffer_included fork sup host e) →
  ∃ e' new,
    mine_blocks_rounds fork sup host n e = (e', inr (header_hashes fork new))
    ∧ blocks (chain e') = blocks (chain e) ++ new
    ∧ length new = n
    ∧ mined_on host (header head) (ph_timestamp (pb_header pb)) new
    ∧ (ph_timestamp (pb_header pb) = None →
       ∀ b, new !! 0%nat = Some b →
       timestamp (header b)
       = mined_timestamp (timestamp (header head))
           (time_time host (clock_reads e))).
Proof.
  intros Hacc Hclock. revert e pb head B Hclock.
  induction n as [|n IH]; intros e pb head B Hclock HB Hpb Hhead Hnum Hts Hpre Hbuf.
  - exists e, []. cbn. rewrite app_nil_r. repeat split; try done.
  - destruct (mine_round fork sup host e pb head B Hacc Hclock)
      as (e5 & e6 & mined & blk & pb' & Hmine & Hbuild & Hblocks5 & Hchain6
          & Hnumb & Htsb & Htsle & Hpb' & Hnum' & Hts' & Htxs');
      try done; [lia|by apply Hbuf|].
    assert (Hhead6 : list.last (blocks (chain e6)) = Some blk)
      by (rewrite Hchain6, Hblocks5; apply last_snoc).
    assert (Hclock' : clock_within host (B + 1))
      by (intros k; destruct (Hclock k); lia).
    destruct (IH e6 pb' blk (B + 1) Hclock') as (e' & new & Hrounds & Hblocks
                                                  & Hlen & Hmined & _);
      try done; [lia|by rewrite Hts'|..].
    { intros Hn. eapply (buffer_included_empty fork sup host e6 pb' blk (B + 1));
        try done; [lia|by rewrite Hts']. }
    exists e', (blk :: new). split.
    { cbn [mine_blocks_rounds].
      rewrite (bind_of_return _ _ _ _ _ Hmine), (bind_of_return _ _ _ _ _ Hbuild).
      rewrite (bind_of_return _ _ _ _ _ (latest_block_returns e6 blk Hhead6)).
      rewrite (bind_of_return _ _ _ _ _ Hrounds). done. }
    split; [by rewrite Hblocks, Hchain6, Hblocks5, <- app_assoc|].
    split; [by cbn; rewrite Hlen|].
    split.
    + cbn. split; [done|]. split; [|by rewrite Hts' in Hmined].
      rewrite Htsb. destruct (ph_timestamp (pb_header pb)); eauto.
    + intros Hnone b [= <-]. by rewrite Htsb, Hnone.
Qed.

Lemma mined_on_lookup (host : Host) (parent : Header) (preset : option Z)
    (new : list Block) (i : nat) (b : Block) :
  mined_on host parent preset new → new !! i = Some b →
  number (header b) = number parent + 1 + Z.of_nat i.
Proof.
  revert parent preset i. induction new as [|b0 new IH]; intros parent preset i;
    [done|].
  cbn. intros (Hn & _ & Hm) Hi. destruct i as [|i].
  - injection Hi as <-. lia.
  - cbn in Hi. rewrite (IH _ _ _ Hm Hi). lia.
Qed.

Lemma mined_on_increasing (host : Host) (parent : Block) (new : list Block)
    (i : nat) (b1 b2 : Block) :
  mined_on host (header parent) None new →
  (parent :: new) !! i = Some b1 → (parent :: new) !! S i = Some b2 →
  ∃ k, timestamp (header b2)
       = mined_timestamp (timestamp (header b1)) (time_time host k)
    ∧ timestamp (header b1) < timestamp (header b2).
Proof.
  revert parent i. induction new as [|b0 new IH]; intros parent i Hm H1 H2.
  - destruct i; done.
  - cbn in Hm. destruct Hm as (_ & [k Hk] & Hm). destruct i as [|i].
    + injection H1 as <-. injection H2 as <-. exists k. split; [done|].
      rewrite Hk. apply mined_timestamp_after.
    + by apply (IH b0 i).
Qed.



(** ** The small instance accepts the assembled blocks *)

Lemma lookup_or_KeyError_inv {A} (name : string) (o : option A)
    (e e' : Engine) (a : A) :
  lookup_or_KeyError name o e = (e', inr a) → e' = e ∧ o = Some a.
Proof. destruct o; [by intros [= <- <-]|discriminate]. Qed.

Lemma update_pending_header_inv (f : PendingHeader → PendingHeader)
    (e e' : Engine) :
  update_pending_header f e = (e', inr tt) →
  ∃ pb, _pending_block e = Some pb
    ∧ _pending_block e'
      = Some (mkPendingBlock (f (pb_header pb)) (pb_transactions pb)
                (pb_ommers pb) (pb_withdrawals pb)).
Proof.
  unfold update_pending_header, pending_block. run.
  destruct (_pending_block e) as [pb|]; [|discriminate]. cbn.
  intros [= <-]. by exists pb.
Qed.

Lemma pending_block_inv (e e' : Engine) (pb : PendingBlock) :
  pending_block e = (e', inr pb) → e' = e ∧ _pending_block e = Some pb.
Proof.
  unfold pending_block. run.
  destruct (_pending_block e) as [pb'|]; [|discriminate]. by intros [= <- <-].
Qed.

(** The state root of the header of an assembled block is the root of a
    state: the one the body validation has computed. *)
Lemma assemble_pending_block_state_root (fork : ForkLoad) (sup : Support)
    (host : Host) (e e' : Engine) (out : ApplyBodyOutput) (hdr : Header)
    (blk : Block) :
  assemble_pending_block fork sup host e = (e', inr (out, hdr, blk)) →
  ∃ s, state_root hdr = fork_state_root fork s.
Proof.
  unfold assemble_pending_block. intros H.
  apply bind_returns in H as (e1 & out1 & Hv & H).
  apply bind_returns in H as (e2 & [] & Hu1 & H).
  apply bind_returns in H as (e3 & wr & Hwr & H).
  apply lookup_or_KeyError_inv in Hwr as [-> _].
  apply bind_returns in H as (e4 & bg & Hbg & H).
  apply lookup_or_KeyError_inv in Hbg as [-> _].
  apply bind_returns in H as (e5 & eg & Heg & H).
  apply lookup_or_KeyError_inv in Heg as [-> _].
  apply bind_returns in H as (e6 & [] & Hu2 & H).
  apply bind_returns in H as (e7 & block & Hb & H).
  apply pending_block_inv in Hb as [-> Hb].
  apply bind_returns in H as (e8 & h & Hh & H).
  injection H as _ <- <- _.
  apply update_pending_header_inv in Hu1 as (pb1 & _ & Hpb2).
  apply update_pending_header_inv in Hu2 as (pb2 & Hpb2' & Hpb6).
  rewrite Hpb2 in Hpb2'. injection Hpb2' as <-.
  rewrite Hb in Hpb6. injection Hpb6 as ->.
  unfold Header_of_dict in Hh. cbn in Hh.
  apply bind_returns in Hh as (? & ts & _ & Hh).
  injection Hh as _ <-. cbn.
  unfold _internal_apply_body_validation in Hv.
  apply bind_returns in Hv as (? & ? & _ & Hv).
  apply bind_returns in Hv as (? & [sc acc] & _ & Hv).
  apply bind_returns in Hv as (? & ? & _ & Hv).
  apply bind_returns in Hv as (? & ? & _ & Hv).
  apply bind_returns in Hv as (? & ? & _ & Hv).
  apply bind_returns in Hv as (? & ? & _ & Hv).
  apply bind_returns in Hv as (? & s & _ & Hv).
  injection Hv as _ <-. cbn. by exists s.
Qed.

Lemma toy_accepting : accepting Toy.fork Toy.sup Toy.host.
Proof.
  split; try done.
  - intros m env s. by eexists.
  - intros gl pgl pgu pbf. by eexists.
  - intros e e1 out hdr blk H.
    apply assemble_pending_block_state_root in H as [s ->].
    eexists. split; reflexivity.
Qed.

Lemma toy_clock_within : clock_within Toy.host 1712000000.
Proof. intros k. cbn. lia. Qed.

Lemma mining_ready_sound (fork : ForkLoad) (sup : Support) (host : Host)
    (e : Engine) (B : Z) :
  mining_ready fork sup host e B = true →
  ∃ pb head,
    _pending_block e = Some pb
    ∧ list.last (blocks (chain e)) = Some head
    ∧ ph_number (pb_header pb) = number (header head) + 1
    ∧ contiguous (blocks (chain e))
    ∧ timestamp (header head) ≤ B
    ∧ ph_timestamp (pb_header pb) = None
    ∧ buffer_included fork sup host e.
Proof.
  unfold mining_ready, buffer_included.
  destruct (_pending_block e) as [pb|]; [|done].
  destruct (list.last (blocks (chain e))) as [head|]; [|done].
  destruct (apply_body_transactions _ _ _ _) as [e1 [x|[sc acc]]]; [done|].
  intros H.
  apply andb_prop in H as [H Hall]. apply andb_prop in H as [H Hnone].
  apply andb_prop in H as [H Hts]. apply andb_prop in H as [Hnum Hcont].
  apply bool_decide_eq_true in Hnum, Hcont, Hts, Hnone.
  exists pb, head. repeat split; try done.
  - intros i b Hb.
    assert (Hi : block_numbers e !! i = Some (number (header b)))
      by (unfold block_numbers; by rewrite list_lookup_fmap, Hb).
    rewrite Hcont in Hi. apply lookup_seqZ in Hi. lia.
  - exists e1, sc, acc, pb. repeat split; try done.
    apply Forall_forall. intros tx Htx.
    pose proof (proj1 (forallb_forall _ _) Hall tx Htx) as Hf.
    apply andb_prop in Hf as [Hf1 Hf2].
    by apply bool_decide_eq_true in Hf1, Hf2.
Qed.



(** ** Operations that leave the backend as it is *)

Lemma reads_ret {A} (a : A) : reads (mret a).
Proof. done. Qed.

Lemma reads_raise {A} (x : Exn) : reads (@raise A x).
Proof. done. Qed.

Lemma reads_gets {A} (f : Engine → A) : reads (gets f).
Proof. done. Qed.

Lemma reads_lift {A} (r : Result A) : reads (lift r).
Proof. done. Qed.

Lemma reads_bind {A B} (m : M A) (f : A → M B) :
  reads m → (∀ a, reads (f a)) → reads (m ≫= f).
Proof.
  intros Hm Hf e. rewrite bind_run. specialize (Hm e).
  destruct (m e) as [e1 [x|a]]; cbn in *; subst; [done|]. apply Hf.
Qed.

Lemma reads_run {A} (m : M A) (e : Engine) : reads m → m e = (e, (m e).2).
Proof. intros H. specialize (H e). destruct (m e). cbn in *. by subst. Qed.

Lemma bind_lift_inr {A B} (a : A) (f : A → M B) (e : Engine) :
  (lift (inr a) ≫= f) e = f a e.
Proof. reflexivity. Qed.

Lemma bind_lift_inl {A B} (x : Exn) (f : A → M B) (e : Engine) :
  (lift (inl x) ≫= f) e = (e, inl x).
Proof. reflexivity. Qed.

Create HintDb reads.

#[global] Hint Resolve reads_ret reads_raise reads_gets reads_lift : reads.

Ltac reads_step :=
  match goal with
  | |- reads (_ ≫= _) => apply reads_bind; [|intros ?]
  | |- reads (if ?b then _ else _) => destruct b
  | |- reads (match ?x with _ => _ end) => destruct x
  | |- reads _ => solve [eauto with reads]
  end.

Ltac solve_reads := repeat reads_step.

Lemma reads_lookup_or_KeyError {A} (name : string) (o : option A) :
  reads (lookup_or_KeyError name o).
Proof. by destruct o. Qed.

Lemma reads_read_state (l : loc) : reads (read_state l).
Proof. done. Qed.

Lemma reads_latest_block : reads latest_block.
Proof. unfold latest_block. solve_reads. Qed.

Lemma reads_pending_block : reads pending_block.
Proof. unfold pending_block. solve_reads. Qed.

Lemma reads_chain_state : reads chain_state.
Proof. done. Qed.

#[global] Hint Resolve reads_lookup_or_KeyError reads_read_state
  reads_latest_block reads_pending_block reads_chain_state : reads.

Lemma reads_get_nonce (a : Address) (v : PyVal) : reads (get_nonce a v).
Proof. done. Qed.

Lemma reads_get_accounts : reads get_accounts.
Proof. done. Qed.

Lemma reads_get_base_fee : reads get_base_fee.
Proof. unfold get_base_fee. solve_reads. Qed.

Lemma reads__max_available_gas : reads _max_available_gas.
Proof. unfold _max_available_gas. solve_reads. Qed.

Lemma reads__check_transaction (fork : ForkLoad) (tx : Transaction)
    (g : option Z) : reads (_check_transaction fork tx g).
Proof. unfold _check_transaction. solve_reads. Qed.

#[global] Hint Resolve reads_get_nonce reads_get_accounts reads_get_base_fee
  reads__max_available_gas reads__check_transaction : reads.

Lemma reads__get_normalized_and_signed_evm_transaction (fork : ForkLoad)
    (sup : Support) (transaction : Dict) :
  reads (_get_normalized_and_signed_evm_transaction fork sup transaction).
Proof. unfold _get_normalized_and_signed_evm_transaction. solve_reads. Qed.

#[global] Hint Resolve reads__get_normalized_and_signed_evm_transaction : reads.

(** ** Looking a block up by its number *)

Lemma block_with_number_cons (b : Block) (bs : list Block) (n : Z) :
  block_with_number (b :: bs) n
  = if bool_decide (number (header b) = n) then Some b
    else block_with_number bs n.
Proof. unfold block_with_number. by rewrite reverse_cons, foldl_app. Qed.

Lemma block_with_number_None (bs : list Block) (n : Z) :
  (∀ b, b ∈ bs → number (header b) ≠ n) → block_with_number bs n = None.
Proof.
  induction bs as [|b bs IH]; intros H; [done|].
  rewrite block_with_number_cons, bool_decide_eq_false_2
    by (apply H, list_elem_of_here).
  apply IH. intros b' Hb'. by apply H, list_elem_of_further.
Qed.

Lemma block_with_number_first (bs : list Block) (n : Z) (i : nat) (b : Block) :
  bs !! i = Some b → number (header b) = n →
  (∀ j b', (j < i)%nat → bs !! j = Some b' → number (header b') ≠ n) →
  block_with_number bs n = Some b.
Proof.
  revert i. induction bs as [|b0 bs IH]; intros i Hi Hn Hfirst; [done|].
  rewrite block_with_number_cons. destruct i as [|i].
  - injection Hi as ->. by rewrite bool_decide_eq_true_2.
  - rewrite bool_decide_eq_false_2 by (by apply (Hfirst 0%nat); [lia|]).
    apply (IH i); [done..|].
    intros j b' Hj Hb'. apply (Hfirst (S j)); [lia|done].
Qed.

(** X1: for an integer, [get_block_by_number] serializes the first block of
    the chain that has that number, as a block that is not pending, and
    raises [BlockNotFound], leaving the backend as it is, when no block of
    the chain has that number; a negative number counts from nowhere. *)
Theorem get_block_by_number_of_integer (sup : Support) (Serialized : Type)
    (serialize_block : Block + PendingBlock → bool → bool → M Serialized)
    (block_number : PyVal) (n : Z) (full_transaction : bool) (e : Engine) :
  history_key block_number = Some n →
  (∀ i b,
     blocks (chain e) !! i = Some b → number (header b) = n →
     (∀ j b', (j < i)%nat → blocks (chain e) !! j = Some b' →
              number (header b') ≠ n) →
     get_block_by_number sup Serialized serialize_block block_number
       full_transaction e
     = serialize_block (inl b) full_transaction false e)
  ∧ ((∀ b, b ∈ blocks (chain e) → number (header b) ≠ n) →
     get_block_by_number sup Serialized serialize_block block_number
       full_transaction e
     = (e, inl (BlockNotFound
                  ("No block found for block number: "
                     +:+ py_str sup block_number +:+ "."))))
  ∧ (contiguous (blocks (chain e)) → n < 0 →
     ∃ msg, get_block_by_number sup Serialized serialize_block block_number
              full_transaction e
            = (e, inl (BlockNotFound msg))).
Proof.
  intros Hkey.
  assert (Hbranch : ∀ r : option Block,
    block_with_number (blocks (chain e)) n = r →
    get_block_by_number sup Serialized serialize_block block_number
      full_transaction e
    = match r with
      | Some b => serialize_block (inl b) full_transaction false e
      | None => (e, inl (BlockNotFound
                  ("No block found for block number: "
                     +:+ py_str sup block_number +:+ ".")))
      end).
  { intros r Hr. unfold get_block_by_number.
    rewrite !bool_decide_eq_false_2 by (by destruct block_number).
    rewrite Hkey. run. rewrite Hr. by destruct r. }
  assert (Hnone : (∀ b, b ∈ blocks (chain e) → number (header b) ≠ n) →
     get_block_by_number sup Serialized serialize_block block_number
       full_transaction e
     = (e, inl (BlockNotFound
                  ("No block found for block number: "
                     +:+ py_str sup block_number +:+ ".")))).
  { intros H. by rewrite (Hbranch None (block_with_number_None _ _ H)). }
  split; [|split; [exact Hnone|]].
  - intros i b Hi Hn Hfirst.
    by rewrite (Hbranch (Some b) (block_with_number_first _ _ _ _ Hi Hn Hfirst)).
  - intros Hc Hneg. eexists. apply Hnone. intros b Hb.
    apply list_elem_of_lookup in Hb as [i Hi]. rewrite (Hc i b Hi). lia.
Qed.

(** X2: a block number that is neither an integer nor one of the names
    latest, earliest and pending finds no block: [get_block_by_number]
    raises [BlockNotFound] and leaves the backend as it is.  The names safe
    and finalized, which the resolution of states accepts, are among
    them. *)
Theorem get_block_by_number_unknown_name (sup : Support) (Serialized : Type)
    (serialize_block : Block + PendingBlock → bool → bool → M Serialized)
    (block_number : PyVal) (full_transaction : bool) (e : Engine) :
  history_key block_number = None →
  block_number ∉ [PyStr "latest"; PyStr "earliest"; PyStr "pending"] →
  get_block_by_number sup Serialized serialize_block block_number
    full_transaction e
  = (e, inl (BlockNotFound
               ("No block found for block number: "
                  +:+ py_str sup block_number +:+ "."))).
Proof.
  intros Hkey Hname. unfold get_block_by_number.
  rewrite !bool_decide_eq_false_2
    by (intros ->; apply Hname; set_solver).
  by rewrite Hkey.
Qed.

Lemma get_block_by_number_of_integer_witness :
  ∃ b,
    history_key (PyInt 1) = Some 1
    ∧ blocks (chain (Scenario.mined 2)) !! 1%nat = Some b
    ∧ number (header b) = 1
    ∧ (∀ j b', (j < 1)%nat → blocks (chain (Scenario.mined 2)) !! j = Some b' →
               number (header b') ≠ 1)
    ∧ get_block_by_number Toy.sup ToyQueries.Serialized ToyQueries.serialize_block
        (PyInt 1) true (Scenario.mined 2)
      = ToyQueries.serialize_block (inl b) true false (Scenario.mined 2).
Proof.
  destruct (blocks (chain (Scenario.mined 2)) !! 1%nat) as [b|] eqn:Hb;
    [|vm_compute in Hb; discriminate].
  assert (Hn : number (header b) = 1)
    by (vm_compute in Hb; injection Hb as <-; reflexivity).
  assert (Hfirst : ∀ j b', (j < 1)%nat →
            blocks (chain (Scenario.mined 2)) !! j = Some b' →
            number (header b') ≠ 1).
  { intros j b' Hj Hb'. destruct j as [|j]; [|lia].
    vm_compute in Hb'. injection Hb' as <-. done. }
  exists b. split; [reflexivity|]. split; [reflexivity|].
  split; [exact Hn|]. split; [exact Hfirst|].
  exact (proj1 (get_block_by_number_of_integer Toy.sup ToyQueries.Serialized
                  ToyQueries.serialize_block (PyInt 1) 1 true (Scenario.mined 2)
                  eq_refl) 1%nat b Hb Hn Hfirst).
Defined.

Lemma get_block_by_number_unknown_name_witness :
  history_key (PyStr "safe") = None
  ∧ (PyStr "safe" ∉ [PyStr "latest"; PyStr "earliest"; PyStr "pending"])
  ∧ get_block_by_number Toy.sup ToyQueries.Serialized ToyQueries.serialize_block
      (PyStr "safe") true (Scenario.mined 2)
    = (Scenario.mined 2,
       inl (BlockNotFound
              ("No block found for block number: "
                 +:+ py_str Toy.sup (PyStr "safe") +:+ "."))).
Proof.
  assert (Hname : PyStr "safe" ∉ [PyStr "latest"; PyStr "earliest"; PyStr "pending"]).
  { intros H. repeat (apply elem_of_cons in H as [H|H]; [discriminate|]).
    by apply elem_of_nil in H. }
  split; [reflexivity|]. split; [exact Hname|].
  exact (get_block_by_number_unknown_name Toy.sup ToyQueries.Serialized
           ToyQueries.serialize_block (PyStr "safe") true (Scenario.mined 2)
           eq_refl Hname).
Defined.

(** ** Sending a signed transaction *)

(** X3: when [TransactionLoad] reads the dictionary and the check of the
    transaction passes, [send_signed_transaction] returns the hash of the
    transaction, appends the transaction to the buffer of the pending block
    and records it under its hash; the chain, the state objects, the receipts
    and the snapshot index are as they were.  The transaction is then found
    by its hash, and its receipt is not, when there
    was none before: a receipt comes with mining. *)
Theorem send_signed_transaction_buffers (fork : ForkLoad) (sup : Support)
    (Serialized : Type)
    (serialize_recorded_transaction : TxRecord → Result Serialized)
    (signed_json_tx : Dict) (block_number : PyVal) (e : Engine)
    (tx : Transaction) (checked : CheckReturn) (pb : PendingBlock) :
  TransactionLoad_read fork signed_json_tx = inr tx →
  _check_transaction fork tx None e = (e, inr checked) →
  _pending_block e = Some pb →
  let tx_hash := _get_tx_hash fork tx in
  ∃ e',
    send_signed_transaction fork sup signed_json_tx block_number e
    = (e', inr tx_hash)
    ∧ _pending_block e'
      = Some (mkPendingBlock (pb_header pb) (pb_transactions pb ++ [tx])
                (pb_ommers pb) (pb_withdrawals pb))
    ∧ _transactions_map e'
      = <[tx_hash := serialize_transaction sup signed_json_tx pb]>
          (_transactions_map e)
    ∧ chain e' = chain e ∧ store e' = store e
    ∧ _receipts_map e' = _receipts_map e
    ∧ _state_history e' = _state_history e
    ∧ get_transaction_by_hash sup Serialized serialize_recorded_transaction
        tx_hash e'
      = (e', serialize_recorded_transaction
               (serialize_transaction sup signed_json_tx pb))
    ∧ (_receipts_map e !! tx_hash = None →
       ∃ msg, get_transaction_receipt sup tx_hash e'
              = (e', inl (TransactionNotFound msg))).
Proof.
  intros Hread Hcheck Hpb tx_hash. unfold send_signed_transaction.
  rewrite Hread, bind_lift_inr, (bind_of_return _ _ _ _ _ Hcheck).
  rewrite (bind_of_return _ _ _ _ _ (pending_block_returns e pb Hpb)). run.
  eexists. split; [reflexivity|]. cbn. repeat split.
  - unfold get_transaction_by_hash. run. fold tx_hash.
    by rewrite lookup_insert_eq.
  - intros Hnone. unfold get_transaction_receipt. run. fold tx_hash.
    rewrite Hnone. eauto.
Qed.

Lemma send_signed_transaction_buffers_witness :
  ∃ tx checked pb,
    TransactionLoad_read Toy.fork (Toy.signed_transfer 1 "02" 1000 0 0) = inr tx
    ∧ _check_transaction Toy.fork tx None Toy.genesis = (Toy.genesis, inr checked)
    ∧ _pending_block Toy.genesis = Some pb
    ∧ ∃ e',
        send_signed_transaction Toy.fork Toy.sup
          (Toy.signed_transfer 1 "02" 1000 0 0) (PyStr "latest") Toy.genesis
        = (e', inr (_get_tx_hash Toy.fork tx))
        ∧ _pending_block e'
          = Some (mkPendingBlock (pb_header pb) (pb_transactions pb ++ [tx])
                    (pb_ommers pb) (pb_withdrawals pb))
        ∧ _transactions_map e'
          = <[_get_tx_hash Toy.fork tx :=
                serialize_transaction Toy.sup (Toy.signed_transfer 1 "02" 1000 0 0) pb]>
              (_transactions_map Toy.genesis)
        ∧ chain e' = chain Toy.genesis ∧ store e' = store Toy.genesis
        ∧ _receipts_map e' = _receipts_map Toy.genesis
        ∧ _state_history e' = _state_history Toy.genesis
        ∧ get_transaction_by_hash Toy.sup TxRecord
            ToyQueries.serialize_recorded_transaction (_get_tx_hash Toy.fork tx) e'
          = (e', ToyQueries.serialize_recorded_transaction
                   (serialize_transaction Toy.sup
                      (Toy.signed_transfer 1 "02" 1000 0 0) pb))
        ∧ (_receipts_map Toy.genesis !! _get_tx_hash Toy.fork tx = None →
           ∃ msg, get_transaction_receipt Toy.sup (_get_tx_hash Toy.fork tx) e'
                  = (e', inl (TransactionNotFound msg))).
Proof.
  destruct (TransactionLoad_read Toy.fork (Toy.signed_transfer 1 "02" 1000 0 0))
    as [x|tx] eqn:Hread; [vm_compute in Hread; discriminate|].
  pose proof (reads_run _ Toy.genesis (reads__check_transaction Toy.fork tx None))
    as Hcheck.
  destruct (_check_transaction Toy.fork tx None Toy.genesis).2 as [x|checked] eqn:Hc.
  { vm_compute in Hread. injection Hread as <-. vm_compute in Hc. discriminate. }
  destruct (_pending_block Toy.genesis) as [pb|] eqn:Hpb;
    [|vm_compute in Hpb; discriminate].
  exists tx, checked, pb. split; [reflexivity|]. split; [exact Hcheck|].
  split; [reflexivity|].
  exact (send_signed_transaction_buffers Toy.fork Toy.sup TxRecord
           ToyQueries.serialize_recorded_transaction
           (Toy.signed_transfer 1 "02" 1000 0 0) (PyStr "latest") Toy.genesis
           tx checked pb Hread Hcheck Hpb).
Defined.

(** X4: a transaction that [TransactionLoad] does not read, or that the
    check of the library rejects, is not buffered: [send_signed_transaction]
    raises what they raise and leaves the backend as it was. *)
Theorem send_signed_transaction_rejected (fork : ForkLoad) (sup : Support)
    (signed_json_tx : Dict) (block_number : PyVal) (e : Engine) (x : Exn) :
  (TransactionLoad_read fork signed_json_tx = inl x
   ∨ ∃ tx, TransactionLoad_read fork signed_json_tx = inr tx
           ∧ snd (_check_transaction fork tx None e) = inl x) →
  send_signed_transaction fork sup signed_json_tx block_number e = (e, inl x).
Proof.
  unfold send_signed_transaction. intros [Hread|(tx & Hread & Hcheck)].
  - by rewrite Hread.
  - rewrite Hread, bind_lift_inr.
    apply bind_of_raise.
    by rewrite (reads_run _ e (reads__check_transaction fork tx None)), Hcheck.
Qed.

Lemma send_signed_transaction_rejected_witness :
  (TransactionLoad_read Toy.fork [("gasLimit", PyStr "0x2000000")]
   = inl (EthereumException "InvalidBlock")
   ∨ ∃ tx, TransactionLoad_read Toy.fork [("gasLimit", PyStr "0x2000000")] = inr tx
           ∧ snd (_check_transaction Toy.fork tx None Toy.genesis)
             = inl (EthereumException "InvalidBlock"))
  ∧ send_signed_transaction Toy.fork Toy.sup [("gasLimit", PyStr "0x2000000")]
      (PyStr "latest") Toy.genesis
    = (Toy.genesis, inl (EthereumException "InvalidBlock")).
Proof.
  assert (H : TransactionLoad_read Toy.fork [("gasLimit", PyStr "0x2000000")]
              = inl (EthereumException "InvalidBlock")
              ∨ ∃ tx, TransactionLoad_read Toy.fork [("gasLimit", PyStr "0x2000000")]
                      = inr tx
                      ∧ snd (_check_transaction Toy.fork tx None Toy.genesis)
                        = inl (EthereumException "InvalidBlock")).
  { right. eexists. split; [reflexivity|]. vm_compute. reflexivity. }
  split; [exact H|].
  exact (send_signed_transaction_rejected Toy.fork Toy.sup
           [("gasLimit", PyStr "0x2000000")] (PyStr "latest") Toy.genesis _ H).
Defined.

(** ** Signing for an account of the backend *)

Lemma get_accounts_run (e : Engine) :
  get_accounts e = (e, inr (elements (dom (_main_trie (live_state e))))).
Proof. reflexivity. Qed.

(** X5: the transaction dictionary is signed only for an account of the
    live state whose key the backend holds.
    [_get_normalized_and_signed_evm_transaction] raises [KeyError] for a
    dictionary without the key from, [ValidationError] for a sender that is
    not an account of the live state, and [KeyError] again for an account of
    the live state of which it has no private key (the contract that genesis
    puts in the state is one); it leaves the backend as it is in each
    case. *)
Theorem signing_needs_account_and_key (fork : ForkLoad) (sup : Support)
    (transaction : Dict) (e : Engine) :
  (dict_get transaction "from" = None →
   _get_normalized_and_signed_evm_transaction fork sup transaction e
   = (e, inl (KeyError "from")))
  ∧ (∀ v, dict_get transaction "from" = Some v →
       (∀ a, v = PyBytes a → _main_trie (live_state e) !! a = None) →
       _get_normalized_and_signed_evm_transaction fork sup transaction e
       = (e, inl (ValidationError NO_VALID_FROM_KEY)))
  ∧ (∀ a, dict_get transaction "from" = Some (PyBytes a) →
       is_Some (_main_trie (live_state e) !! a) →
       (∀ k, k ∈ _account_keys e → canonical_address k ≠ a) →
       _get_normalized_and_signed_evm_transaction fork sup transaction e
       = (e, inl (KeyError "from"))).
Proof.
  unfold _get_normalized_and_signed_evm_transaction.
  split; [|split].
  - by intros ->.
  - intros v -> Hv. cbn. run. rewrite get_accounts_run.
    destruct v; try done.
    rewrite bool_decide_eq_false_2; [done|].
    intros Hin. apply elem_of_elements, elem_of_dom in Hin.
    rewrite (Hv b eq_refl) in Hin. by destruct Hin.
  - intros a -> Ha Hk. cbn. run. rewrite get_accounts_run.
    rewrite bool_decide_eq_true_2
      by (by apply elem_of_elements, elem_of_dom).
    run. unfold _key_lookup.
    assert (Hf : filter (λ k, canonical_address k = a) (_account_keys e) = []).
    { destruct (filter _ _) as [|k ks] eqn:Hks; [done|].
      assert (Hin : k ∈ filter (λ k, canonical_address k = a) (_account_keys e))
        by (rewrite Hks; apply list_elem_of_here).
      apply list_elem_of_filter in Hin as [Hka Hin]. by destruct (Hk k Hin). }
    by rewrite Hf.
Qed.

Lemma signing_needs_account_and_key_witness :
  dict_get [("from", PyBytes (BEACON_ROOTS_CONTRACT_ADDRESS Toy.sup))] "from"
  = Some (PyBytes (BEACON_ROOTS_CONTRACT_ADDRESS Toy.sup))
  ∧ is_Some (_main_trie (live_state Toy.genesis)
               !! BEACON_ROOTS_CONTRACT_ADDRESS Toy.sup)
  ∧ (∀ k, k ∈ _account_keys Toy.genesis →
          canonical_address k ≠ BEACON_ROOTS_CONTRACT_ADDRESS Toy.sup)
  ∧ _get_normalized_and_signed_evm_transaction Toy.fork Toy.sup
      [("from", PyBytes (BEACON_ROOTS_CONTRACT_ADDRESS Toy.sup))] Toy.genesis
    = (Toy.genesis, inl (KeyError "from")).
Proof.
  assert (Ha : is_Some (_main_trie (live_state Toy.genesis)
                          !! BEACON_ROOTS_CONTRACT_ADDRESS Toy.sup))
    by (vm_compute; eauto).
  assert (Hk : ∀ k, k ∈ _account_keys Toy.genesis →
                    canonical_address k ≠ BEACON_ROOTS_CONTRACT_ADDRESS Toy.sup).
  { intros k Hin. vm_compute in Hin.
    repeat (apply elem_of_cons in Hin as [->|Hin]; [by vm_compute|]).
    by apply elem_of_nil in Hin. }
  split; [reflexivity|]. split; [exact Ha|]. split; [exact Hk|].
  exact (proj2 (proj2 (signing_needs_account_and_key Toy.fork Toy.sup
                         [("from", PyBytes (BEACON_ROOTS_CONTRACT_ADDRESS Toy.sup))]
                         Toy.genesis))
           (BEACON_ROOTS_CONTRACT_ADDRESS Toy.sup) eq_refl Ha Hk).
Defined.

(** ** Normalizing a transaction dictionary for the library *)

Lemma dict_set_values (P : PyVal → Prop) (d : Dict) (k : string) (v : PyVal) :
  Forall (λ kv, P kv.2) d → P v → Forall (λ kv, P kv.2) (dict_set d k v).
Proof.
  intros Hd Hv. induction d as [|[k' v'] d IH]; cbn.
  - by constructor.
  - apply Forall_cons_1 in Hd as [Hv' Hd].
    case_bool_decide; constructor; auto.
Qed.

Lemma eels_normalize_item_value (sup : Support) (key : string) (value : PyVal)
    (k : string) (v : PyVal) :
  eels_normalize_item sup key value = inr (k, v) → not_an_int v.
Proof.
  unfold eels_normalize_item.
  repeat (case_bool_decide || case_match); intros; simplify_eq; done.
Qed.

Lemma eels_normalize_item_returns (sup : Support) (key : string) (value : PyVal) :
  (key ∈ hex_keys → ∃ b, value = PyBytes b) →
  ∃ k v, eels_normalize_item sup key value = inr (k, v).
Proof.
  intros H. unfold eels_normalize_item. case_bool_decide as Hgas.
  - subst key. case_bool_decide; eauto.
  - fold hex_keys. case_bool_decide as Hhex.
    + destruct (H Hhex) as [b ->]. case_bool_decide; eauto.
    + case_bool_decide; eauto.
Qed.

Lemma eels_normalize_item_raises (sup : Support) (key : string) (value : PyVal) :
  key ∈ hex_keys → (∀ b, value ≠ PyBytes b) →
  ∃ msg, eels_normalize_item sup key value = inl (AttributeError msg).
Proof.
  intros Hhex Hv. unfold eels_normalize_item. fold hex_keys.
  rewrite bool_decide_eq_false_2
    by (intros ->; unfold hex_keys in Hhex;
        repeat (apply elem_of_cons in Hhex as [Hhex|Hhex]; [discriminate|]);
        by apply elem_of_nil in Hhex).
  rewrite bool_decide_eq_true_2 by done.
  destruct value; eauto. by destruct (Hv b).
Qed.

Lemma eels_normalize_items_returns (sup : Support) (items normalized : Dict) :
  (∀ k v, (k, v) ∈ items → k ∈ hex_keys → ∃ b, v = PyBytes b) →
  Forall (λ kv, not_an_int kv.2) normalized →
  ∃ d, eels_normalize_items sup items normalized = inr d
       ∧ Forall (λ kv, not_an_int kv.2) d.
Proof.
  revert normalized. induction items as [|[key value] items IH];
    intros normalized Hitems Hn; cbn.
  - eauto.
  - destruct (eels_normalize_item_returns sup key value) as (k & v & Hkv).
    { apply Hitems, list_elem_of_here. }
    rewrite Hkv. apply IH.
    + intros k' v' Hin. by apply Hitems, list_elem_of_further.
    + apply dict_set_values; [done|]. by eapply eels_normalize_item_value.
Qed.

Lemma eels_normalize_items_raises (sup : Support) (items normalized : Dict)
    (key : string) (value : PyVal) :
  (key, value) ∈ items → key ∈ hex_keys → (∀ b, value ≠ PyBytes b) →
  ∃ msg, eels_normalize_items sup items normalized = inl (AttributeError msg).
Proof.
  revert normalized. induction items as [|[k0 v0] items IH];
    intros normalized Hin Hhex Hv.
  - by apply elem_of_nil in Hin.
  - cbn. destruct (eels_normalize_item sup k0 v0) as [x|[k v]] eqn:Hitem.
    + revert Hitem. unfold eels_normalize_item.
      repeat (case_bool_decide || case_match); intros; simplify_eq; eauto.
    + apply elem_of_cons in Hin as [Heq|Hin]; [|by apply IH].
      injection Heq as <- <-.
      destruct (eels_normalize_item_raises sup key value Hhex Hv) as [msg Hmsg].
      congruence.
Qed.



(** ** The address of a created contract *)

(** X7: the address [_extract_contract_address] returns is an address of
    the state after the transaction that the state before it does not have
    and that holds code; it returns nothing exactly when there is no such
    address, and when there is exactly one, it returns that one.  A contract
    created at an address the state already had is not found. *)
Theorem extract_contract_address_is_new (pre_state post_state : State) :
  (∀ a, _extract_contract_address pre_state post_state = Some a →
     _main_trie pre_state !! a = None
     ∧ is_Some (_main_trie post_state !! a)
     ∧ code (get_account post_state a) ≠ [])
  ∧ (_extract_contract_address pre_state post_state = None ↔
     ∀ a, is_Some (_main_trie post_state !! a) →
          _main_trie pre_state !! a = None →
          code (get_account post_state a) = [])
  ∧ (∀ a,
       _main_trie pre_state !! a = None →
       is_Some (_main_trie post_state !! a) →
       code (get_account post_state a) ≠ [] →
       (∀ a', is_Some (_main_trie post_state !! a') →
              _main_trie pre_state !! a' = None →
              code (get_account post_state a') ≠ [] → a' = a) →
       _extract_contract_address pre_state post_state = Some a).
Proof.
  unfold _extract_contract_address.
  set (new := filter _ _).
  assert (Hnew : ∀ a, a ∈ new ↔
    (_main_trie pre_state !! a = None ∧ code (get_account post_state a) ≠ [])
    ∧ is_Some (_main_trie post_state !! a)).
  { intros a. unfold new.
    by rewrite list_elem_of_filter, elem_of_elements, elem_of_dom. }
  assert (Hhead : ∀ a, list.head new = Some a → a ∈ new).
  { intros a. destruct new as [|a0 l]; [done|].
    intros [= ->]. apply list_elem_of_here. }
  assert (Hnil : list.head new = None → ∀ a, a ∉ new).
  { destruct new as [|a0 l]; [|done]. intros _ a. apply not_elem_of_nil. }
  assert (Hsome : ∀ a, list.head new = Some a →
     _main_trie pre_state !! a = None
     ∧ is_Some (_main_trie post_state !! a)
     ∧ code (get_account post_state a) ≠ []).
  { intros a Ha. apply Hhead, Hnew in Ha. tauto. }
  split; [exact Hsome|]. split; [split|].
  - intros Hnone a Hpost Hpre.
    destruct (decide (code (get_account post_state a) = [])) as [|Hc]; [done|].
    destruct (Hnil Hnone a). by apply Hnew.
  - intros H. destruct (list.head new) as [a|] eqn:Ha; [|done].
    destruct (Hsome a eq_refl) as (Hpre & Hpost & Hc). by destruct Hc; apply H.
  - intros a Hpre Hpost Hc Huniq.
    destruct (list.head new) as [a0|] eqn:Ha.
    + f_equal. apply Huniq; by apply Hsome.
    + destruct (Hnil eq_refl a). by apply Hnew.
Qed.

Lemma set_account_lookup (s : State) (a a' : Address) (acc : Account) :
  _main_trie (set_account s a acc) !! a'
  = if decide (a = a') then Some acc else _main_trie s !! a'.
Proof.
  cbn. destruct (decide (a = a')) as [->|Hne].
  - by rewrite lookup_insert_eq.
  - by rewrite lookup_insert_ne.
Qed.

Lemma extract_contract_address_is_new_witness :
  _main_trie (live_state Toy.genesis) !! Toy.be 77 = None
  ∧ is_Some (_main_trie toy_post_state !! Toy.be 77)
  ∧ code (get_account toy_post_state (Toy.be 77)) ≠ []
  ∧ (∀ a', is_Some (_main_trie toy_post_state !! a') →
           _main_trie (live_state Toy.genesis) !! a' = None →
           code (get_account toy_post_state a') ≠ [] → a' = Toy.be 77)
  ∧ _extract_contract_address (live_state Toy.genesis) toy_post_state
    = Some (Toy.be 77).
Proof.
  assert (H1 : _main_trie (live_state Toy.genesis) !! Toy.be 77 = None)
    by (vm_compute; reflexivity).
  assert (H2 : is_Some (_main_trie toy_post_state !! Toy.be 77))
    by (unfold toy_post_state; rewrite set_account_lookup, decide_True by done;
        eauto).
  assert (H3 : code (get_account toy_post_state (Toy.be 77)) ≠ [])
    by (unfold toy_post_state, get_account;
        by rewrite set_account_lookup, decide_True by done).
  assert (H4 : ∀ a', is_Some (_main_trie toy_post_state !! a') →
             _main_trie (live_state Toy.genesis) !! a' = None →
             code (get_account toy_post_state a') ≠ [] → a' = Toy.be 77).
  { intros a' Hpost Hpre _. unfold toy_post_state in Hpost.
    rewrite set_account_lookup in Hpost.
    destruct (decide (Toy.be 77 = a')) as [Heq|Hne]; [symmetry; exact Heq|].
    rewrite decide_False, Hpre in Hpost by exact Hne.
    destruct Hpost as [acc Hacc]. discriminate Hacc. }
  split; [exact H1|]. split; [exact H2|]. split; [exact H3|]. split; [exact H4|].
  exact (proj2 (proj2 (extract_contract_address_is_new (live_state Toy.genesis)
                         toy_post_state))
           (Toy.be 77) H1 H2 H3 H4).
Defined.

(** ** Attributes an operation leaves as they are *)

Lemma keeps_ret {A B} (f : Engine → B) (a : A) : keeps f (mret a).
Proof. by intros e e' r [= <- <-]. Qed.

Lemma keeps_raise {A B} (f : Engine → B) (x : Exn) : keeps f (@raise A x).
Proof. by intros e e' r [= <- <-]. Qed.

Lemma keeps_gets {A B} (f : Engine → B) (g : Engine → A) : keeps f (gets g).
Proof. by intros e e' r [= <- <-]. Qed.

Lemma keeps_lift {A B} (f : Engine → B) (r : Result A) : keeps f (lift r).
Proof. by intros e e' r' [= <- <-]. Qed.

Lemma keeps_bind {A B C} (f : Engine → C) (m : M A) (k : A → M B) :
  keeps f m → (∀ a, keeps f (k a)) → keeps f (m ≫= k).
Proof.
  intros Hm Hk e e' r. rewrite bind_run.
  destruct (m e) as [e1 [x|a]] eqn:He.
  - intros [= <- <-]. by eapply Hm.
  - intros H. apply Hk in H. apply Hm in He. congruence.
Qed.

Lemma keeps_modify {B} (f : Engine → B) (g : Engine → Engine) :
  (∀ e, f (g e) = f e) → keeps f (modify g).
Proof. intros Hg e e' r [= <- <-]. apply Hg. Qed.

Lemma keeps_reads {A B} (f : Engine → B) (m : M A) : reads m → keeps f m.
Proof. intros Hm e e' r H. specialize (Hm e). rewrite H in Hm. cbn in Hm. by subst. Qed.

Lemma keeps_alloc {B} (f : Engine → B) (s : State) :
  (∀ g e, f (set_store g e) = f e) → keeps f (alloc s).
Proof. intros Hf e e' r [= <- <-]. apply Hf. Qed.

Lemma keeps_int_time_time {B} (f : Engine → B) (host : Host) :
  (∀ n e, f (set_clock_reads n e) = f e) → keeps f (int_time_time host).
Proof. intros Hf e e' r [= <- <-]. apply Hf. Qed.

Lemma keeps_urandom32 {B} (f : Engine → B) (host : Host) :
  (∀ n e, f (set_urandom_reads n e) = f e) → keeps f (urandom32 host).
Proof. intros Hf e e' r [= <- <-]. apply Hf. Qed.

(** Proves [keeps f m] for an operation made of the steps above, for an
    attribute [f] that the steps do not write. *)
Ltac keeps_step :=
  match goal with
  | |- keeps _ (_ ≫= _) => apply keeps_bind; [|intros ?]
  | |- keeps _ (mret _) => apply keeps_ret
  | |- keeps _ (raise _) => apply keeps_raise
  | |- keeps _ (gets _) => apply keeps_gets
  | |- keeps _ (lift _) => apply keeps_lift
  | |- keeps _ (modify _) => apply keeps_modify; intros ?; reflexivity
  | |- keeps _ (alloc _) => apply keeps_alloc; intros ? ?; reflexivity
  | |- keeps _ (int_time_time _) => apply keeps_int_time_time; intros ? ?; reflexivity
  | |- keeps _ (urandom32 _) => apply keeps_urandom32; intros ? ?; reflexivity
  | |- keeps _ (write_state _ _) => apply keeps_modify; intros ?; reflexivity
  | |- keeps _ (read_state _) => apply keeps_gets
  | |- keeps _ (if ?b then _ else _) => destruct b
  | |- keeps _ (match ?x with _ => _ end) => destruct x
  | |- keeps _ _ => solve [apply keeps_reads; eauto with reads]
  end.

Ltac solve_keeps := repeat keeps_step.

(** Turns a run [H : m e = (e', r)] into [f e' = f e]. *)
Ltac keeps_in f H tac :=
  match type of H with
  | ?m ?e = (?e', ?r) =>
      let K := fresh "K" in
      assert (K : keeps f m) by tac;
      apply K in H; clear K
  end.

Lemma keeps__generate_genesis_state_for_keys_from {B} (f : Engine → B)
    (sup : Support) (account_keys : list PrivateKey)
    (overrides : option AccountOverrides) (acc : gmap Address Account) :
  keeps f (_generate_genesis_state_for_keys_from sup account_keys overrides acc).
Proof.
  revert acc. induction account_keys as [|private_key rest IH]; intros acc; cbn.
  - apply keeps_ret.
  - apply keeps_bind; [apply keeps_lift|]. intros a. apply IH.
Qed.

Lemma keeps_pending__generate_genesis_state (sup : Support)
    (overrides : option AccountOverrides) (num_accounts : option Z)
    (mnemonic hd_path : option string) :
  keeps _pending_block
    (_generate_genesis_state sup overrides num_accounts mnemonic hd_path).
Proof.
  unfold _generate_genesis_state, _generate_genesis_state_for_keys.
  apply keeps_bind; [solve_keeps|]. intros _.
  apply keeps__generate_genesis_state_for_keys_from.
Qed.

Lemma _generate_genesis_block_inv (host : Host) (e e' : Engine) (b : Block) :
  _generate_genesis_block host e = (e', inr b) →
  number (header b) = 0 ∧ transactions b = []
  ∧ _pending_block e' = _pending_block e.
Proof.
  unfold _generate_genesis_block. intros H.
  apply bind_returns in H as (e1 & now & Hnow & H).
  apply bind_returns in H as (e2 & ts & Hts & H).
  injection H as <- <-. injection Hnow as <- _.
  unfold lift in Hts. by injection Hts as <- _.
Qed.

(** X8: [reset_to_genesis] does not return on an instance that has a
    pending block with a number other than 0, that is, on any instance that
    has been reset before: the new chain has the genesis block as its head,
    and [_build_new_pending_block] refuses to replace a pending block that is
    not at the number of the head. *)
Theorem reset_to_genesis_needs_new_instance (fork : ForkLoad) (sup : Support)
    (host : Host) (genesis_params : option (gmap string PyVal))
    (genesis_state : option (gmap Address Account))
    (num_accounts : option Z) (mnemonic hd_path : option string)
    (e : Engine) (pb : PendingBlock) :
  _pending_block e = Some pb →
  ph_number (pb_header pb) ≠ 0 →
  ∃ e' x,
    reset_to_genesis fork sup host genesis_params genesis_state num_accounts
      mnemonic hd_path e
    = (e', inl x).
Proof.
  intros Hpb Hnum.
  destruct (reset_to_genesis fork sup host genesis_params genesis_state
              num_accounts mnemonic hd_path e) as [e' [x|[]]] eqn:H; [eauto|].
  exfalso. unfold reset_to_genesis in H.
  apply bind_returns in H as (e1 & [] & H1 & H).
  keeps_in (_pending_block) H1 solve_keeps.
  apply bind_returns in H as (e2 & gs & H2 & H).
  keeps_in (_pending_block) H2
    ltac:(destruct genesis_state;
          [apply keeps_ret|apply keeps_pending__generate_genesis_state]).
  apply bind_returns in H as (e3 & gs' & H3 & H).
  keeps_in (_pending_block) H3 ltac:(unfold _get_default_account_state; solve_keeps).
  assert (Hp3 : _pending_block e3 = Some pb) by congruence.
  apply bind_returns in H as (e4 & l & H4 & H).
  injection H4 as <- _.
  apply bind_returns in H as (e5 & [] & H5 & H). injection H5 as <-.
  apply bind_returns in H as (e6 & [] & H6 & H). injection H6 as <-.
  apply bind_returns in H as (e7 & genesis_block & H7 & H).
  apply _generate_genesis_block_inv in H7 as (Hn7 & _ & Hp7).
  apply bind_returns in H as (e8 & cid & H8 & H).
  unfold lift in H8. injection H8 as <- _.
  apply bind_returns in H as (e9 & [] & H9 & H). injection H9 as <-.
  apply bind_returns in H as (e10 & snapshot & H10 & H).
  injection H10 as <- _.
  apply bind_returns in H as (e11 & [] & H11 & H). injection H11 as <-.
  apply bind_returns in H as (e12 & [] & H12 & _).
  revert H12.
  unfold _build_new_pending_block_default, _build_new_pending_block, latest_block.
  run. rewrite Hp7. cbn. rewrite Hp3. cbn. run.
  rewrite Hn7. rewrite bool_decide_eq_true_2 by (intros Heq; by apply Hnum).
  done.
Qed.

Lemma reset_to_genesis_needs_new_instance_witness :
  ∃ pb,
    _pending_block (Scenario.mined 2) = Some pb
    ∧ ph_number (pb_header pb) ≠ 0
    ∧ ∃ e' x,
        reset_to_genesis Toy.fork Toy.sup Toy.host None None (Some 2) None None
          (Scenario.mined 2)
        = (e', inl x).
Proof.
  destruct (_pending_block (Scenario.mined 2)) as [pb|] eqn:Hpb;
    [|vm_compute in Hpb; discriminate Hpb].
  assert (Hn : ph_number (pb_header pb) ≠ 0).
  { pose proof Hpb as Hpb'. vm_compute in Hpb'. injection Hpb' as <-.
    intros H0. vm_compute in H0. discriminate H0. }
  exists pb. split; [reflexivity|]. split; [exact Hn|].
  exact (reset_to_genesis_needs_new_instance Toy.fork Toy.sup Toy.host None None
           (Some 2) None None (Scenario.mined 2) pb Hpb Hn).
Defined.

(** ** Genesis on a new instance *)

Lemma _generate_genesis_state_for_keys_from_returns (sup : Support)
    (account_keys : list PrivateKey) (acct : Account)
    (acc : gmap Address Account) (e : Engine) :
  merge_genesis_overrides sup {| balance := 0; code := []; nonce := 0 |} funded
  = inr acct →
  _generate_genesis_state_for_keys_from sup account_keys None acc e
  = (e, inr (foldl (λ m k, <[canonical_address k := acct]> m) acc account_keys)).
Proof.
  intros Hm. revert acc. induction account_keys as [|k rest IH]; intros acc; [done|].
  cbn [_generate_genesis_state_for_keys_from foldl].
  unfold _get_default_account_state. cbn [overrides_or].
  change (overrides_truthy _) with true. cbn iota. fold funded.
  rewrite Hm, bind_lift_inr. apply IH.
Qed.

Lemma foldl_insert_keys_lookup (acct : Account) (account_keys : list PrivateKey)
    (acc : gmap Address Account) (a : Address) :
  foldl (λ m k, <[canonical_address k := acct]> m) acc account_keys !! a
  = if bool_decide (a ∈ canonical_address <$> account_keys) then Some acct
    else acc !! a.
Proof.
  revert acc. induction account_keys as [|k rest IH]; intros acc; [done|].
  cbn [foldl]. rewrite IH, fmap_cons.
  destruct (decide (a ∈ canonical_address <$> rest)) as [Hin|Hnin].
  - rewrite !bool_decide_eq_true_2; [done|by apply list_elem_of_further|done].
  - rewrite (bool_decide_eq_false_2 _ Hnin).
    destruct (decide (a = canonical_address k)) as [->|Hne].
    + rewrite lookup_insert_eq, bool_decide_eq_true_2; [done|apply list_elem_of_here].
    + rewrite lookup_insert_ne by done.
      rewrite bool_decide_eq_false_2; [done|].
      intros [?|?]%elem_of_cons; done.
Qed.

Lemma genesis_accounts_lookup (fork : ForkLoad) (sup : Support)
    (account_keys : list PrivateKey) (acct beacon : Account) (a : Address) :
  genesis_accounts fork sup account_keys acct beacon !! a
  = if is_after_fork fork "ethereum.cancun"
       && bool_decide (a = BEACON_ROOTS_CONTRACT_ADDRESS sup)
    then Some beacon
    else if bool_decide (a ∈ canonical_address <$> account_keys)
    then Some acct
    else None.
Proof.
  unfold genesis_accounts.
  destruct (is_after_fork fork "ethereum.cancun"); cbn.
  - case_bool_decide as Ha.
    + subst a. by rewrite lookup_insert_eq.
    + rewrite lookup_insert_ne by done. by rewrite foldl_insert_keys_lookup.
  - by rewrite foldl_insert_keys_lookup.
Qed.

Lemma map_fold_set_account (m : gmap Address Account) :
  map_fold (λ address account s, set_account s address account) empty_State m
  = {| _main_trie := m; _storage_tries := ∅; _tx_snapshots := [] |}.
Proof.
  apply (map_fold_weak_ind
           (λ r m, r = {| _main_trie := m; _storage_tries := ∅; _tx_snapshots := [] |})).
  - done.
  - intros a acc m' r _ ->. done.
Qed.

Lemma fresh_insert_ne (m : gmap loc State) (l : loc) (s : State) :
  fresh (dom (<[l := s]> m)) ≠ l.
Proof.
  intros Heq. apply (is_fresh (dom (<[l := s]> m))). rewrite Heq. set_solver.
Qed.

Lemma _generate_genesis_block_returns (host : Host) (e : Engine) :
  0 ≤ time_time host (clock_reads e) ≤ U256_MAX →
  ∃ b,
    _generate_genesis_block host e = (set_clock_reads (S (clock_reads e)) e, inr b)
    ∧ number (header b) = 0
    ∧ timestamp (header b) = time_time host (clock_reads e)
    ∧ gas_limit (header b) = GENESIS_GAS_LIMIT
    ∧ gas_used (header b) = 0
    ∧ base_fee_per_gas (header b) = 1000000000.
Proof.
  intros Hclock. unfold _generate_genesis_block, int_time_time.
  rewrite bind_run. cbv beta iota. rewrite U256_returns by done.
  rewrite bind_lift_inr. eexists. split; [reflexivity|]. done.
Qed.

(** X9: on an instance that has no pending block yet, and when the
    defaults of an account merge with the overrides, the clock reads a
    value that fits 256 bits and the library gives a base fee,
    [reset_to_genesis] returns: the chain is the genesis block alone, with
    number 0; the accounts of the live state are the account with a balance
    of 10**18 at the address of every key, and from Cancun on the contract of
    the beacon roots; the snapshot recorded for block 0 is a copy of the live
    state; no transaction or receipt is recorded; the pending block has
    number 1, no timestamp and no transaction; and the keys are added to the
    keys the class holds. *)
Theorem reset_to_genesis_new_instance (fork : ForkLoad) (sup : Support)
    (host : Host) (num_accounts : option Z) (mnemonic hd_path : option string)
    (e : Engine) (acct beacon : Account) (fee : Z) :
  _pending_block e = None →
  merge_genesis_overrides sup {| balance := 0; code := []; nonce := 0 |} funded
  = inr acct →
  (is_after_fork fork "ethereum.cancun" = true →
   merge_genesis_overrides sup {| balance := 0; code := []; nonce := 0 |}
     (beacon_roots_contract sup)
   = inr beacon) →
  0 ≤ time_time host (clock_reads e) ≤ U256_MAX →
  calculate_base_fee_per_gas fork GENESIS_GAS_LIMIT GENESIS_GAS_LIMIT 0 1000000000
  = inr fee →
  let account_keys := genesis_account_keys sup num_accounts mnemonic hd_path in
  ∃ e' genesis_block pb',
    reset_to_genesis fork sup host None None num_accounts mnemonic hd_path e
    = (e', inr tt)
    ∧ blocks (chain e') = [genesis_block]
    ∧ number (header genesis_block) = 0
    ∧ timestamp (header genesis_block) = time_time host (clock_reads e)
    ∧ (∀ a, _main_trie (live_state e') !! a
            = if is_after_fork fork "ethereum.cancun"
                 && bool_decide (a = BEACON_ROOTS_CONTRACT_ADDRESS sup)
              then Some beacon
              else if bool_decide (a ∈ canonical_address <$> account_keys)
              then Some acct
              else None)
    ∧ _storage_tries (live_state e') = ∅
    ∧ recorded_state e' 0 = Some (live_state e')
    ∧ _state_history e' !! 0 ≠ Some (state (chain e'))
    ∧ _transactions_map e' = ∅ ∧ _receipts_map e' = ∅ ∧ _snapshots e' = ∅
    ∧ _pending_block e' = Some pb'
    ∧ ph_number (pb_header pb') = 1
    ∧ ph_timestamp (pb_header pb') = None
    ∧ pb_transactions pb' = []
    ∧ _account_keys e' = _account_keys e ++ account_keys.
Proof.
  intros Hpb Hacct Hbeacon Hclock Hfee account_keys.
  unfold reset_to_genesis. run.
  unfold _generate_genesis_state, _generate_genesis_state_for_keys.
  fold (genesis_account_keys sup num_accounts mnemonic hd_path). fold account_keys.
  run. rewrite (_generate_genesis_state_for_keys_from_returns _ _ _ _ _ Hacct).
  cbn.
  set (of_keys := foldl _ ∅ account_keys).
  assert (Hgs : ∀ e0,
    (if is_after_fork fork "ethereum.cancun"
     then
       a ← _get_default_account_state sup (Some (beacon_roots_contract sup));
       mret (<[BEACON_ROOTS_CONTRACT_ADDRESS sup := a]> of_keys)
     else mret of_keys) e0
    = (e0, inr (genesis_accounts fork sup account_keys acct beacon))).
  { intros e0. unfold genesis_accounts. fold of_keys.
    destruct (is_after_fork fork "ethereum.cancun") eqn:Hc; [|done].
    unfold _get_default_account_state. cbn [overrides_or].
    change (overrides_truthy (beacon_roots_contract sup)) with true. cbn iota.
    by rewrite (Hbeacon eq_refl), bind_lift_inr. }
  fold (beacon_roots_contract sup). rewrite bind_run, Hgs. clear Hgs.
  rewrite map_fold_set_account.
  unfold alloc. run.
  destruct (_generate_genesis_block_returns host
              (set_receipts_map ∅ (set_transactions_map ∅
                 (set_store <[fresh (dom (store e)) :=
                    {| _main_trie := genesis_accounts fork sup account_keys acct beacon;
                       _storage_tries := ∅; _tx_snapshots := [] |}]>
                    (set_account_keys (_account_keys e ++ account_keys) e))))
              Hclock)
    as (genesis_block & Hgb & Hnum & Hts & Hgl & Hgu & Hbf).
  rewrite Hgb. cbn.
  change (U64 1) with (@inr Exn Z 1). rewrite bind_lift_inr. run.
  unfold _generate_state_snapshot, chain_state, read_state, alloc. run.
  rewrite lookup_insert_eq. cbn.
  unfold _build_new_pending_block_default, _build_new_pending_block, latest_block.
  run. rewrite Hpb. cbn. run.
  rewrite Hgl, Hgu, Hbf, Hfee. cbn. run.
  eexists _, _, _. split; [reflexivity|]. cbn.
  unfold live_state, recorded_state. cbn.
  rewrite lookup_insert_eq. cbn. rewrite lookup_insert_eq.
  rewrite lookup_insert_ne, lookup_insert_eq by apply fresh_insert_ne. cbn.
  repeat split; try done.
  - intros a. apply genesis_accounts_lookup.
  - intros [= Heq]. by apply fresh_insert_ne in Heq.
  - by rewrite Hnum.
Qed.

Lemma reset_to_genesis_new_instance_witness :
  _pending_block class_attributes = None
  ∧ merge_genesis_overrides Toy.sup {| balance := 0; code := []; nonce := 0 |} funded
    = inr {| nonce := 0; balance := 10 ^ 18; code := [] |}
  ∧ (is_after_fork Toy.fork "ethereum.cancun" = true →
     merge_genesis_overrides Toy.sup {| balance := 0; code := []; nonce := 0 |}
       (beacon_roots_contract Toy.sup)
     = inr {| nonce := 0; balance := 0; code := BEACON_ROOTS_CONTRACT_CODE Toy.sup |})
  ∧ 0 ≤ time_time Toy.host (clock_reads class_attributes) ≤ U256_MAX
  ∧ calculate_base_fee_per_gas Toy.fork GENESIS_GAS_LIMIT GENESIS_GAS_LIMIT 0
      1000000000
    = inr 1000000000
  ∧ ∃ e' genesis_block pb',
      reset_to_genesis Toy.fork Toy.sup Toy.host None None (Some 2) None None
        class_attributes
      = (e', inr tt)
      ∧ blocks (chain e') = [genesis_block]
      ∧ number (header genesis_block) = 0
      ∧ timestamp (header genesis_block)
        = time_time Toy.host (clock_reads class_attributes)
      ∧ (∀ a, _main_trie (live_state e') !! a
              = if is_after_fork Toy.fork "ethereum.cancun"
                   && bool_decide (a = BEACON_ROOTS_CONTRACT_ADDRESS Toy.sup)
                then Some {| nonce := 0; balance := 0;
                             code := BEACON_ROOTS_CONTRACT_CODE Toy.sup |}
                else if bool_decide
                          (a ∈ canonical_address
                                 <$> genesis_account_keys Toy.sup (Some 2) None None)
                then Some {| nonce := 0; balance := 10 ^ 18; code := [] |}
                else None)
      ∧ _storage_tries (live_state e') = ∅
      ∧ recorded_state e' 0 = Some (live_state e')
      ∧ _state_history e' !! 0 ≠ Some (state (chain e'))
      ∧ _transactions_map e' = ∅ ∧ _receipts_map e' = ∅ ∧ _snapshots e' = ∅
      ∧ _pending_block e' = Some pb'
      ∧ ph_number (pb_header pb') = 1
      ∧ ph_timestamp (pb_header pb') = None
      ∧ pb_transactions pb' = []
      ∧ _account_keys e'
        = _account_keys class_attributes
          ++ genesis_account_keys Toy.sup (Some 2) None None.
Proof.
  assert (H1 : merge_genesis_overrides Toy.sup
                 {| balance := 0; code := []; nonce := 0 |} funded
               = inr {| nonce := 0; balance := 10 ^ 18; code := [] |})
    by reflexivity.
  assert (H2 : is_after_fork Toy.fork "ethereum.cancun" = true →
     merge_genesis_overrides Toy.sup {| balance := 0; code := []; nonce := 0 |}
       (beacon_roots_contract Toy.sup)
     = inr {| nonce := 0; balance := 0; code := BEACON_ROOTS_CONTRACT_CODE Toy.sup |})
    by (intros _; reflexivity).
  assert (H3 : 0 ≤ time_time Toy.host (clock_reads class_attributes) ≤ U256_MAX)
    by (vm_compute; split; discriminate).
  split; [reflexivity|]. split; [exact H1|]. split; [exact H2|].
  split; [exact H3|]. split; [reflexivity|].
  exact (reset_to_genesis_new_instance Toy.fork Toy.sup Toy.host (Some 2) None None
           class_attributes _ _ 1000000000 eq_refl H1 H2 H3 eq_refl).
Defined.

(** ** Adding an account *)

(** X10: for a private key that [eth_keys] accepts, [add_account] adds the
    key to the keys of the backend, where it is the key that signs for its
    address from then on, and puts the default account at that address in the
    live state: whatever the address held before is replaced, and the other
    accounts and the storage stay as they are.  When the key is refused
    nothing changes. *)
Theorem add_account_sets_default_account (sup : Support)
    (KeyAPI_PrivateKey : Bytes → Result PrivateKey) (private_key : Bytes)
    (e : Engine) :
  (∀ pkey acct,
     KeyAPI_PrivateKey private_key = inr pkey →
     merge_genesis_overrides sup {| balance := 0; code := []; nonce := 0 |}
       no_overrides
     = inr acct →
     ∃ e',
       add_account sup KeyAPI_PrivateKey private_key e = (e', inr tt)
       ∧ _main_trie (live_state e') !! canonical_address pkey = Some acct
       ∧ (∀ a, a ≠ canonical_address pkey →
               _main_trie (live_state e') !! a = _main_trie (live_state e) !! a)
       ∧ _storage_tries (live_state e') = _storage_tries (live_state e)
       ∧ _account_keys e' = _account_keys e ++ [pkey]
       ∧ _key_lookup (_account_keys e') (canonical_address pkey) = Some pkey
       ∧ chain e' = chain e
       ∧ _pending_block e' = _pending_block e
       ∧ _state_history e' = _state_history e)
  ∧ (∀ x, KeyAPI_PrivateKey private_key = inl x →
       add_account sup KeyAPI_PrivateKey private_key e = (e, inl x)).
Proof.
  unfold add_account. split.
  - intros pkey acct Hkey Hacct. rewrite Hkey, bind_lift_inr. run.
    rewrite Hacct. unfold read_state, write_state. run.
    eexists. split; [reflexivity|]. unfold live_state. cbn.
    rewrite lookup_insert_eq. cbn. rewrite lookup_insert_eq.
    repeat split; try done.
    + intros a Ha. by rewrite lookup_insert_ne.
    + unfold _key_lookup. rewrite list.filter_app, filter_cons_True by done.
      rewrite filter_nil. apply last_snoc.
  - intros x Hkey. by rewrite Hkey.
Qed.

Lemma add_account_sets_default_account_witness :
  ToyQueries.PrivateKey_of_bytes (Toy.be 2) = inr (mkPrivateKey 1 (Toy.be 2))
  ∧ merge_genesis_overrides Toy.sup {| balance := 0; code := []; nonce := 0 |}
      no_overrides
    = inr {| nonce := 0; balance := 0; code := [] |}
  ∧ ∃ e',
      add_account Toy.sup ToyQueries.PrivateKey_of_bytes (Toy.be 2) Toy.genesis
      = (e', inr tt)
      ∧ _main_trie (live_state e') !! canonical_address (mkPrivateKey 1 (Toy.be 2))
        = Some {| nonce := 0; balance := 0; code := [] |}
      ∧ (∀ a, a ≠ canonical_address (mkPrivateKey 1 (Toy.be 2)) →
              _main_trie (live_state e') !! a
              = _main_trie (live_state Toy.genesis) !! a)
      ∧ _storage_tries (live_state e') = _storage_tries (live_state Toy.genesis)
      ∧ _account_keys e' = _account_keys Toy.genesis ++ [mkPrivateKey 1 (Toy.be 2)]
      ∧ _key_lookup (_account_keys e')
          (canonical_address (mkPrivateKey 1 (Toy.be 2)))
        = Some (mkPrivateKey 1 (Toy.be 2))
      ∧ chain e' = chain Toy.genesis
      ∧ _pending_block e' = _pending_block Toy.genesis
      ∧ _state_history e' = _state_history Toy.genesis.
Proof.
  split; [reflexivity|]. split; [reflexivity|].
  exact (proj1 (add_account_sets_default_account Toy.sup
                  ToyQueries.PrivateKey_of_bytes (Toy.be 2) Toy.genesis)
           (mkPrivateKey 1 (Toy.be 2)) _ eq_refl eq_refl).
Defined.

(** ** Mining after [time_travel] *)

Lemma time_travel_returns (to_timestamp : Z) (e : Engine) (pb : PendingBlock) :
  _pending_block e = Some pb →
  ∃ pb1,
    time_travel to_timestamp e = (set_pending_block (Some pb1) e, inr tt)
    ∧ ph_timestamp (pb_header pb1) = Some to_timestamp
    ∧ ph_number (pb_header pb1) = ph_number (pb_header pb)
    ∧ pb_transactions pb1 = pb_transactions pb
    ∧ pb_withdrawals pb1 = pb_withdrawals pb.
Proof.
  intros Hpb. unfold time_travel.
  rewrite (bind_of_return _ _ _ _ _ (pending_block_returns e pb Hpb)).
  eexists. split; [reflexivity|]. done.
Qed.



(** ** Finding a block by its hash *)

Lemma linked_parent_hashes (fork : ForkLoad) (b0 bl : Block) (bs : list Block) :
  linked fork (b0 :: bs) = true →
  list.last (b0 :: bs) = Some bl →
  ((λ b, parent_hash (header b)) <$> (b0 :: bs))
    ++ [compute_header_hash fork (header bl)]
  = parent_hash (header b0) :: header_hashes fork (b0 :: bs).
Proof.
  revert b0. induction bs as [|b1 bs IH]; intros b0 Hl Hlast.
  - by injection Hlast as <-.
  - cbn in Hl. apply andb_prop in Hl as [Hp Hl]. apply bool_decide_eq_true in Hp.
    change (list.last (b0 :: b1 :: bs)) with (list.last (b1 :: bs)) in Hlast.
    specialize (IH b1 Hl Hlast).
    rewrite fmap_cons, <- app_comm_cons. f_equal.
    rewrite IH, Hp. done.
Qed.

Lemma py_index_nat {A} (l : list A) (i : nat) (a : A) (e : Engine) :
  l !! i = Some a → py_index l (Z.of_nat i) e = (e, inr a).
Proof.
  intros Hi. unfold py_index.
  destruct (Z.of_nat i <? 0) eqn:Hneg; [apply Z.ltb_lt in Hneg; lia|].
  rewrite Hneg, Nat2Z.id, Hi. done.
Qed.

Lemma find_block_by_hash_from (fork : ForkLoad) (e : Engine) (j : nat)
    (b : Block) (n k : nat) :
  NoDup (header_hashes fork (blocks (chain e))) →
  ZERO_HASH32 ∉ header_hashes fork (blocks (chain e)) →
  blocks (chain e) !! j = Some b →
  (k + n = j)%nat →
  find_block_by_hash fork (compute_header_hash fork (header b))
    (Z.of_nat k + 1) (header_hashes fork (drop k (blocks (chain e)))) e
  = (e, inr (Some b)).
Proof.
  intros Hnd Hz Hj. revert k. induction n as [|n IH]; intros k Hk.
  - assert (k = j) as -> by lia.
    rewrite (drop_S _ _ _ Hj). unfold header_hashes at 1. rewrite fmap_cons.
    cbn [find_block_by_hash].
    rewrite bool_decide_eq_false_2.
    2:{ intros Heq. apply Hz. rewrite <- Heq. unfold header_hashes.
        apply list_elem_of_fmap. eexists. split; [done|].
        by eapply list_elem_of_lookup_2. }
    rewrite bool_decide_eq_true_2 by done. run.
    replace (Z.of_nat j + 1 - 1) with (Z.of_nat j) by lia.
    rewrite (py_index_nat _ _ _ _ Hj). cbn.
    by rewrite bool_decide_eq_false_2 by (intros Hne; by apply Hne).
  - destruct (lookup_lt_is_Some_2 (blocks (chain e)) k) as [bk Hbk].
    { apply lookup_lt_Some in Hj. lia. }
    rewrite (drop_S _ _ _ Hbk). unfold header_hashes at 1. rewrite fmap_cons.
    fold (header_hashes fork (drop (S k) (blocks (chain e)))).
    cbn [find_block_by_hash].
    rewrite bool_decide_eq_false_2.
    2:{ intros Heq. apply Hz. rewrite <- Heq. unfold header_hashes.
        apply list_elem_of_fmap. eexists. split; [done|].
        by eapply list_elem_of_lookup_2. }
    rewrite bool_decide_eq_false_2.
    2:{ intros Heq. assert (k = j); [|lia].
        eapply NoDup_lookup; [exact Hnd| |];
          unfold header_hashes; rewrite list_lookup_fmap.
        - by rewrite Hbk.
        - by rewrite Hj, Heq. }
    replace (Z.of_nat k + 1 + 1) with (Z.of_nat (S k) + 1) by lia.
    apply IH. lia.
Qed.

(** X12: on a chain of at most 255 blocks that are linked by their parent
    hashes and have distinct hashes, none of which is the zero hash or the
    parent hash of the first block, [get_block_by_hash] returns, for the hash
    of a block of the chain, that block, and leaves the backend as it is. *)
Theorem get_block_by_hash_finds_block (fork : ForkLoad) (sup : Support)
    (e : Engine) (j : nat) (b : Block) (full_transaction : bool) :
  get_last_256_block_hashes fork (chain e)
  = recent_block_hashes fork (blocks (chain e)) →
  (length (blocks (chain e)) ≤ 255)%nat →
  linked fork (blocks (chain e)) = true →
  NoDup (header_hashes fork (blocks (chain e))) →
  ZERO_HASH32 ∉ header_hashes fork (blocks (chain e)) →
  (∀ b0, blocks (chain e) !! 0%nat = Some b0 →
         parent_hash (header b0) ∉ header_hashes fork (blocks (chain e))) →
  blocks (chain e) !! j = Some b →
  get_block_by_hash fork sup (compute_header_hash fork (header b))
    full_transaction e
  = (e, inr b).
Proof.
  intros Hlist Hlen Hlinked Hnd Hz Hp Hj.
  unfold get_block_by_hash. run. rewrite Hlist. unfold recent_block_hashes.
  destruct (blocks (chain e)) as [|b0 bs] eqn:Hbs; [done|].
  replace (length (b0 :: bs) - 255)%nat with 0%nat by lia. rewrite drop_0.
  destruct (list.last (b0 :: bs)) as [bl|] eqn:Hlast;
    [|by apply last_None in Hlast].
  rewrite (linked_parent_hashes fork b0 bl bs Hlinked Hlast).
  assert (Hfind : find_block_by_hash fork (compute_header_hash fork (header b)) 1
                    (header_hashes fork (b0 :: bs)) e = (e, inr (Some b))).
  { pose proof (find_block_by_hash_from fork e j b j 0) as Hf.
    rewrite Hbs in Hf. by apply Hf. }
  assert (Hh : compute_header_hash fork (header b)
               ∈ header_hashes fork (b0 :: bs)).
  { unfold header_hashes. apply list_elem_of_fmap. eexists. split; [done|].
    by eapply list_elem_of_lookup_2. }
  cbn [find_block_by_hash]. case_bool_decide as H0.
  - change (0 + 1) with 1. by rewrite Hfind.
  - rewrite bool_decide_eq_false_2.
    + change (0 + 1) with 1. by rewrite Hfind.
    + intros Heq. apply (Hp b0 eq_refl). by rewrite Heq.
Qed.

Lemma toy_recent_block_hashes (c : BlockChain) :
  get_last_256_block_hashes Toy.fork c = recent_block_hashes Toy.fork (blocks c).
Proof. reflexivity. Qed.

Lemma get_block_by_hash_finds_block_witness :
  ∃ b,
    get_last_256_block_hashes Toy.fork (chain (Scenario.mined 3))
    = recent_block_hashes Toy.fork (blocks (chain (Scenario.mined 3)))
    ∧ (length (blocks (chain (Scenario.mined 3))) ≤ 255)%nat
    ∧ linked Toy.fork (blocks (chain (Scenario.mined 3))) = true
    ∧ NoDup (header_hashes Toy.fork (blocks (chain (Scenario.mined 3))))
    ∧ (ZERO_HASH32 ∉ header_hashes Toy.fork (blocks (chain (Scenario.mined 3))))
    ∧ (∀ b0, blocks (chain (Scenario.mined 3)) !! 0%nat = Some b0 →
             parent_hash (header b0)
             ∉ header_hashes Toy.fork (blocks (chain (Scenario.mined 3))))
    ∧ blocks (chain (Scenario.mined 3)) !! 1%nat = Some b
    ∧ get_block_by_hash Toy.fork Toy.sup (compute_header_hash Toy.fork (header b))
        true (Scenario.mined 3)
      = (Scenario.mined 3, inr b).
Proof.
  assert (H1 := toy_recent_block_hashes (chain (Scenario.mined 3))).
  assert (H2 : (length (blocks (chain (Scenario.mined 3))) ≤ 255)%nat)
    by (vm_compute; lia).
  assert (H3 : linked Toy.fork (blocks (chain (Scenario.mined 3))) = true)
    by (vm_compute; reflexivity).
  assert (H4 : NoDup (header_hashes Toy.fork (blocks (chain (Scenario.mined 3)))))
    by (apply (bool_decide_unpack _); vm_compute; exact I).
  assert (H5 : ZERO_HASH32
               ∉ header_hashes Toy.fork (blocks (chain (Scenario.mined 3))))
    by (apply (bool_decide_unpack _); vm_compute; exact I).
  assert (H6 : ∀ b0, blocks (chain (Scenario.mined 3)) !! 0%nat = Some b0 →
             parent_hash (header b0)
             ∉ header_hashes Toy.fork (blocks (chain (Scenario.mined 3)))).
  { intros b0 Hb0. vm_compute in Hb0. injection Hb0 as <-.
    apply (bool_decide_unpack _). vm_compute. exact I. }
  destruct (blocks (chain (Scenario.mined 3)) !! 1%nat) as [b|] eqn:Hb;
    [|vm_compute in Hb; discriminate Hb].
  exists b. split; [exact H1|]. split; [exact H2|]. split; [exact H3|].
  split; [exact H4|]. split; [exact H5|]. split; [exact H6|].
  split; [reflexivity|].
  exact (get_block_by_hash_finds_block Toy.fork Toy.sup (Scenario.mined 3) 1 b
           true H1 H2 H3 H4 H5 H6 Hb).
Defined.

(** ** State objects an operation leaves as they are *)

Lemma after_bind {A B} (m : M A) (f : A → M B) (e : Engine) :
  after (m ≫= f) e
  = match (m e).2 with
    | inl _ => after m e
    | inr a => after (f a) (after m e)
    end.
Proof. unfold after. rewrite bind_run. by destruct (m e) as [e1 [x|a]]. Qed.

Lemma safe_bind_with {A B} (I : Engine → Prop) (D : gset loc) (Q : A → Prop)
    (m : M A) (f : A → M B) :
  safe I D m →
  (∀ e a, D ⊆ dom (store e) → I e → (m e).2 = inr a → Q a) →
  (∀ a, Q a → safe I D (f a)) →
  safe I D (m ≫= f).
Proof.
  intros Hm HQ Hf e HD HI. rewrite after_bind.
  destruct (Hm e HD HI) as [Hs HI1].
  destruct (m e).2 as [x|a] eqn:Hr; [done|].
  assert (HD1 : D ⊆ dom (store (after m e))).
  { intros l Hl. apply elem_of_dom. rewrite (Hs l Hl). apply elem_of_dom. by apply HD. }
  destruct (Hf a (HQ e a HD HI Hr) (after m e) HD1 HI1) as [Hs2 HI2].
  split; [|done]. intros l Hl. by rewrite (Hs2 l Hl), (Hs l Hl).
Qed.

Lemma safe_bind {A B} (I : Engine → Prop) (D : gset loc) (m : M A) (f : A → M B) :
  safe I D m → (∀ a, safe I D (f a)) → safe I D (m ≫= f).
Proof.
  intros Hm Hf. apply (safe_bind_with I D (λ _, True)); [done|done|].
  intros a _. apply Hf.
Qed.

Lemma safe_keeps {A} (I : Engine → Prop) (D : gset loc) (m : M A) :
  of_chain I → keeps store m → keeps chain m → safe I D m.
Proof.
  intros HI Hs Hc e HD Hi. unfold after.
  destruct (m e) as [e' r] eqn:He. cbn.
  rewrite (Hs _ _ _ He). split; [done|].
  apply (HI e); [|done]. by apply (Hc _ _ _ He).
Qed.

Lemma safe_same_after {A B} (I : Engine → Prop) (D : gset loc) (m : M A)
    (m' : M B) :
  (∀ e, after m' e = after m e) → safe I D m → safe I D m'.
Proof. intros H Hm e HD HI. rewrite H. by apply Hm. Qed.

Lemma safe_write_state (I : Engine → Prop) (D : gset loc) (l : loc) (s : State) :
  of_chain I → l ∉ D → safe I D (write_state l s).
Proof.
  intros HI Hl e HD Hi. unfold after. cbn. split.
  - intros l' Hl'. apply lookup_insert_ne. by intros ->.
  - by apply (HI e).
Qed.

Lemma safe_alloc (I : Engine → Prop) (D : gset loc) (s : State) :
  of_chain I → safe I D (alloc s).
Proof.
  intros HI e HD Hi. unfold after. cbn. split.
  - intros l Hl. apply lookup_insert_ne. intros Heq.
    apply (is_fresh (dom (store e))). rewrite Heq. by apply HD.
  - by apply (HI e).
Qed.

Lemma alloc_fresh (D : gset loc) (s : State) (e : Engine) (a : loc) :
  D ⊆ dom (store e) → (alloc s e).2 = inr a → a ∉ D.
Proof.
  intros HD [= <-] Hin. apply (is_fresh (dom (store e))). by apply HD.
Qed.

Lemma of_chain_True : of_chain (λ _, True).
Proof. done. Qed.

Lemma of_chain_live_at (l : loc) : of_chain (live_at l).
Proof. intros e e' H. unfold live_at. by rewrite H. Qed.

Lemma of_chain_head_is (head : Block) : of_chain (head_is head).
Proof. intros e e' H. unfold head_is. by rewrite H. Qed.

Create HintDb safe.

#[global] Hint Resolve of_chain_True of_chain_live_at of_chain_head_is : safe.

(** Proves [safe I D m] step by step; a step that writes to a state object
    needs the location to be known outside of [D]. *)
Ltac safe_step :=
  match goal with
  | |- safe _ _ (_ ≫= _) => apply safe_bind; [|intros ?]
  | |- safe _ _ (write_state _ _) =>
      apply safe_write_state; [solve [eauto with safe]|assumption]
  | |- safe _ _ (alloc _) => apply safe_alloc; solve [eauto with safe]
  | |- safe _ _ (if ?b then _ else _) => destruct b
  | |- safe _ _ (match ?x with _ => _ end) => destruct x
  | |- safe _ _ _ => solve [eauto with safe]
  | |- safe _ _ _ =>
      solve [apply safe_keeps; [solve [eauto with safe]|solve_keeps|solve_keeps]]
  end.

Ltac solve_safe := repeat safe_step.

Lemma safe__generate_state_snapshot (I : Engine → Prop) (D : gset loc) :
  of_chain I → safe I D _generate_state_snapshot.
Proof. intros HI. unfold _generate_state_snapshot. solve_safe. Qed.

Lemma _generate_state_snapshot_run (e : Engine) :
  _generate_state_snapshot e
  = (set_store <[fresh (dom (store e)) := copy_of (live_state e)]> e,
     inr (fresh (dom (store e)))).
Proof. reflexivity. Qed.

Lemma _generate_state_snapshot_fresh (D : gset loc) (e : Engine) (a : loc) :
  D ⊆ dom (store e) → (_generate_state_snapshot e).2 = inr a → a ∉ D.
Proof.
  rewrite _generate_state_snapshot_run. cbn. intros HD [= <-] Hin.
  apply (is_fresh (dom (store e))). by apply HD.
Qed.

#[global] Hint Resolve safe__generate_state_snapshot : safe.

Lemma reads_inv {A} (m : M A) (e e' : Engine) (r : Result A) :
  reads m → m e = (e', r) → e' = e.
Proof. intros Hm H. specialize (Hm e). rewrite H in Hm. done. Qed.

Lemma keeps_bind_raise {A B C} (f : Engine → C) (x : Exn) (k : A → M B) :
  keeps f (raise x ≫= k).
Proof. by intros e e' r [= <- <-]. Qed.

Lemma safe_bind_raise {A B} (I : Engine → Prop) (D : gset loc) (x : Exn)
    (k : A → M B) :
  safe I D (raise x ≫= k).
Proof. by intros e HD HI. Qed.

Lemma safe__get_state_for_block_number (I : Engine → Prop) (D : gset loc)
    (sup : Support) (v : PyVal) :
  of_chain I → safe I D (_get_state_for_block_number sup v).
Proof. intros HI. unfold _get_state_for_block_number. solve_safe. Qed.

#[global] Hint Resolve safe__get_state_for_block_number : safe.

(** Whatever its arguments, [synthetic_tx_environment] writes to no state
    object that exists: it makes a copy at most. *)
Lemma safe_synthetic_tx_environment (I : Engine → Prop) (D : gset loc)
    (fork : ForkLoad) (sup : Support) (host : Host) (tx : Transaction)
    (state_ : option loc) (block_number : option Z) :
  of_chain I →
  safe I D (synthetic_tx_environment fork sup host tx state_ block_number).
Proof.
  intros HI. unfold synthetic_tx_environment.
  apply safe_bind; [solve_safe|]. intros head.
  apply safe_bind.
  - case_bool_decide.
    + solve_safe.
    + destruct state_; [apply safe_bind_raise|]. solve_safe.
  - intros [[[chain_ l] block_header] gas_available]. solve_safe.
Qed.

#[global] Hint Resolve safe_synthetic_tx_environment : safe.

(** The state of the environment is the state object that is handed over,
    when one is. *)
Lemma synthetic_tx_environment_given_state (fork : ForkLoad) (sup : Support)
    (host : Host) (tx : Transaction) (l : loc) (e e' : Engine)
    (env : Environment) :
  synthetic_tx_environment fork sup host tx (Some l) None e = (e', inr env) →
  env_state env = l.
Proof.
  intros H. unfold synthetic_tx_environment in H.
  apply bind_returns in H as (e0 & head & _ & H).
  rewrite bool_decide_eq_true_2 in H by (by left).
  apply bind_returns in H as (e1 & [[[chain_ state_] block_header] gas_available]
                              & Hbranch & H).
  assert (state_ = l) as ->.
  { apply bind_returns in Hbranch as (e2 & c & _ & Hbranch).
    apply bind_returns in Hbranch as (e3 & [] & _ & Hbranch).
    apply bind_returns in Hbranch as (e4 & l' & Hl' & Hbranch).
    injection Hl' as _ <-.
    apply bind_returns in Hbranch as (e5 & pb & _ & Hbranch).
    apply bind_returns in Hbranch as (e6 & g & _ & Hbranch).
    by injection Hbranch as _ _ <- _ _. }
  apply bind_returns in H as (e2 & head' & _ & H).
  apply bind_returns in H as (e3 & now & _ & H).
  apply bind_returns in H as (e4 & check_tx_return & _ & H).
  cbn in H. repeat case_match; try discriminate; by injection H as _ <-.
Qed.

(** On the number of the head, the state of the environment is a copy of
    the live state, at a location that held no state object. *)
Lemma synthetic_tx_environment_head_state (fork : ForkLoad) (sup : Support)
    (host : Host) (tx : Transaction) (n : Z) (e e' : Engine) (head : Block)
    (env : Environment) :
  list.last (blocks (chain e)) = Some head →
  n = number (header head) →
  synthetic_tx_environment fork sup host tx None (Some n) e = (e', inr env) →
  env_state env = fresh (dom (store e))
  ∧ store e' = <[fresh (dom (store e)) := copy_of (live_state e)]> (store e)
  ∧ env_number env = number (header head)
  ∧ ∃ pb, _pending_block e = Some pb
          ∧ env_time env = ph_timestamp (pb_header pb)
          ∧ env_gas_limit env = ph_gas_limit (pb_header pb)
          ∧ env_coinbase env = ph_coinbase (pb_header pb).
Proof.
  intros Hhead -> H. unfold synthetic_tx_environment in H.
  rewrite (bind_of_return _ _ _ _ _ (latest_block_returns e head Hhead)) in H.
  rewrite bool_decide_eq_true_2 in H by (by right).
  apply bind_returns in H as (e1 & [[[chain_ state_] block_header] gas_available]
                              & Hbranch & H).
  apply bind_returns in Hbranch as (e2 & c & Hc & Hbranch).
  injection Hc as <- _.
  apply bind_returns in Hbranch as (e3 & [] & H3 & Hbranch).
  rewrite bool_decide_eq_false_2 in H3 by (by intros [? _]).
  injection H3 as <-.
  apply bind_returns in Hbranch as (e4 & l' & Hl' & Hbranch).
  rewrite _generate_state_snapshot_run in Hl'. injection Hl' as <- <-.
  apply bind_returns in Hbranch as (e5 & pb & Hpb & Hbranch).
  apply pending_block_inv in Hpb as [-> Hpb]. cbn in Hpb.
  apply bind_returns in Hbranch as (e6 & g & Hg & Hbranch).
  apply (reads_inv _ _ _ _ reads__max_available_gas) in Hg as ->.
  injection Hbranch as <- <- <- <- _.
  apply bind_returns in H as (e2 & head' & Hhead' & H).
  rewrite (latest_block_returns _ head) in Hhead' by done.
  injection Hhead' as <- <-.
  apply bind_returns in H as (e3 & now & Hnow & H).
  injection Hnow as <- _.
  apply bind_returns in H as (e4 & check_tx_return & Hcheck & H).
  apply (reads_inv _ _ _ _ (reads__check_transaction fork tx _)) in Hcheck as ->.
  assert (Hnum : int_or (Some (number (header head))) (number (header head))
                 = number (header head))
    by (cbn; by destruct (_ =? 0)).
  rewrite Hnum in H. cbn in H.
  repeat case_match; try discriminate; injection H as <- <-; cbn;
    (split; [done|]; split; [done|]; split; [done|]; by exists pb).
Qed.

(** ** Calls and estimates on the head of the chain *)

Lemma safe__generate_transaction_env_for_block_number (I : Engine → Prop)
    (D : gset loc) (fork : ForkLoad) (sup : Support) (host : Host)
    (transaction : Dict) (n : Z) :
  of_chain I →
  safe I D (_generate_transaction_env_for_block_number fork sup host transaction n).
Proof. intros HI. unfold _generate_transaction_env_for_block_number. solve_safe. Qed.

Lemma safe__get_synthetic_env_and_tx_for_block_number (I : Engine → Prop)
    (D : gset loc) (fork : ForkLoad) (sup : Support) (host : Host)
    (transaction : Dict) (v : PyVal) :
  of_chain I →
  safe I D (_get_synthetic_env_and_tx_for_block_number fork sup host transaction v).
Proof.
  intros HI. unfold _get_synthetic_env_and_tx_for_block_number.
  apply safe_bind; [solve_safe|]. intros v'.
  destruct (history_key v') as [n|]; [|solve_safe].
  apply (safe_same_after I D
           (_generate_transaction_env_for_block_number fork sup host transaction n)).
  - intros e. unfold after.
    destruct (_generate_transaction_env_for_block_number _ _ _ _ _ e)
      as [e' [[]|r]]; done.
  - by apply safe__generate_transaction_env_for_block_number.
Qed.

#[global] Hint Resolve safe__get_synthetic_env_and_tx_for_block_number : safe.

(** The environment of a call or an estimate on the head of the chain
    works on a copy of the live state, at a location that held no state
    object. *)
Lemma head_environment_state (fork : ForkLoad) (sup : Support) (host : Host)
    (transaction : Dict) (v : PyVal) (e e' : Engine) (head : Block)
    (env : Environment) (tx : Transaction) :
  head_is head e → names_head head v →
  _get_synthetic_env_and_tx_for_block_number fork sup host transaction v e
  = (e', inr (env, tx)) →
  env_state env = fresh (dom (store e)).
Proof.
  intros Hhead Hv H. unfold _get_synthetic_env_and_tx_for_block_number in H.
  apply bind_returns in H as (e1 & v' & Hv' & H).
  assert (e1 = e ∧ history_key v' = Some (number (header head))) as [-> Hkey].
  { destruct Hv as [Hname|[Hkey|[-> H0]]].
    - rewrite bool_decide_eq_true_2 in Hv' by done.
      rewrite (bind_of_return _ _ _ _ _ (latest_block_returns e head Hhead)) in Hv'.
      by injection Hv' as <- <-.
    - rewrite !bool_decide_eq_false_2 in Hv'.
      + by injection Hv' as <- <-.
      + intros ->. done.
      + intros Hin. repeat (apply elem_of_cons in Hin as [->|Hin]; [done|]).
        by apply elem_of_nil in Hin.
    - rewrite bool_decide_eq_false_2 in Hv'.
      + rewrite bool_decide_eq_true_2 in Hv' by done.
        injection Hv' as <- <-. by rewrite H0.
      + intros Hin. repeat (apply elem_of_cons in Hin as [Hin|Hin]; [done|]).
        by apply elem_of_nil in Hin. }
  rewrite Hkey in H.
  destruct (_generate_transaction_env_for_block_number fork sup host transaction
              (number (header head)) e) as [e2 [x|[env' tx']]] eqn:Hgen.
  { by destruct x. }
  injection H as <- <- <-.
  unfold _generate_transaction_env_for_block_number in Hgen.
  apply bind_returns in Hgen as (e3 & signed & Hs & Hgen).
  apply (reads_inv _ _ _ _
           (reads__get_normalized_and_signed_evm_transaction fork sup transaction))
    in Hs as ->.
  apply bind_returns in Hgen as (e4 & signed_tx & Hl & Hgen).
  unfold lift in Hl. injection Hl as <- _.
  apply bind_returns in Hgen as (e5 & env5 & Henv & Hgen).
  apply (synthetic_tx_environment_head_state _ _ _ _ _ _ _ head) in Henv
    as (Hst & _); [|done..].
  apply bind_returns in Hgen as (e6 & b & _ & Hgen).
  apply bind_returns in Hgen as (e7 & c & _ & Hgen).
  by injection Hgen as _ <- _.
Qed.

Lemma fresh_outside (D : gset loc) (e : Engine) :
  D ⊆ dom (store e) → fresh (dom (store e)) ∉ D.
Proof. intros HD Hin. apply (is_fresh (dom (store e))). by apply HD. Qed.

Lemma safe_call_on_head (D : gset loc) (fork : ForkLoad) (sup : Support)
    (host : Host) (transaction : Dict) (v : PyVal) (head : Block) :
  names_head head v →
  safe (head_is head) D (call fork sup host transaction v).
Proof.
  intros Hv. unfold call.
  apply (safe_bind_with _ _ (λ p, env_state p.1 ∉ D)).
  - solve_safe.
  - intros e [env tx] HD Hhead Hr. cbn.
    destruct (_get_synthetic_env_and_tx_for_block_number _ _ _ _ _ e)
      as [e' r] eqn:Hrun. cbn in Hr. subst r.
    rewrite (head_environment_state _ _ _ _ _ _ _ _ _ _ Hhead Hv Hrun).
    by apply fresh_outside.
  - intros [env tx] Hq. cbn in Hq. solve_safe.
Qed.

Lemma safe_estimate_gas_on_head (D : gset loc) (fork : ForkLoad) (sup : Support)
    (host : Host) (transaction : Dict) (v : PyVal) (head : Block) :
  names_head head v →
  safe (head_is head) D (estimate_gas fork sup host transaction v).
Proof.
  intros Hv. unfold estimate_gas.
  apply safe_bind; [solve_safe|]. intros g.
  apply (safe_bind_with _ _ (λ p, env_state p.1 ∉ D)).
  - solve_safe.
  - intros e [env tx] HD Hhead Hr. cbn.
    destruct (_get_synthetic_env_and_tx_for_block_number _ _ _ _ _ e)
      as [e' r] eqn:Hrun. cbn in Hr. subst r.
    rewrite (head_environment_state _ _ _ _ _ _ _ _ _ _ Hhead Hv Hrun).
    by apply fresh_outside.
  - intros [env tx] Hq. cbn in Hq. solve_safe.
Qed.

Lemma preserves__generate_transaction_env_for_block_number (fork : ForkLoad)
    (sup : Support) (host : Host) (transaction : Dict) (n : Z) :
  preserves (_generate_transaction_env_for_block_number fork sup host transaction n).
Proof.
  unfold _generate_transaction_env_for_block_number,
    _get_normalized_and_signed_evm_transaction, get_accounts, get_nonce,
    get_base_fee.
  solve_preserves.
Qed.

Lemma preserves__get_synthetic_env_and_tx_for_block_number (fork : ForkLoad)
    (sup : Support) (host : Host) (transaction : Dict) (v : PyVal) :
  preserves (_get_synthetic_env_and_tx_for_block_number fork sup host transaction v).
Proof.
  unfold _get_synthetic_env_and_tx_for_block_number.
  apply preserves_bind; [solve_preserves|]. intros v'.
  destruct (history_key v') as [n|]; [|solve_preserves].
  intros e e' r.
  destruct (_generate_transaction_env_for_block_number _ _ _ _ _ e)
    as [e1 r1] eqn:Hgen.
  apply preserves__generate_transaction_env_for_block_number in Hgen.
  destruct r1 as [[]|]; by intros [= <- _].
Qed.

#[global] Hint Resolve preserves__get_synthetic_env_and_tx_for_block_number
  : preserves.

Lemma preserves_call (fork : ForkLoad) (sup : Support) (host : Host)
    (transaction : Dict) (v : PyVal) :
  preserves (call fork sup host transaction v).
Proof. unfold call. solve_preserves. Qed.

Lemma preserves_estimate_gas (fork : ForkLoad) (sup : Support) (host : Host)
    (transaction : Dict) (v : PyVal) :
  preserves (estimate_gas fork sup host transaction v).
Proof. unfold estimate_gas. solve_preserves. Qed.

(** X13: a call on the head of the chain (under one of the names latest,
    safe, finalized and pending, under the number of the head, or under
    earliest when the head is block 0) changes no state object of the
    backend, the live state and the recorded snapshots among them, and none
    of its attributes, whether it returns or raises: it works on a copy of
    the live state. *)
Theorem call_on_head_changes_no_state (fork : ForkLoad) (sup : Support)
    (host : Host) (transaction : Dict) (block_number : PyVal) (e : Engine)
    (head : Block) :
  list.last (blocks (chain e)) = Some head →
  names_head head block_number →
  let e' := after (call fork sup host transaction block_number) e in
  (∀ l, is_Some (store e !! l) → store e' !! l = store e !! l)
  ∧ frame e' = frame e.
Proof.
  intros Hhead Hv e'.
  destruct (safe_call_on_head (dom (store e)) fork sup host transaction
              block_number head Hv e) as [Hs _]; [done|done|].
  split.
  - intros l Hl. apply Hs. by apply elem_of_dom.
  - unfold e', after.
    destruct (call fork sup host transaction block_number e) as [e1 r] eqn:Hc.
    by apply preserves_call in Hc.
Qed.

(** X14: an estimate of gas on the head of the chain changes no state object
    of the backend and none of its attributes, whether it returns or
    raises. *)
Theorem estimate_gas_on_head_changes_no_state (fork : ForkLoad) (sup : Support)
    (host : Host) (transaction : Dict) (block_number : PyVal) (e : Engine)
    (head : Block) :
  list.last (blocks (chain e)) = Some head →
  names_head head block_number →
  let e' := after (estimate_gas fork sup host transaction block_number) e in
  (∀ l, is_Some (store e !! l) → store e' !! l = store e !! l)
  ∧ frame e' = frame e.
Proof.
  intros Hhead Hv e'.
  destruct (safe_estimate_gas_on_head (dom (store e)) fork sup host transaction
              block_number head Hv e) as [Hs _]; [done|done|].
  split.
  - intros l Hl. apply Hs. by apply elem_of_dom.
  - unfold e', after.
    destruct (estimate_gas fork sup host transaction block_number e)
      as [e1 r] eqn:Hc.
    by apply preserves_estimate_gas in Hc.
Qed.

Lemma call_on_head_changes_no_state_witness :
  ∃ head,
    list.last (blocks (chain Scenario.transfer_mined)) = Some head
    ∧ names_head head (PyStr "latest")
    ∧ (∀ l, is_Some (store Scenario.transfer_mined !! l) →
         store (after (call Toy.fork Toy.sup Toy.host Scenario.transfer_call
                         (PyStr "latest")) Scenario.transfer_mined) !! l
         = store Scenario.transfer_mined !! l)
    ∧ frame (after (call Toy.fork Toy.sup Toy.host Scenario.transfer_call
                      (PyStr "latest")) Scenario.transfer_mined)
      = frame Scenario.transfer_mined.
Proof.
  destruct (list.last (blocks (chain Scenario.transfer_mined)))
    as [head|] eqn:Hhead; [|vm_compute in Hhead; discriminate Hhead].
  assert (Hv : names_head head (PyStr "latest")) by (left; apply list_elem_of_here).
  exists head. split; [reflexivity|]. split; [exact Hv|].
  exact (call_on_head_changes_no_state Toy.fork Toy.sup Toy.host
           Scenario.transfer_call (PyStr "latest") Scenario.transfer_mined head
           Hhead Hv).
Defined.

Lemma estimate_gas_on_head_changes_no_state_witness :
  ∃ head,
    list.last (blocks (chain Scenario.transfer_mined)) = Some head
    ∧ names_head head (PyStr "pending")
    ∧ (∀ l, is_Some (store Scenario.transfer_mined !! l) →
         store (after (estimate_gas Toy.fork Toy.sup Toy.host Scenario.transfer_call
                         (PyStr "pending")) Scenario.transfer_mined) !! l
         = store Scenario.transfer_mined !! l)
    ∧ frame (after (estimate_gas Toy.fork Toy.sup Toy.host Scenario.transfer_call
                      (PyStr "pending")) Scenario.transfer_mined)
      = frame Scenario.transfer_mined.
Proof.
  destruct (list.last (blocks (chain Scenario.transfer_mined)))
    as [head|] eqn:Hhead; [|vm_compute in Hhead; discriminate Hhead].
  assert (Hv : names_head head (PyStr "pending")).
  { left. do 3 apply list_elem_of_further. apply list_elem_of_here. }
  exists head. split; [reflexivity|]. split; [exact Hv|].
  exact (estimate_gas_on_head_changes_no_state Toy.fork Toy.sup Toy.host
           Scenario.transfer_call (PyStr "pending") Scenario.transfer_mined head
           Hhead Hv).
Defined.

(** ** Mining writes to the live state and to new state objects only *)

Lemma keeps_update_pending_header {B} (f : Engine → B)
    (g : PendingHeader → PendingHeader) :
  (∀ p e, f (set_pending_block p e) = f e) →
  keeps f (update_pending_header g).
Proof.
  intros Hf. unfold update_pending_header.
  apply keeps_bind; [solve_keeps|]. intros pb. apply keeps_modify. intros e. apply Hf.
Qed.

Lemma keeps_update_mined_records {B} (f : Engine → B) (fork : ForkLoad)
    (blocknum : Z) (block_hash state_root_ : Hash32) (out : ApplyBodyOutput)
    (i : Z) (txs : list Transaction) :
  (∀ m e, f (set_transactions_map m e) = f e) →
  (∀ m e, f (set_receipts_map m e) = f e) →
  keeps f (update_mined_records fork blocknum block_hash state_root_ out i txs).
Proof.
  intros Ht Hr. revert i. induction txs as [|tx rest IH]; intros i; cbn.
  - apply keeps_ret.
  - apply keeps_bind; [solve_keeps|]. intros tm.
    apply keeps_bind; [solve_keeps|]. intros updated_tx.
    apply keeps_bind; [apply keeps_modify; intros e; apply Ht|]. intros [].
    apply keeps_bind; [solve_keeps|]. intros updated_receipt.
    apply keeps_bind; [apply keeps_modify; intros e; apply Hr|]. intros [].
    apply IH.
Qed.

Lemma keeps_stamp_pending_block {B} (f : Engine → B) (host : Host)
    (timestamp_ : option Z) :
  (∀ p e, f (set_pending_block p e) = f e) →
  (∀ n e, f (set_clock_reads n e) = f e) →
  keeps f (stamp_pending_block host timestamp_).
Proof.
  intros Hp Hc. unfold stamp_pending_block.
  apply keeps_bind; [solve_keeps|]. intros block.
  destruct (ph_timestamp (pb_header block)); [apply keeps_ret|].
  apply keeps_bind; [solve_keeps|]. intros parent.
  apply keeps_bind.
  { destruct timestamp_ as [t|]; [destruct (t =? 0)|];
      try apply keeps_ret; by apply keeps_int_time_time. }
  intros t. apply keeps_bind; [solve_keeps|]. intros current_time.
  apply keeps_bind; [solve_keeps|]. intros ts.
  by apply keeps_update_pending_header.
Qed.

Lemma keeps__build_new_pending_block {B} (f : Engine → B) (fork : ForkLoad)
    (host : Host) :
  (∀ p e, f (set_pending_block p e) = f e) →
  (∀ n e, f (set_urandom_reads n e) = f e) →
  keeps f (_build_new_pending_block_default fork host).
Proof.
  intros Hp Hu. unfold _build_new_pending_block_default, _build_new_pending_block.
  apply keeps_bind; [solve_keeps|]. intros d.
  apply keeps_bind; [solve_keeps|]. intros p.
  apply keeps_bind; [solve_keeps|]. intros [].
  apply keeps_bind; [solve_keeps|]. intros g.
  apply keeps_bind; [solve_keeps|]. intros parent.
  apply keeps_bind; [solve_keeps|]. intros base_fee.
  apply keeps_bind; [unfold or_urandom; by apply keeps_urandom32|]. intros r1.
  apply keeps_bind; [unfold or_urandom; by apply keeps_urandom32|]. intros r2.
  apply keeps_modify. intros e. apply Hp.
Qed.

Lemma safe_try_transaction (I : Engine → Prop) (D : gset loc) (fork : ForkLoad)
    (sup : Support) (host : Host) (state_copy : loc) (tx : Transaction)
    (acc : BodyAcc) :
  of_chain I → state_copy ∉ D →
  safe I D (try_transaction fork sup host state_copy tx acc).
Proof.
  intros HI Hsc.
  apply (safe_same_after I D
    (env ← synthetic_tx_environment fork sup host tx (Some state_copy) None;
     pre ← _generate_state_snapshot;
     pre_state ← read_state pre;
     s ← read_state (env_state env);
     let '(s', r) := process_transaction fork env s tx in
     write_state (env_state env) s';;
     process_transaction_return ← lift r;
     post_state ← read_state (env_state env);
     mret (process_transaction_return,
           _extract_contract_address pre_state post_state))).
  - intros e. unfold after, try_transaction.
    match goal with |- (match ?m with _ => _ end).1 = _ => destruct m as [e' [x|v]] end;
      [done|]. cbn.
    destruct (is_after_fork fork "ethereum.cancun"); [|done].
    by destruct (_ <? _).
  - apply (safe_bind_with _ _ (λ env, env_state env ∉ D)).
    + by apply safe_synthetic_tx_environment.
    + intros e env HD Hi Hr.
      destruct (synthetic_tx_environment fork sup host tx (Some state_copy) None e)
        as [e' r] eqn:Hrun. cbn in Hr. subst r.
      by rewrite (synthetic_tx_environment_given_state _ _ _ _ _ _ _ _ Hrun).
    + intros env Henv. solve_safe.
Qed.

Lemma safe_apply_transaction (I : Engine → Prop) (D : gset loc) (fork : ForkLoad)
    (sup : Support) (host : Host) (state_copy : loc) (block_gas_limit i : Z)
    (tx : Transaction) (acc : BodyAcc) :
  of_chain I → state_copy ∉ D →
  safe I D (apply_transaction fork sup host state_copy block_gas_limit i tx acc).
Proof.
  intros HI Hsc. unfold apply_transaction.
  apply safe_bind; [by apply safe_try_transaction|]. intros [blob r].
  solve_safe.
Qed.

Lemma safe_apply_transactions (I : Engine → Prop) (D : gset loc) (fork : ForkLoad)
    (sup : Support) (host : Host) (state_copy : loc) (block_gas_limit i : Z)
    (txs : list Transaction) (acc : BodyAcc) :
  of_chain I → state_copy ∉ D →
  safe I D (apply_transactions fork sup host state_copy block_gas_limit i txs acc).
Proof.
  intros HI Hsc. revert i acc. induction txs as [|tx rest IH]; intros i acc; cbn.
  - solve_safe.
  - apply safe_bind; [by apply safe_apply_transaction|]. intros acc'. apply IH.
Qed.

Lemma safe_apply_body_transactions (I : Engine → Prop) (D : gset loc)
    (fork : ForkLoad) (sup : Support) (host : Host) :
  of_chain I → safe I D (apply_body_transactions fork sup host).
Proof.
  intros HI. unfold apply_body_transactions.
  apply safe_bind; [solve_safe|]. intros pb.
  apply (safe_bind_with _ _ (λ l, l ∉ D)); [solve_safe| |].
  - intros e a HD _. by apply _generate_state_snapshot_fresh.
  - intros state_copy Hsc.
    apply safe_bind; [solve_safe|]. intros live.
    apply safe_bind; [solve_safe|]. intros copied.
    apply safe_bind; [solve_safe|]. intros [].
    apply safe_bind; [solve_safe|]. intros [].
    apply safe_bind; [by apply safe_apply_transactions|]. intros acc. solve_safe.
Qed.

Lemma apply_body_transactions_copy (fork : ForkLoad) (sup : Support) (host : Host)
    (e e' : Engine) (state_copy : loc) (acc : BodyAcc) :
  apply_body_transactions fork sup host e = (e', inr (state_copy, acc)) →
  state_copy = fresh (dom (store e)).
Proof.
  unfold apply_body_transactions. intros H.
  apply bind_returns in H as (e1 & pb & Hpb & H).
  apply pending_block_inv in Hpb as [-> _].
  apply bind_returns in H as (e2 & sc & Hsc & H).
  rewrite _generate_state_snapshot_run in Hsc. injection Hsc as <- <-.
  apply bind_returns in H as (e3 & live & _ & H).
  apply bind_returns in H as (e4 & copied & _ & H).
  apply bind_returns in H as (e5 & [] & _ & H).
  apply bind_returns in H as (e6 & [] & _ & H).
  apply bind_returns in H as (e7 & acc' & _ & H).
  by injection H as _ <- _.
Qed.

Lemma safe__internal_apply_body_validation (I : Engine → Prop) (D : gset loc)
    (fork : ForkLoad) (sup : Support) (host : Host) :
  of_chain I → safe I D (_internal_apply_body_validation fork sup host).
Proof.
  intros HI. unfold _internal_apply_body_validation.
  apply safe_bind; [solve_safe|]. intros pb.
  apply (safe_bind_with _ _ (λ p, p.1 ∉ D)).
  - by apply safe_apply_body_transactions.
  - intros e [sc acc] HD _ Hr.
    destruct (apply_body_transactions fork sup host e) as [e' r] eqn:Hrun.
    cbn in Hr. subst r. apply apply_body_transactions_copy in Hrun as ->.
    by apply fresh_outside.
  - intros [state_copy acc] Hsc. cbn in Hsc. solve_safe.
Qed.

Lemma safe_stamp_pending_block (I : Engine → Prop) (D : gset loc) (host : Host)
    (timestamp_ : option Z) :
  of_chain I → safe I D (stamp_pending_block host timestamp_).
Proof.
  intros HI.
  apply safe_keeps; [done|by apply keeps_stamp_pending_block..].
Qed.

Lemma safe_update_pending_header (I : Engine → Prop) (D : gset loc)
    (g : PendingHeader → PendingHeader) :
  of_chain I → safe I D (update_pending_header g).
Proof.
  intros HI. apply safe_keeps; [done|by apply keeps_update_pending_header..].
Qed.

#[global] Hint Resolve safe_update_pending_header
  safe__internal_apply_body_validation : safe.

Lemma safe_assemble_pending_block (I : Engine → Prop) (D : gset loc)
    (fork : ForkLoad) (sup : Support) (host : Host) :
  of_chain I → safe I D (assemble_pending_block fork sup host).
Proof.
  intros HI. unfold assemble_pending_block, Header_of_dict. solve_safe.
Qed.

Lemma safe_set_blocks (D : gset loc) (l : loc) (bs : list Block) :
  safe (live_at l) D
    (modify (set_chain (λ c, mkBlockChain bs (state c) (chain_id c)))).
Proof. intros e HD Hl. done. Qed.

Lemma safe_commit_block (D : gset loc) (l : loc) (fork : ForkLoad)
    (out : ApplyBodyOutput) (hdr : Header) (blk : Block) :
  l ∉ D → safe (live_at l) D (commit_block fork out hdr blk).
Proof.
  intros Hl. unfold commit_block.
  apply safe_bind; [solve_safe|]. intros block.
  apply (safe_bind_with _ _ (λ c, state c = l)); [solve_safe| |].
  { intros e c _ Hlive [= <-]. exact Hlive. }
  intros c Hc. rewrite Hc.
  apply safe_bind; [solve_safe|]. intros s.
  destruct (state_transition fork (blocks c) s (chain_id c) blk) as [[blocks' s'] r].
  apply safe_bind; [solve_safe|]. intros [].
  apply safe_bind; [apply safe_set_blocks|]. intros [].
  apply safe_bind; [solve_safe|]. intros [].
  apply safe_bind; [solve_safe|]. intros live.
  apply safe_bind; [unfold assert; solve_safe|]. intros [].
  apply safe_bind; [solve_safe|]. intros latest.
  apply safe_bind; [unfold assert; solve_safe|]. intros [].
  apply safe_bind.
  { apply safe_keeps; [apply of_chain_live_at|by apply keeps_update_mined_records..]. }
  intros []. solve_safe.
Qed.

Lemma safe__mine_pending_block (D : gset loc) (l : loc) (fork : ForkLoad)
    (sup : Support) (host : Host) (timestamp_ : option Z) :
  l ∉ D → safe (live_at l) D (_mine_pending_block fork sup host timestamp_).
Proof.
  intros Hl. unfold _mine_pending_block.
  apply safe_bind; [apply safe_stamp_pending_block, of_chain_live_at|]. intros [].
  apply safe_bind; [apply safe_assemble_pending_block, of_chain_live_at|].
  intros [[out hdr] blk]. by apply safe_commit_block.
Qed.

Lemma safe_mine_blocks_rounds (D : gset loc) (l : loc) (fork : ForkLoad)
    (sup : Support) (host : Host) (n : nat) :
  l ∉ D → safe (live_at l) D (mine_blocks_rounds fork sup host n).
Proof.
  intros Hl. induction n as [|n IH]; cbn [mine_blocks_rounds].
  - solve_safe.
  - apply safe_bind; [by apply safe__mine_pending_block|]. intros mined.
    apply safe_bind.
    { apply safe_keeps;
        [apply of_chain_live_at|by apply keeps__build_new_pending_block..]. }
    intros []. apply safe_bind; [solve_safe|]. intros b.
    apply safe_bind; [exact IH|]. intros hs. solve_safe.
Qed.

(** X15: mining, whether it returns or raises, writes to the live state
    object and to state objects it makes, and to no other: a state object
    that is not the live one, the snapshot recorded for a block for one, has
    the content it had, and the live state is still the same object. *)
Theorem mine_blocks_writes_live_state_only (fork : ForkLoad) (sup : Support)
    (host : Host) (num_blocks : Z) (e : Engine) (l : loc) :
  is_Some (store e !! l) → l ≠ state (chain e) →
  let e' := after (mine_blocks fork sup host num_blocks) e in
  store e' !! l = store e !! l ∧ state (chain e') = state (chain e).
Proof.
  intros Hsome Hne e'.
  assert (Hout : state (chain e) ∉ ({[l]} : gset loc)).
  { intros Hin. apply elem_of_singleton in Hin. by apply Hne. }
  destruct (safe_mine_blocks_rounds {[l]} (state (chain e)) fork sup host
              (Z.to_nat num_blocks) Hout e) as [Hs Hlive].
  - intros l' Hl'. apply elem_of_singleton in Hl' as ->. by apply elem_of_dom.
  - reflexivity.
  - split; [apply Hs; by apply elem_of_singleton|exact Hlive].
Qed.

Lemma mine_blocks_writes_live_state_only_witness :
  is_Some (store Scenario.transfer_sent !! 1%nat)
  ∧ 1%nat ≠ state (chain Scenario.transfer_sent)
  ∧ store (after (mine_blocks Toy.fork Toy.sup Toy.host 1) Scenario.transfer_sent)
      !! 1%nat
    = store Scenario.transfer_sent !! 1%nat
  ∧ state (chain (after (mine_blocks Toy.fork Toy.sup Toy.host 1)
                    Scenario.transfer_sent))
    = state (chain Scenario.transfer_sent).
Proof.
  assert (H1 : is_Some (store Scenario.transfer_sent !! 1%nat)).
  { apply (bool_decide_unpack _). vm_compute. exact I. }
  assert (H2 : 1%nat ≠ state (chain Scenario.transfer_sent)).
  { apply (bool_decide_unpack _). vm_compute. exact I. }
  split; [exact H1|]. split; [exact H2|].
  exact (mine_blocks_writes_live_state_only Toy.fork Toy.sup Toy.host 1
           Scenario.transfer_sent 1%nat H1 H2).
Defined.

(** ** The snapshots that mining records *)

Lemma keeps_history_preserves {A} (m : M A) : preserves m → keeps _state_history m.
Proof.
  intros Hm e e' r H. apply Hm in H. unfold frame in H.
  by injection H as _ _ _ _ _ _ -> _.
Qed.

Lemma keeps_pending_preserves {A} (m : M A) : preserves m → keeps _pending_block m.
Proof.
  intros Hm e e' r H. apply Hm in H. unfold frame in H.
  by injection H as _ -> _ _ _ _ _ _.
Qed.

Lemma keeps_content_update_pending_header (g : PendingHeader → PendingHeader) :
  (∀ h, ph_number (g h) = ph_number h) →
  keeps pending_content (update_pending_header g).
Proof.
  intros Hg e e' r. unfold update_pending_header, pending_block. run.
  unfold pending_content.
  destruct (_pending_block e) as [pb|] eqn:Hpb; cbn.
  - intros [= <- <-]. cbn. by rewrite Hg.
  - intros [= <- <-]. by rewrite Hpb.
Qed.

Lemma keeps_content_stamp_pending_block (host : Host) (timestamp_ : option Z) :
  keeps pending_content (stamp_pending_block host timestamp_).
Proof.
  unfold stamp_pending_block.
  apply keeps_bind; [solve_keeps|]. intros block.
  destruct (ph_timestamp (pb_header block)); [apply keeps_ret|].
  apply keeps_bind; [solve_keeps|]. intros parent.
  apply keeps_bind; [solve_keeps|].
  intros t. apply keeps_bind; [solve_keeps|]. intros current_time.
  apply keeps_bind; [solve_keeps|]. intros ts.
  by apply keeps_content_update_pending_header.
Qed.

Lemma keeps_content_pending (A : Type) (m : M A) :
  keeps _pending_block m → keeps pending_content m.
Proof. intros Hm e e' r H. unfold pending_content. by rewrite (Hm _ _ _ H). Qed.

Lemma keeps_content_assemble_pending_block (fork : ForkLoad) (sup : Support)
    (host : Host) :
  keeps pending_content (assemble_pending_block fork sup host).
Proof.
  unfold assemble_pending_block.
  apply keeps_bind.
  { apply keeps_content_pending, keeps_pending_preserves,
      preserves__internal_apply_body_validation. }
  intros out.
  apply keeps_bind; [by apply keeps_content_update_pending_header|]. intros [].
  apply keeps_bind; [solve_keeps|]. intros wr.
  apply keeps_bind; [solve_keeps|]. intros bg.
  apply keeps_bind; [solve_keeps|]. intros eg.
  apply keeps_bind; [by apply keeps_content_update_pending_header|]. intros [].
  unfold Header_of_dict. solve_keeps.
Qed.

Lemma keeps_history_assemble_pending_block (fork : ForkLoad) (sup : Support)
    (host : Host) :
  keeps _state_history (assemble_pending_block fork sup host).
Proof.
  unfold assemble_pending_block.
  apply keeps_bind.
  { apply keeps_history_preserves, preserves__internal_apply_body_validation. }
  intros out.
  apply keeps_bind; [by apply keeps_update_pending_header|]. intros [].
  apply keeps_bind; [solve_keeps|]. intros wr.
  apply keeps_bind; [solve_keeps|]. intros bg.
  apply keeps_bind; [solve_keeps|]. intros eg.
  apply keeps_bind; [by apply keeps_update_pending_header|]. intros [].
  unfold Header_of_dict. solve_keeps.
Qed.

(** What [commit_block] records when it returns: a new state object with
    the content of the live state, under the number of the pending block. *)
Lemma commit_block_records (fork : ForkLoad) (out : ApplyBodyOutput)
    (hdr : Header) (blk : Block) (e e' : Engine) (pb mined : PendingBlock) :
  _pending_block e = Some pb →
  commit_block fork out hdr blk e = (e', inr mined) →
  ∃ l, _state_history e' = <[ph_number (pb_header pb) := l]> (_state_history e)
       ∧ l ≠ state (chain e')
       ∧ store e' !! l = Some (copy_of (live_state e')).
Proof.
  intros Hpb H. unfold commit_block in H.
  rewrite (bind_of_return _ _ _ _ _ (pending_block_returns e pb Hpb)) in H.
  apply bind_returns in H as (e1 & c & Hc & H). injection Hc as <- <-.
  apply bind_returns in H as (e2 & s & Hs & H). injection Hs as <- _.
  destruct (state_transition fork (blocks (chain e)) s (chain_id (chain e)) blk)
    as [[blocks' s'] r].
  apply bind_returns in H as (e3 & [] & H3 & H). injection H3 as <-.
  apply bind_returns in H as (e4 & [] & H4 & H). injection H4 as <-.
  apply bind_returns in H as (e5 & [] & H5 & H).
  unfold lift in H5. injection H5 as <- _.
  apply bind_returns in H as (e6 & live & H6 & H).
  apply (reads_inv _ _ _ _ reads_chain_state) in H6 as ->.
  apply bind_returns in H as (e7 & [] & H7 & H).
  assert (e7 = set_chain (λ c, mkBlockChain blocks' (state c) (chain_id c))
                 (set_store <[state (chain e) := s']> e)) as ->.
  { unfold assert in H7. by destruct (bool_decide _); injection H7 as <-. }
  apply bind_returns in H as (e8 & latest & H8 & H).
  apply (reads_inv _ _ _ _ reads_latest_block) in H8 as ->.
  apply bind_returns in H as (e9 & [] & H9 & H).
  assert (e9 = set_chain (λ c, mkBlockChain blocks' (state c) (chain_id c))
                 (set_store <[state (chain e) := s']> e)) as ->.
  { unfold assert in H9. by destruct (bool_decide _); injection H9 as <-. }
  apply bind_returns in H as (e10 & [] & H10 & H).
  pose proof H10 as Hstore. pose proof H10 as Hchain. pose proof H10 as Hhist.
  keeps_in store Hstore ltac:(by apply keeps_update_mined_records).
  keeps_in chain Hchain ltac:(by apply keeps_update_mined_records).
  keeps_in _state_history Hhist ltac:(by apply keeps_update_mined_records).
  cbn in Hstore, Hchain, Hhist.
  apply bind_returns in H as (e11 & snapshot & H11 & H).
  rewrite _generate_state_snapshot_run in H11. injection H11 as <- <-.
  apply bind_returns in H as (e12 & [] & H12 & H). injection H12 as <-.
  injection H as <- _. cbn.
  assert (Hin : state (chain e10) ∈ dom (store e10)).
  { rewrite Hstore, Hchain. cbn. apply elem_of_dom. rewrite lookup_insert_eq. by eexists. }
  assert (Hne : fresh (dom (store e10)) ≠ state (chain e10)).
  { intros Heq. apply (is_fresh (dom (store e10))). by rewrite Heq. }
  exists (fresh (dom (store e10))). split; [by rewrite Hhist|]. split; [done|].
  rewrite lookup_insert_eq. unfold live_state. cbn.
  rewrite lookup_insert_ne by done. done.
Qed.

(** The run of [_mine_pending_block] up to [commit_block], when it
    returns. *)
Lemma _mine_pending_block_commit (fork : ForkLoad) (sup : Support) (host : Host)
    (timestamp_ : option Z) (e e' : Engine) (pb mined : PendingBlock) :
  _pending_block e = Some pb →
  _mine_pending_block fork sup host timestamp_ e = (e', inr mined) →
  ∃ e2 pb2 out hdr blk,
    _pending_block e2 = Some pb2
    ∧ ph_number (pb_header pb2) = ph_number (pb_header pb)
    ∧ pb_transactions pb2 = pb_transactions pb
    ∧ _state_history e2 = _state_history e
    ∧ commit_block fork out hdr blk e2 = (e', inr mined).
Proof.
  intros Hpb H. unfold _mine_pending_block in H.
  apply bind_returns in H as (e1 & [] & H1 & H).
  pose proof H1 as Hh1.
  keeps_in _state_history Hh1 ltac:(by apply keeps_stamp_pending_block).
  keeps_in pending_content H1 ltac:(apply keeps_content_stamp_pending_block).
  apply bind_returns in H as (e2 & [[out hdr] blk] & H2 & H).
  pose proof H2 as Hh2.
  keeps_in _state_history Hh2 ltac:(apply keeps_history_assemble_pending_block).
  keeps_in pending_content H2 ltac:(apply keeps_content_assemble_pending_block).
  assert (Hn : pending_content e2
               = Some (ph_number (pb_header pb), pb_transactions pb)).
  { rewrite H2, H1. unfold pending_content. by rewrite Hpb. }
  unfold pending_content in Hn.
  destruct (_pending_block e2) as [pb2|] eqn:Hpb2; [|discriminate Hn].
  injection Hn as Hn Htxs.
  exists e2, pb2, out, hdr, blk. repeat split; try done. by rewrite Hh2, Hh1.
Qed.

Lemma _mine_pending_block_records (fork : ForkLoad) (sup : Support) (host : Host)
    (timestamp_ : option Z) (e e' : Engine) (pb mined : PendingBlock) :
  _pending_block e = Some pb →
  _mine_pending_block fork sup host timestamp_ e = (e', inr mined) →
  ∃ l, _state_history e' = <[ph_number (pb_header pb) := l]> (_state_history e)
       ∧ l ≠ state (chain e')
       ∧ store e' !! l = Some (copy_of (live_state e')).
Proof.
  intros Hpb H.
  destruct (_mine_pending_block_commit _ _ _ _ _ _ _ _ Hpb H)
    as (e2 & pb2 & out & hdr & blk & Hpb2 & Hn & _ & Hh & Hcommit).
  destruct (commit_block_records fork out hdr blk e2 e' pb2 mined Hpb2 Hcommit)
    as (l & Hhist & Hne & Hl).
  exists l. split; [|done]. by rewrite Hhist, Hn, Hh.
Qed.

Lemma records_live_state_same (e e' : Engine) (n : Z) :
  store e' = store e → chain e' = chain e → _state_history e' = _state_history e →
  records_live_state e n → records_live_state e' n.
Proof.
  intros Hs Hc Hh (l & Hl & Hne & Hcopy). exists l.
  unfold live_state. by rewrite Hs, Hc, Hh.
Qed.

(** The rounds of [mine_blocks], with what they record: the snapshot index
    gets an entry for each new block and keeps the entries it had for the
    blocks up to the head; the entry of the last block mined is a copy of the
    live state; the pending block sits on the last block mined. *)
Lemma mine_blocks_rounds_records (fork : ForkLoad) (sup : Support) (host : Host)
    (n : nat) (e : Engine) (pb : PendingBlock) (head : Block) (B : Z) :
  accepting fork sup host →
  clock_within host B → B + Z.of_nat n ≤ U256_MAX →
  _pending_block e = Some pb →
  list.last (blocks (chain e)) = Some head →
  ph_number (pb_header pb) = number (header head) + 1 →
  timestamp (header head) ≤ B →
  (∀ t, ph_timestamp (pb_header pb) = Some t → t ≤ B) →
  (n ≠ 0%nat → buffer_included fork sup host e) →
  ∃ e' new pb',
    mine_blocks_rounds fork sup host n e = (e', inr (header_hashes fork new))
    ∧ blocks (chain e') = blocks (chain e) ++ new
    ∧ length new = n
    ∧ (∀ k, k ≤ number (header head) →
         _state_history e' !! k = _state_history e !! k)
    ∧ (∀ i, 1 ≤ i ≤ Z.of_nat n →
         is_Some (_state_history e' !! (number (header head) + i)))
    ∧ (n ≠ 0%nat → records_live_state e' (number (header head) + Z.of_nat n))
    ∧ _pending_block e' = Some pb'
    ∧ ph_number (pb_header pb') = number (header head) + Z.of_nat n + 1.
Proof.
  intros Hacc Hclock. revert e pb head B Hclock.
  induction n as [|n IH]; intros e pb head B Hclock HB Hpb Hhead Hnum Hts Hpre Hbuf.
  - exists e, [], pb. cbn. rewrite app_nil_r.
    repeat split; try done; [lia|lia].
  - destruct (mine_round fork sup host e pb head B Hacc Hclock)
      as (e5 & e6 & mined & blk & pb' & Hmine & Hbuild & Hblocks5 & Hchain6
          & Hnumb & Htsb & Htsle & Hpb' & Hnum' & Hts' & Htxs');
      try done; [lia|by apply Hbuf|].
    assert (Hhead6 : list.last (blocks (chain e6)) = Some blk)
      by (rewrite Hchain6, Hblocks5; apply last_snoc).
    assert (Hclock' : clock_within host (B + 1))
      by (intros k; destruct (Hclock k); lia).
    destruct (_mine_pending_block_records fork sup host None e e5 pb mined Hpb Hmine)
      as (l & Hhist5 & Hne5 & Hl5).
    pose proof Hbuild as Hstore6. pose proof Hbuild as Hhist6.
    keeps_in store Hstore6 ltac:(by apply keeps__build_new_pending_block).
    keeps_in _state_history Hhist6 ltac:(by apply keeps__build_new_pending_block).
    assert (Hrec6 : records_live_state e6 (number (header head) + 1)).
    { apply (records_live_state_same e5); [done..|].
      exists l. rewrite Hhist5, Hnum, lookup_insert_eq. done. }
    destruct (IH e6 pb' blk (B + 1) Hclock')
      as (e' & new & pb'' & Hrounds & Hblocks & Hlen & Hold & Hnew & Hlast
          & Hpb'' & Hnum'');
      try done; [lia|by rewrite Hts'|..].
    { intros Hn. eapply (buffer_included_empty fork sup host e6 pb' blk (B + 1));
        try done; [lia|by rewrite Hts']. }
    assert (Hat : _state_history e' !! (number (header head) + 1) = Some l).
    { rewrite Hold by lia. rewrite Hhist6, Hhist5, Hnum. apply lookup_insert_eq. }
    exists e', (blk :: new), pb''. split.
    { cbn [mine_blocks_rounds].
      rewrite (bind_of_return _ _ _ _ _ Hmine), (bind_of_return _ _ _ _ _ Hbuild).
      rewrite (bind_of_return _ _ _ _ _ (latest_block_returns e6 blk Hhead6)).
      rewrite (bind_of_return _ _ _ _ _ Hrounds). done. }
    split; [by rewrite Hblocks, Hchain6, Hblocks5, <- app_assoc|].
    split; [by cbn; rewrite Hlen|].
    split.
    { intros k Hk. rewrite Hold by lia. rewrite Hhist6, Hhist5.
      apply lookup_insert_ne. lia. }
    split.
    { intros i Hi. destruct (decide (i = 1)) as [->|Hi1]; [by rewrite Hat|].
      replace (number (header head) + i) with (number (header blk) + (i - 1)) by lia.
      apply Hnew. lia. }
    split.
    { intros _. destruct n as [|n'].
      - cbn in Hrounds. injection Hrounds as <- _. exact Hrec6.
      - replace (number (header head) + Z.of_nat (S (S n')))
          with (number (header blk) + Z.of_nat (S n')) by lia.
        by apply Hlast. }
    split; [done|]. lia.
Qed.





(** ** Sending a raw transaction, and an unsigned one *)

(** X18: [send_raw_transaction] raises [IndexError] on empty bytes; when
    the raw transaction is decoded (by the decoder of blob transactions if
    its first byte is 3, by the library otherwise) and the check passes, it
    returns the hash of the transaction, appends the transaction to the
    buffer of the pending block and records it under its hash with the index
    it has in the buffer, counted from 0; the chain, the state objects, the
    receipts and the snapshot index are as they were. *)
Theorem send_raw_transaction_buffers (fork : ForkLoad) (sup : Support)
    (blob_transaction_of_raw : Bytes → M Tx) (raw_transaction : Bytes)
    (e : Engine) :
  (raw_transaction = [] →
   send_raw_transaction fork sup blob_transaction_of_raw raw_transaction e
   = (e, inl IndexError))
  ∧ ∀ first t checked pb,
      raw_transaction !! 0%nat = Some first →
      (if bool_decide (first = x03)
       then blob_transaction_of_raw raw_transaction e
       else (e, decode_transaction fork raw_transaction)) = (e, inr t) →
      _check_transaction fork (Decoded t) None e = (e, inr checked) →
      _pending_block e = Some pb →
      let tx_hash := _get_tx_hash fork (Decoded t) in
      ∃ e',
        send_raw_transaction fork sup blob_transaction_of_raw raw_transaction e
        = (e', inr tx_hash)
        ∧ _pending_block e'
          = Some (mkPendingBlock (pb_header pb) (pb_transactions pb ++ [Decoded t])
                    (pb_ommers pb) (pb_withdrawals pb))
        ∧ _transactions_map e'
          = <[tx_hash := serialize_transaction_for_block sup (Decoded t)
                           (Z.of_nat (length (pb_transactions pb)))
                           (ph_number (pb_header pb))]>
              (_transactions_map e)
        ∧ chain e' = chain e ∧ store e' = store e
        ∧ _receipts_map e' = _receipts_map e
        ∧ _state_history e' = _state_history e.
Proof.
  split.
  - intros ->. reflexivity.
  - intros first t checked pb Hfirst Hdecode Hcheck Hpb tx_hash.
    unfold send_raw_transaction.
    assert (Hindex : py_index raw_transaction 0 e = (e, inr first)).
    { destruct raw_transaction as [|b rest]; [discriminate Hfirst|].
      injection Hfirst as ->. reflexivity. }
    rewrite (bind_of_return _ _ _ _ _ Hindex).
    assert (Hdec : (if bool_decide (first = x03)
                    then t0 ← blob_transaction_of_raw raw_transaction; mret (Decoded t0)
                    else t0 ← lift (decode_transaction fork raw_transaction);
                         mret (Decoded t0)) e
                   = (e, inr (Decoded t))).
    { destruct (bool_decide (first = x03)).
      - by rewrite (bind_of_return _ _ _ _ _ Hdecode).
      - injection Hdecode as Hd. by rewrite Hd, bind_lift_inr. }
    rewrite (bind_of_return _ _ _ _ _ Hdec).
    rewrite (bind_of_return _ _ _ _ _ Hcheck).
    rewrite (bind_of_return _ _ _ _ _ (pending_block_returns e pb Hpb)). run.
    eexists. split; [reflexivity|]. cbn. repeat split.
Qed.

Lemma send_raw_transaction_buffers_witness :
  ∃ t checked pb,
    [x03] !! 0%nat = Some x03
    ∧ (if bool_decide (x03 = x03)
       then toy_blob_transaction_of_raw [x03] Toy.genesis
       else (Toy.genesis, decode_transaction Toy.fork [x03]))
      = (Toy.genesis, inr t)
    ∧ _check_transaction Toy.fork (Decoded t) None Toy.genesis
      = (Toy.genesis, inr checked)
    ∧ _pending_block Toy.genesis = Some pb
    ∧ ∃ e',
        send_raw_transaction Toy.fork Toy.sup toy_blob_transaction_of_raw [x03]
          Toy.genesis
        = (e', inr (_get_tx_hash Toy.fork (Decoded t)))
        ∧ _pending_block e'
          = Some (mkPendingBlock (pb_header pb) (pb_transactions pb ++ [Decoded t])
                    (pb_ommers pb) (pb_withdrawals pb))
        ∧ _transactions_map e'
          = <[_get_tx_hash Toy.fork (Decoded t) :=
                serialize_transaction_for_block Toy.sup (Decoded t)
                  (Z.of_nat (length (pb_transactions pb)))
                  (ph_number (pb_header pb))]>
              (_transactions_map Toy.genesis)
        ∧ chain e' = chain Toy.genesis ∧ store e' = store Toy.genesis
        ∧ _receipts_map e' = _receipts_map Toy.genesis
        ∧ _state_history e' = _state_history Toy.genesis.
Proof.
  set (t := mkTx BlobTransaction 0 0 21000 (Toy.be 2) 1000 [] None [] 0 1 0).
  pose proof (reads_run _ Toy.genesis
                (reads__check_transaction Toy.fork (Decoded t) None)) as Hcheck.
  destruct (_check_transaction Toy.fork (Decoded t) None Toy.genesis).2
    as [x|checked] eqn:Hc; [vm_compute in Hc; discriminate Hc|].
  destruct (_pending_block Toy.genesis) as [pb|] eqn:Hpb;
    [|vm_compute in Hpb; discriminate Hpb].
  assert (Hfirst : [x03] !! 0%nat = Some x03) by reflexivity.
  assert (Hdecode : (if bool_decide (x03 = x03)
                     then toy_blob_transaction_of_raw [x03] Toy.genesis
                     else (Toy.genesis, decode_transaction Toy.fork [x03]))
                    = (Toy.genesis, inr t)) by reflexivity.
  exists t, checked, pb.
  split; [exact Hfirst|]. split; [exact Hdecode|]. split; [exact Hcheck|].
  split; [reflexivity|].
  exact (proj2 (send_raw_transaction_buffers Toy.fork Toy.sup
                  toy_blob_transaction_of_raw [x03] Toy.genesis)
           x03 t checked pb Hfirst Hdecode Hcheck Hpb).
Defined.

(** X19: where [send_transaction] returns, it returns the hash of a
    transaction that it has appended to the buffer of the pending block and
    recorded under its hash; the index it records is the length of the
    buffer after the transaction is appended, one more than the position of
    the transaction.  The chain, the receipts and the snapshot index are as
    they were. *)
Theorem send_transaction_buffers (fork : ForkLoad) (sup : Support) (host : Host)
    (transaction : Dict) (e e' : Engine) (tx_hash : Hash32) :
  send_transaction fork sup host transaction e = (e', inr tx_hash) →
  ∃ pb tx,
    _pending_block e = Some pb
    ∧ tx_hash = _get_tx_hash fork tx
    ∧ _pending_block e'
      = Some (mkPendingBlock (pb_header pb) (pb_transactions pb ++ [tx])
                (pb_ommers pb) (pb_withdrawals pb))
    ∧ _transactions_map e'
      = <[tx_hash := serialize_transaction_for_block sup tx
                       (Z.of_nat (length (pb_transactions pb)) + 1)
                       (ph_number (pb_header pb))]>
          (_transactions_map e)
    ∧ chain e' = chain e
    ∧ _receipts_map e' = _receipts_map e
    ∧ _state_history e' = _state_history e.
Proof.
  intros H. unfold send_transaction in H.
  apply bind_returns in H as (e1 & transaction' & H1 & H).
  assert (Hframe : frame e1 = frame e).
  { destruct (_ && _).
    - apply bind_returns in H1 as (e0 & g & Hg & H1).
      apply preserves_estimate_gas in Hg. by injection H1 as <- _.
    - by injection H1 as <- _. }
  apply bind_returns in H as (e2 & signed & H2 & H).
  apply (reads_inv _ _ _ _
           (reads__get_normalized_and_signed_evm_transaction fork sup transaction'))
    in H2 as ->.
  apply bind_returns in H as (e3 & tx & H3 & H).
  unfold lift in H3. injection H3 as <- _.
  apply bind_returns in H as (e4 & checked & H4 & H).
  apply (reads_inv _ _ _ _ (reads__check_transaction fork tx None)) in H4 as ->.
  apply bind_returns in H as (e5 & pb & H5 & H).
  apply pending_block_inv in H5 as [-> Hpb].
  apply bind_returns in H as (e6 & [] & H6 & H). injection H6 as <-.
  apply bind_returns in H as (e7 & [] & H7 & H). injection H7 as <-.
  injection H as <- <-.
  unfold frame in Hframe.
  injection Hframe as Hchain Hpending _ Htm Hrm _ Hsh _.
  exists pb, tx. cbn. rewrite <- Hpending, <- Htm, <- Hchain, <- Hrm, <- Hsh.
  repeat split; try done.
  by rewrite length_app, Nat2Z.inj_add.
Qed.

Lemma send_transaction_buffers_witness :
  ∃ e' tx_hash,
    send_transaction Toy.fork Toy.sup Toy.host Scenario.transfer_call Toy.genesis
    = (e', inr tx_hash)
    ∧ ∃ pb tx,
        _pending_block Toy.genesis = Some pb
        ∧ tx_hash = _get_tx_hash Toy.fork tx
        ∧ _pending_block e'
          = Some (mkPendingBlock (pb_header pb) (pb_transactions pb ++ [tx])
                    (pb_ommers pb) (pb_withdrawals pb))
        ∧ _transactions_map e'
          = <[tx_hash := serialize_transaction_for_block Toy.sup tx
                           (Z.of_nat (length (pb_transactions pb)) + 1)
                           (ph_number (pb_header pb))]>
              (_transactions_map Toy.genesis)
        ∧ chain e' = chain Toy.genesis
        ∧ _receipts_map e' = _receipts_map Toy.genesis
        ∧ _state_history e' = _state_history Toy.genesis.
Proof.
  destruct (send_transaction Toy.fork Toy.sup Toy.host Scenario.transfer_call
              Toy.genesis) as [e' r] eqn:Hrun.
  assert (Hr : returned (send_transaction Toy.fork Toy.sup Toy.host
                           Scenario.transfer_call Toy.genesis) ≠ None).
  { vm_compute. discriminate. }
  rewrite Hrun in Hr. unfold returned in Hr. cbn [snd] in Hr.
  destruct r as [x|tx_hash]; [by destruct Hr|].
  exists e', tx_hash. split; [reflexivity|].
  exact (send_transaction_buffers Toy.fork Toy.sup Toy.host Scenario.transfer_call
           Toy.genesis e' tx_hash Hrun).
Defined.

(** ** The records of the transactions of a mined block *)

Lemma latest_block_inv (e e' : Engine) (b : Block) :
  latest_block e = (e', inr b) → e' = e ∧ list.last (blocks (chain e)) = Some b.
Proof.
  unfold latest_block. run.
  destruct (list.last (blocks (chain e))) as [b'|]; [|discriminate].
  by intros [= <- <-].
Qed.

Lemma assert_inv (b : bool) (e e' : Engine) :
  assert b e = (e', inr tt) → e' = e ∧ b = true.
Proof. unfold assert. destruct b; [by intros [= <-]|discriminate]. Qed.

(** The records that name a block still name it after
    [update_mined_records] for that block, whether it returns or raises. *)
Lemma update_mined_records_keeps_mined (fork : ForkLoad) (blocknum : Z)
    (block_hash state_root_ : Hash32) (out : ApplyBodyOutput) (h : Hash32)
    (txs : list Transaction) (i : Z) (e e' : Engine) (r : Result unit) :
  mined_in e h blocknum block_hash →
  update_mined_records fork blocknum block_hash state_root_ out i txs e = (e', r) →
  mined_in e' h blocknum block_hash.
Proof.
  revert i e. induction txs as [|tx rest IH]; intros i e Hm H; cbn in H.
  - by injection H as <- _.
  - rewrite bind_run in H. cbn in H.
    destruct (_transactions_map e !! _get_tx_hash fork tx) as [updated_tx|];
      cbn in H; [|by injection H as <- _].
    rewrite !bind_run in H. cbn in H.
    destruct Hm as [(record & Hrec & Hrn & Hrh) (receipt & Hrcp & Hcn & Hch)].
    destruct (out_receipts_map out !! _get_tx_hash fork tx) as [updated_receipt|];
      cbn in H.
    + apply IH in H; [done|]. split; cbn.
      * destruct (decide (h = _get_tx_hash fork tx)) as [->|Hne].
        -- rewrite lookup_insert_eq. by eexists.
        -- rewrite lookup_insert_ne by done. by exists record.
      * destruct (decide (h = _get_tx_hash fork tx)) as [->|Hne].
        -- rewrite lookup_insert_eq. by eexists.
        -- rewrite lookup_insert_ne by done. by exists receipt.
    + injection H as <- _. split; cbn.
      * destruct (decide (h = _get_tx_hash fork tx)) as [->|Hne].
        -- rewrite lookup_insert_eq. by eexists.
        -- rewrite lookup_insert_ne by done. by exists record.
      * by exists receipt.
Qed.

Lemma update_mined_records_marks (fork : ForkLoad) (blocknum : Z)
    (block_hash state_root_ : Hash32) (out : ApplyBodyOutput)
    (txs : list Transaction) (i : Z) (e e' : Engine) :
  update_mined_records fork blocknum block_hash state_root_ out i txs e
  = (e', inr tt) →
  ∀ tx, tx ∈ txs → mined_in e' (_get_tx_hash fork tx) blocknum block_hash.
Proof.
  revert i e. induction txs as [|tx0 rest IH]; intros i e H tx Htx.
  - by apply elem_of_nil in Htx.
  - apply elem_of_cons in Htx as [->|Htx].
    + cbn in H. rewrite bind_run in H. cbn in H.
      destruct (_transactions_map e !! _get_tx_hash fork tx0) as [updated_tx|];
        cbn in H; [|discriminate H].
      rewrite !bind_run in H. cbn in H.
      destruct (out_receipts_map out !! _get_tx_hash fork tx0) as [updated_receipt|];
        cbn in H; [|discriminate H].
      apply (update_mined_records_keeps_mined _ _ _ _ _ (_get_tx_hash fork tx0))
        in H; [done|].
      split; cbn; rewrite lookup_insert_eq; by eexists.
    + cbn in H. apply bind_returns in H as (e1 & tm & _ & H).
      apply bind_returns in H as (e2 & updated_tx & _ & H).
      apply bind_returns in H as (e3 & [] & _ & H).
      apply bind_returns in H as (e4 & updated_receipt & _ & H).
      apply bind_returns in H as (e5 & [] & _ & H).
      by apply (IH _ _ H).
Qed.

Lemma commit_block_marks (fork : ForkLoad) (out : ApplyBodyOutput)
    (hdr : Header) (blk : Block) (e e' : Engine) (pb mined : PendingBlock) :
  _pending_block e = Some pb →
  commit_block fork out hdr blk e = (e', inr mined) →
  ∃ latest,
    list.last (blocks (chain e')) = Some latest
    ∧ ∀ tx, tx ∈ pb_transactions pb →
        mined_in e' (_get_tx_hash fork tx) (ph_number (pb_header pb))
          (compute_header_hash fork (header latest)).
Proof.
  intros Hpb H. unfold commit_block in H.
  rewrite (bind_of_return _ _ _ _ _ (pending_block_returns e pb Hpb)) in H.
  apply bind_returns in H as (e1 & c & Hc & H). injection Hc as <- <-.
  apply bind_returns in H as (e2 & s & Hs & H). injection Hs as <- _.
  destruct (state_transition fork (blocks (chain e)) s (chain_id (chain e)) blk)
    as [[blocks' s'] r].
  apply bind_returns in H as (e3 & [] & H3 & H). injection H3 as <-.
  apply bind_returns in H as (e4 & [] & H4 & H). injection H4 as <-.
  apply bind_returns in H as (e5 & [] & H5 & H).
  unfold lift in H5. injection H5 as <- _.
  apply bind_returns in H as (e6 & live & H6 & H).
  apply (reads_inv _ _ _ _ reads_chain_state) in H6 as ->.
  apply bind_returns in H as (e7 & [] & H7 & H).
  apply assert_inv in H7 as [-> _].
  apply bind_returns in H as (e8 & latest & H8 & H).
  apply latest_block_inv in H8 as [-> Hlatest].
  apply bind_returns in H as (e9 & [] & H9 & H).
  apply assert_inv in H9 as [-> Hhash]. apply bool_decide_eq_true in Hhash.
  apply bind_returns in H as (e10 & [] & H10 & H).
  pose proof H10 as Hchain.
  keeps_in chain Hchain ltac:(by apply keeps_update_mined_records).
  pose proof (update_mined_records_marks _ _ _ _ _ _ _ _ _ H10) as Hmarks.
  apply bind_returns in H as (e11 & snapshot & H11 & H).
  rewrite _generate_state_snapshot_run in H11. injection H11 as <- <-.
  apply bind_returns in H as (e12 & [] & H12 & H). injection H12 as <-.
  injection H as <- _. cbn.
  exists latest. split; [by rewrite Hchain|].
  intros tx Htx. rewrite <- Hhash. exact (Hmarks tx Htx).
Qed.

(** X20: where mining the pending block returns, every transaction the
    pending block had buffered has a transaction record and a receipt that
    name the new head of the chain by the number the pending block had and
    by the hash of the head; [get_transaction_receipt] returns that
    receipt. *)
Theorem mined_transactions_name_the_block (fork : ForkLoad) (sup : Support)
    (host : Host) (timestamp_ : option Z) (e e' : Engine)
    (pb mined : PendingBlock) :
  _pending_block e = Some pb →
  _mine_pending_block fork sup host timestamp_ e = (e', inr mined) →
  ∃ head,
    list.last (blocks (chain e')) = Some head
    ∧ ∀ tx, tx ∈ pb_transactions pb →
        ∃ record receipt,
          _transactions_map e' !! _get_tx_hash fork tx = Some record
          ∧ tr_block_number record = Some (ph_number (pb_header pb))
          ∧ tr_block_hash record = Some (compute_header_hash fork (header head))
          ∧ get_transaction_receipt sup (_get_tx_hash fork tx) e'
            = (e', inr receipt)
          ∧ rr_block_number receipt = Some (ph_number (pb_header pb))
          ∧ rr_block_hash receipt = Some (compute_header_hash fork (header head)).
Proof.
  intros Hpb H.
  destruct (_mine_pending_block_commit _ _ _ _ _ _ _ _ Hpb H)
    as (e2 & pb2 & out & hdr & blk & Hpb2 & Hn & Htxs & _ & Hcommit).
  destruct (commit_block_marks fork out hdr blk e2 e' pb2 mined Hpb2 Hcommit)
    as (head & Hhead & Hmarks).
  exists head. split; [done|]. intros tx Htx.
  rewrite <- Htxs in Htx.
  destruct (Hmarks tx Htx) as [(record & Hrec & Hrn & Hrh) (receipt & Hrcp & Hcn & Hch)].
  exists record, receipt. rewrite <- Hn.
  repeat split; try done.
  unfold get_transaction_receipt. run. by rewrite Hrcp.
Qed.

Lemma mined_transactions_name_the_block_witness :
  ∃ pb e' mined,
    _pending_block Scenario.transfer_sent = Some pb
    ∧ _mine_pending_block Toy.fork Toy.sup Toy.host None Scenario.transfer_sent
      = (e', inr mined)
    ∧ ∃ head,
        list.last (blocks (chain e')) = Some head
        ∧ ∀ tx, tx ∈ pb_transactions pb →
            ∃ record receipt,
              _transactions_map e' !! _get_tx_hash Toy.fork tx = Some record
              ∧ tr_block_number record = Some (ph_number (pb_header pb))
              ∧ tr_block_hash record
                = Some (compute_header_hash Toy.fork (header head))
              ∧ get_transaction_receipt Toy.sup (_get_tx_hash Toy.fork tx) e'
                = (e', inr receipt)
              ∧ rr_block_number receipt = Some (ph_number (pb_header pb))
              ∧ rr_block_hash receipt
                = Some (compute_header_hash Toy.fork (header head)).
Proof.
  assert (Hready : mining_ready Toy.fork Toy.sup Toy.host Scenario.transfer_sent
                     1712000000 = true) by (vm_compute; reflexivity).
  destruct (mining_ready_sound _ _ _ _ _ Hready)
    as (pb & head & Hpb & Hhead & Hnum & Hcont & Hts & Hnone & Hbuf).
  assert (Hpre : ∀ t, ph_timestamp (pb_header pb) = Some t → t ≤ 1712000000)
    by (intros t Ht; by rewrite Hnone in Ht).
  assert (HB : 1712000000 + 1 ≤ U256_MAX) by done.
  destruct (mine_round Toy.fork Toy.sup Toy.host Scenario.transfer_sent pb head
              1712000000 toy_accepting toy_clock_within HB Hpb Hhead Hnum Hts
              Hpre Hbuf) as (e5 & _ & mined & _ & _ & Hmine & _).
  exists pb, e5, mined. split; [exact Hpb|]. split; [exact Hmine|].
  exact (mined_transactions_name_the_block Toy.fork Toy.sup Toy.host None
           Scenario.transfer_sent e5 pb mined Hpb Hmine).
Defined.
